(** * snapshot-insight: certificate issuance and kubeconfig materialization

    A shallow embedding of package [etcd] of snapshot-insight (the
    functions that restore a snapshot, start the API server, issue the
    CA and client certificates and render the kubeconfig), together with
    the parts of Go's standard library whose behaviour the properties
    depend on: [encoding/base64] (StdEncoding), [encoding/pem] and a few
    functions of [bytes].

    Layout: Part I holds the definitions, Part II the lemmas and the
    theorems about them. *)

From Stdlib Require Import ZArith Lia List String Ascii Bool Strings.Byte.
Import ListNotations.

Local Open Scope Z_scope.

(* ===================================================================== *)
(** * Part I: definitions                                                 *)
(* ===================================================================== *)

(** ** unicode and unicode/utf8, as far as [bytes.TrimSpace] needs them *)

Module Unicode.

(** The runes with the Unicode property White_Space above Latin-1. *)
Definition White_Space : list (Z * Z) :=
  [(0x1680, 0x1680); (0x2000, 0x200a); (0x2028, 0x2029);
   (0x202f, 0x202f); (0x205f, 0x205f); (0x3000, 0x3000)].

(** unicode.IsSpace *)
Definition IsSpace (r : Z) : bool :=
  if r <=? 0xFF then
    match r with
    | 9 | 10 | 11 | 12 | 13 | 32 | 0x85 | 0xA0 => true
    | _ => false
    end
  else existsb (fun lh => (fst lh <=? r) && (r <=? snd lh)) White_Space.

End Unicode.

Module Utf8.

Definition RuneError : Z := 0xFFFD.
Definition RuneSelf : Z := 0x80.
Definition UTFMax : Z := 4.

Definition maskx : Z := 0x3F.
Definition mask2 : Z := 0x1F.
Definition mask3 : Z := 0x0F.
Definition mask4 : Z := 0x07.
Definition locb : Z := 0x80.
Definition hicb : Z := 0xBF.

(** The entries of [first]: [xx] is an invalid first byte, [as_] a
    byte of ASCII; the others hold the size of the encoding in their
    low three bits and the index of the range of the second byte in
    their high four. *)
Definition xx : Z := 0xF1.
Definition as_ : Z := 0xF0.
Definition s1 : Z := 0x02.
Definition s2 : Z := 0x13.
Definition s3 : Z := 0x03.
Definition s4 : Z := 0x23.
Definition s5 : Z := 0x34.
Definition s6 : Z := 0x04.
Definition s7 : Z := 0x44.

(** [first[b]] *)
Definition first (b : Z) : Z :=
  if b <? 0x80 then as_
  else if b <? 0xC2 then xx
  else if b <? 0xE0 then s1
  else if b =? 0xE0 then s2
  else if b <? 0xED then s3
  else if b =? 0xED then s4
  else if b <? 0xF0 then s3
  else if b =? 0xF0 then s5
  else if b <? 0xF4 then s6
  else if b =? 0xF4 then s7
  else xx.

(** [acceptRanges[i]]: the lowest and the highest second byte. *)
Definition acceptRanges (i : Z) : Z * Z :=
  match i with
  | 0 => (locb, hicb)
  | 1 => (0xA0, hicb)
  | 2 => (locb, 0x9F)
  | 3 => (0x90, hicb)
  | 4 => (locb, 0x8F)
  | _ => (0, 0)
  end.

(** utf8.DecodeRune, on the values of the bytes: the rune at the head
    of [p] and its width; what is no encoding of a rune is [RuneError]
    on one byte, and of no byte [RuneError] on none. *)
Definition DecodeRune (p : list Z) : Z * nat :=
  match p with
  | [] => (RuneError, 0%nat)
  | p0 :: rest =>
      let x := first p0 in
      if as_ <=? x then
        (if Z.odd x then RuneError else p0, 1%nat)
      else
        let sz := Z.land x 7 in
        let accept := acceptRanges (Z.shiftr x 4) in
        if Z.of_nat (List.length p) <? sz then (RuneError, 1%nat)
        else
          let b1 := nth 0 rest 0 in
          if (b1 <? fst accept) || (snd accept <? b1) then (RuneError, 1%nat)
          else if sz <=? 2 then
            (Z.lor (Z.shiftl (Z.land p0 mask2) 6) (Z.land b1 maskx), 2%nat)
          else
            let b2 := nth 1 rest 0 in
            if (b2 <? locb) || (hicb <? b2) then (RuneError, 1%nat)
            else if sz <=? 3 then
              (Z.lor (Z.lor (Z.shiftl (Z.land p0 mask3) 12)
                            (Z.shiftl (Z.land b1 maskx) 6))
                     (Z.land b2 maskx), 3%nat)
            else
              let b3 := nth 2 rest 0 in
              if (b3 <? locb) || (hicb <? b3) then (RuneError, 1%nat)
              else
                (Z.lor (Z.lor (Z.lor (Z.shiftl (Z.land p0 mask4) 18)
                                     (Z.shiftl (Z.land b1 maskx) 12))
                              (Z.shiftl (Z.land b2 maskx) 6))
                       (Z.land b3 maskx), 4%nat)
  end.

(** utf8.RuneStart: the byte is no continuation byte. *)
Definition RuneStart (b : Z) : bool := negb (Z.land b 0xC0 =? 0x80).

(** The loop of DecodeLastRune that looks for the start of the last
    rune: [for start--; start >= lim; start--], left at the first
    byte that starts a rune.  It runs [UTFMax] times at most. *)
Fixpoint backToStart (fuel : nat) (p : list Z) (start lim : Z) : Z :=
  match fuel with
  | O => start
  | S fuel' =>
      if start <? lim then start
      else if RuneStart (nth (Z.to_nat start) p 0) then start
      else backToStart fuel' p (start - 1) lim
  end.

(** utf8.DecodeLastRune: the last rune of [p] and its width. *)
Definition DecodeLastRune (p : list Z) : Z * nat :=
  let end_ := Z.of_nat (List.length p) in
  if end_ =? 0 then (RuneError, 0%nat)
  else
    let start := end_ - 1 in
    let r := nth (Z.to_nat start) p 0 in
    if r <? RuneSelf then (r, 1%nat)
    else
      let lim := Z.max 0 (end_ - UTFMax) in
      let start := backToStart 4 p (start - 1) lim in
      let start := Z.max 0 start in
      let '(r, size) := DecodeRune (skipn (Z.to_nat start) p) in
      if start + Z.of_nat size =? end_ then (r, size) else (RuneError, 1%nat).

End Utf8.

(** ** Go byte slices

    A [[]byte] is a [list byte]; a Go [string] is a [string].  The
    conversions [[]byte(s)] and [string(b)] are [list_byte_of_string] and
    [string_of_list_byte]. *)

Module Bytes.

Definition to_Z (b : byte) : Z := Z.of_N (Byte.to_N b).

(** [byte(v)] on an unsigned integer: the low eight bits. *)
Definition of_Z (v : Z) : byte :=
match Byte.of_N (Z.to_N (v mod 256)) with
| Some b => b
| None => x00
end.

Definition lit (s : string) : list byte := list_byte_of_string s.

(** bytes.HasPrefix *)
Fixpoint HasPrefix (s prefix : list byte) {struct prefix} : bool :=
match prefix, s with
| [], _ => true
| _ :: _, [] => false
| p :: prefix', c :: s' => Byte.eqb c p && HasPrefix s' prefix'
end.

(** bytes.HasSuffix *)
Definition HasSuffix (s suffix : list byte) : bool :=
(List.length suffix <=? List.length s)%nat
&& HasPrefix (skipn (List.length s - List.length suffix) s) suffix.

(** bytes.Index: the index of the first instance of [sep] in [s];
Go's [-1] is [None]. *)
Fixpoint Index (s sep : list byte) : option nat :=
if HasPrefix s sep then Some O
else match s with
| [] => None
| _ :: s' => option_map S (Index s' sep)
end.

(** bytes.IndexByte *)
Fixpoint IndexByte (s : list byte) (c : byte) : option nat :=
match s with
| [] => None
| x :: s' => if Byte.eqb x c then Some O else option_map S (IndexByte s' c)
end.

(** bytes.Cut: [(before, after, found)]. *)
Definition Cut (s sep : list byte) : list byte * list byte * bool :=
match Index s sep with
| Some i => (firstn i s, skipn (i + List.length sep) s, true)
| None => (s, [], false)
end.

Definition mem (c : byte) (cutset : list byte) : bool :=
existsb (Byte.eqb c) cutset.

(** bytes.TrimLeft, for a cutset of ASCII bytes. *)
Fixpoint TrimLeft (s cutset : list byte) : list byte :=
match s with
| [] => []
| c :: s' => if mem c cutset then TrimLeft s' cutset else s
end.

(** bytes.TrimRight, for a cutset of ASCII bytes. *)
Definition TrimRight (s cutset : list byte) : list byte :=
rev (TrimLeft (rev s) cutset).

(** The ASCII white space of [unicode.IsSpace]:
tab, line feed, vertical tab, form feed, carriage return, space. *)
Definition asciiSpace : list byte := [x09; x0a; x0b; x0c; x0d; x20].

(** [s[i]], for an index within [s]. *)
Definition at_ (s : list byte) (i : nat) : Z := to_Z (nth i s x00).

(** The rune at [start] in a loop over the runes of [s], and its width:
a byte below [RuneSelf] is the rune, anything else is decoded. *)
Definition runeAt (s : list byte) (start : nat) : Z * nat :=
if at_ s start <? Utf8.RuneSelf then (at_ s start, 1%nat)
else Utf8.DecodeRune (map to_Z (skipn start s)).

(** indexFunc: the index of the first rune from [start] on for which
[f] is [truth]; Go's [-1] is [None].  A rune takes at least one
byte, so [List.length s] rounds are enough. *)
Fixpoint indexFunc (fuel : nat) (s : list byte) (f : Z -> bool) (truth : bool)
(start : nat) : option nat :=
match fuel with
| O => None
| S fuel' =>
  if (start <? List.length s)%nat then
    let '(r, wid) := runeAt s start in
    if Bool.eqb (f r) truth then Some start
    else indexFunc fuel' s f truth (start + wid)
  else None
end.

(** lastIndexFunc: the index of the last rune before [i] for which [f]
is [truth], the runes read from the end. *)
Fixpoint lastIndexFunc (fuel : nat) (s : list byte) (f : Z -> bool) (truth : bool)
(i : nat) : option nat :=
match fuel with
| O => None
| S fuel' =>
  if (0 <? i)%nat then
    let '(r, size) :=
      if at_ s (i - 1) <? Utf8.RuneSelf then (at_ s (i - 1), 1%nat)
      else Utf8.DecodeLastRune (map to_Z (firstn i s)) in
    let i := (i - size)%nat in
    if Bool.eqb (f r) truth then Some i
    else lastIndexFunc fuel' s f truth i
  else None
end.

(** bytes.TrimLeftFunc *)
Definition TrimLeftFunc (s : list byte) (f : Z -> bool) : list byte :=
match indexFunc (List.length s) s f false 0 with
| None => []
| Some i => skipn i s
end.

(** bytes.TrimRightFunc *)
Definition TrimRightFunc (s : list byte) (f : Z -> bool) : list byte :=
match lastIndexFunc (List.length s) s f false (List.length s) with
| Some i =>
  if Utf8.RuneSelf <=? at_ s i
  then firstn (i + snd (Utf8.DecodeRune (map to_Z (skipn i s)))) s
  else firstn (i + 1) s
| None => []
end.

(** bytes.TrimFunc *)
Definition TrimFunc (s : list byte) (f : Z -> bool) : list byte :=
TrimRightFunc (TrimLeftFunc s f) f.

(** The second loop of TrimSpace, on the bytes from [start] on, last
first: the white space of ASCII at the end goes; a byte that is not
of ASCII hands what is left to TrimFunc. *)
Fixpoint trimStop (r : list byte) : list byte :=
match r with
| [] => []
| c :: r' =>
  if Utf8.RuneSelf <=? to_Z c then TrimFunc (rev r) Unicode.IsSpace
  else if mem c asciiSpace then trimStop r'
  else rev r
end.

(** bytes.TrimSpace: [s] without the white space at its two ends, as
defined by Unicode.  The first loop passes the white space of ASCII
at the start; a byte that is not of ASCII hands the rest to
TrimFunc. *)
Fixpoint TrimSpace (s : list byte) : list byte :=
match s with
| [] => []
| c :: s' =>
  if Utf8.RuneSelf <=? to_Z c then TrimFunc s Unicode.IsSpace
  else if mem c asciiSpace then TrimSpace s'
  else trimStop (rev s)
end.

End Bytes.

(** ** encoding/base64, [StdEncoding]

    Modelled from the spec: the base64 encoding of the kubeconfig fields
    and of the PEM body is Go's [encoding/base64], which the program calls
    and which is not among its sources.  The definitions follow that
    package's [Encode], [decodeQuantum] and [Decode] for [StdEncoding]
    (the standard alphabet, padded, not strict). *)

Module Base64.

(** [encodeStd], the alphabet of [StdEncoding]. *)
Definition encodeStd : list byte :=
Bytes.lit "ABCDEFGHIJKLMNOPQRSTUVWXYZabcdefghijklmnopqrstuvwxyz0123456789+/".

(** [StdPadding] is ['=']. *)
Definition padChar : byte := x3d.

(** [enc.encode[i]] *)
Definition encode (i : Z) : byte := nth (Z.to_nat i) encodeStd x00.

(** [enc.decodeMap]: every entry starts as [0xff], then
[decodeMap[encoder[i]] = i] for [i] running over the alphabet. *)
Definition decodeMap : byte -> Z :=
fold_left
(fun (m : byte -> Z) (ic : nat * byte) =>
fun x => if Byte.eqb x (snd ic) then Z.of_nat (fst ic) else m x)
(combine (seq 0 (List.length encodeStd)) encodeStd)
(fun _ => 255).

(** The 24-bit group of up to three source bytes:
[uint(src[si+0])<<16 | uint(src[si+1])<<8 | uint(src[si+2])]. *)
Definition group (a b c : byte) : Z :=
Z.lor (Z.lor (Z.shiftl (Bytes.to_Z a) 16) (Z.shiftl (Bytes.to_Z b) 8))
(Bytes.to_Z c).

(** [enc.encode[val>>k&0x3F]] *)
Definition sextet (val k : Z) : byte := encode (Z.land (Z.shiftr val k) 63).

(** Encode: whole groups of three bytes first, then the
remaining one or two bytes with padding. *)
Fixpoint Encode (src : list byte) : list byte :=
match src with
| a :: b :: c :: rest =>
let val := group a b c in
sextet val 18 :: sextet val 12 :: sextet val 6 :: sextet val 0
:: Encode rest
| [a; b] =>
let val := group a b x00 in
[sextet val 18; sextet val 12; sextet val 6; padChar]
| [a] =>
let val := group a x00 x00 in
[sextet val 18; sextet val 12; padChar; padChar]
| [] => []
end.

Definition EncodeToString (src : list byte) : string :=
string_of_list_byte (Encode src).

(** [CorruptInputError]; the byte offset it carries is left out. *)
Inductive error := CorruptInputError.

Definition is_newline (c : byte) : bool := Byte.eqb c x0a || Byte.eqb c x0d.

(** The loops [for si < len(src) && (src[si] == '\n' || src[si] == '\r')]. *)
Fixpoint skipNewlines (src : list byte) : list byte :=
match src with
| c :: src' => if is_newline c then skipNewlines src' else src
| [] => []
end.

(** [dbuf[j] = out] on the four-entry buffer. *)
Fixpoint upd (j : nat) (out : Z) (dbuf : list Z) : list Z :=
match dbuf, j with
| [], _ => []
| _ :: t, O => out :: t
| h :: t, S j' => h :: upd j' out t
end.

(** The tail of decodeQuantum: four sextets to three bytes, of which
[dlen - 1] are written. *)
Definition quantumBytes (dlen : nat) (dbuf : list Z) : list byte :=
let d k := nth k dbuf 0 in
let val := Z.lor (Z.lor (Z.lor (Z.shiftl (d 0%nat) 18) (Z.shiftl (d 1%nat) 12))
                  (Z.shiftl (d 2%nat) 6)) (d 3%nat) in
firstn (dlen - 1)
[Bytes.of_Z (Z.shiftr val 16); Bytes.of_Z (Z.shiftr val 8);
Bytes.of_Z (Z.shiftr val 0)].

(** The result of one decodeQuantum: the unread input, the bytes
written and the error. *)
Definition quantum : Type := list byte * list byte * option error.

(** decodeQuantum from position [j] of the quantum, reading
[src].  Line feeds and carriage returns are skipped; padding ends the
input. *)
Fixpoint decodeQuantum_from (j : nat) (dbuf : list Z) (src : list byte)
{struct src} : quantum :=
match src with
| [] =>
match j with
| O => ([], [], None)
| _ => ([], [], Some CorruptInputError)
end
| c :: src' =>
let out := decodeMap c in
if negb (out =? 255) then
let dbuf' := upd j out dbuf in
if (S j =? 4)%nat then (src', quantumBytes 4 dbuf', None)
else decodeQuantum_from (S j) dbuf' src'
else if is_newline c then decodeQuantum_from j dbuf src'
else if negb (Byte.eqb c padChar) then (src', [], Some CorruptInputError)
else
match j with
| 0%nat | 1%nat => (src', [], Some CorruptInputError)
| _ =>
    let second :=
      if (j =? 2)%nat then
        match skipNewlines src' with
        | [] => None
        | p :: r => if Byte.eqb p padChar then Some r else None
        end
      else Some src' in
    match second with
    | None => (src', [], Some CorruptInputError)
    | Some r =>
        let r' := skipNewlines r in
        (r', quantumBytes j dbuf,
         match r' with
         | [] => None
         | _ :: _ => Some CorruptInputError
         end)
    end
end
end.

Definition decodeQuantum (src : list byte) : quantum :=
decodeQuantum_from 0 [0; 0; 0; 0] src.

(** Decode: quanta are decoded until the input is used up
or one of them fails.  (The eight- and four-character fast paths of
the Go code decode the same bytes as decodeQuantum and fall back to
it; they are not modelled apart.)  Each quantum reads at least one
byte, so [List.length src] rounds are enough. *)
Fixpoint Decode_loop (fuel : nat) (src acc : list byte)
: list byte * option error :=
match src, fuel with
| [], _ => (acc, None)
| _ :: _, O => (acc, None)
| _ :: _, S fuel' =>
match decodeQuantum src with
| (rest, out, None) => Decode_loop fuel' rest (acc ++ out)
| (_, out, Some e) => (acc ++ out, Some e)
end
end.

Definition Decode (src : list byte) : list byte * option error :=
Decode_loop (List.length src) src [].

Definition DecodeString (s : string) : list byte * option error :=
Decode (list_byte_of_string s).

(** The input without its line feeds and carriage returns. *)
Definition stripNewlines (src : list byte) : list byte :=
filter (fun c => negb (is_newline c)) src.

(** A quantum whose unread input is taken without its line ends. *)
Definition strip_quantum (q : quantum) : quantum :=
let '(rest, out, err) := q in (stripNewlines rest, out, err).

End Base64.

(** ** encoding/pem

    Modelled from the spec: the PEM codec (section 4.2 of the
    specification) is Go's [encoding/pem], which the program calls in
    writePEMFile and GenerateClientCert and which is not among its
    sources.  The definitions follow that package's [Encode],
    [lineBreaker], [Decode], [getLine] and [removeSpacesAndTabs]. *)

Module Pem.

(** [pem.Block]; [Headers] is the map of the Go struct, kept as an
association list in which a key occurs once. *)
Record Block := {
Type_ : string;
Headers : list (list byte * list byte);
Bytes : list byte
}.

Definition pemStart : list byte := x0a :: Bytes.lit "-----BEGIN ".
Definition pemEnd : list byte := x0a :: Bytes.lit "-----END ".
Definition pemEndOfLine : list byte := Bytes.lit "-----".
Definition colon : list byte := Bytes.lit ":".

Definition pemLineLength : nat := 64.

(** [lineBreaker.Write]: the bytes written go to the current line, and
a line that reaches [pemLineLength] bytes is put out followed by a
line feed.  The result is the output and the pending line. *)
Fixpoint lineBreaker_Write (line b : list byte) : list byte * list byte :=
match b with
| [] => ([], line)
| c :: b' =>
if (List.length line + 1 <? pemLineLength)%nat
then lineBreaker_Write (line ++ [c]) b'
else let '(out, line') := lineBreaker_Write [] b' in
   (line ++ c :: x0a :: out, line')
end.

(** [lineBreaker.Close]: a pending line is put out with its line feed. *)
Definition lineBreaker_Close (line : list byte) : list byte :=
match line with
| [] => []
| _ :: _ => line ++ [x0a]
end.

(** What the base64 encoder writing through a [lineBreaker] puts out
for [data], once both are closed. *)
Definition body (data : list byte) : list byte :=
let '(out, line) := lineBreaker_Write [] (Base64.Encode data) in
out ++ lineBreaker_Close line.

(** Modelled from the spec: the Encode of section 4.2, which is
pem.Encode of Go's encoding/pem (not among the sources), for a block
without headers (the only kind the program builds): the text written
to [out]. *)
Definition Encode (blockType : string) (data : list byte) : list byte :=
List.tl pemStart ++ list_byte_of_string blockType ++ Bytes.lit "-----" ++ [x0a]
++ body data
++ List.tl pemEnd ++ list_byte_of_string blockType ++ Bytes.lit "-----" ++ [x0a].

(** getLine: the first line of [data] without its line ending and
without trailing spaces and tabs, and what follows the line. *)
Definition getLine (data : list byte) : list byte * list byte :=
match Bytes.IndexByte data x0a with
| None => (Bytes.TrimRight data [x20; x09], [])
| Some i =>
let j := S i in
let i' :=
if (0 <? i)%nat && Byte.eqb (nth (i - 1) data x00) x0d
then (i - 1)%nat else i in
(Bytes.TrimRight (firstn i' data) [x20; x09], skipn j data)
end.

(** removeSpacesAndTabs *)
Definition removeSpacesAndTabs (data : list byte) : list byte :=
filter (fun b => negb (Byte.eqb b x20 || Byte.eqb b x09)) data.

Definition bytes_eqb (a b : list byte) : bool :=
(List.length a =? List.length b)%nat && Bytes.HasPrefix a b.

(** [p.Headers[key] = val] *)
Definition setHeader (key val : list byte) (h : list (list byte * list byte))
: list (list byte * list byte) :=
filter (fun kv => negb (bytes_eqb (fst kv) key)) h ++ [(key, val)].

(** The header loop of Decode: [None] when the input ends inside it,
else the headers and the input from the first line without a
colon.  Each round drops a line, so [List.length rest] rounds are
enough. *)
Fixpoint headerLoop (fuel : nat) (rest : list byte)
(h : list (list byte * list byte))
: option (list (list byte * list byte) * list byte) :=
match rest, fuel with
| [], _ => None
| _ :: _, O => None
| _ :: _, S fuel' =>
let '(line, next) := getLine rest in
match Bytes.Cut line colon with
| (key, val, true) =>
  headerLoop fuel' next
    (setHeader (Bytes.TrimSpace key) (Bytes.TrimSpace val) h)
| (_, _, false) => Some (h, rest)
end
end.

(** One round of the loop of Decode. *)
Inductive round :=
| Found (p : Block) (rest : list byte)  (* return p, rest *)
| NoBlock                               (* return nil, data *)
| Continue (rest : list byte).          (* continue *)

Definition Decode_round (rest : list byte) : round :=
let start :=
if Bytes.HasPrefix rest (List.tl pemStart)
then Some (skipn (List.length pemStart - 1) rest)
else match Bytes.Cut rest pemStart with
 | (_, after, true) => Some after
 | (_, _, false) => None
 end in
match start with
| None => NoBlock
| Some rest =>
let '(typeLine, rest) := getLine rest in
if negb (Bytes.HasSuffix typeLine pemEndOfLine) then Continue rest
else
let typeLine :=
  firstn (List.length typeLine - List.length pemEndOfLine) typeLine in
match headerLoop (List.length rest) rest [] with
| None => NoBlock
| Some (headers, rest) =>
    let ends :=
      if (List.length headers =? 0)%nat
         && Bytes.HasPrefix rest (List.tl pemEnd)
      then Some (O, (List.length pemEnd - 1)%nat)
      else match Bytes.Index rest pemEnd with
           | Some i => Some (i, (i + List.length pemEnd)%nat)
           | None => None
           end in
    match ends with
    | None => Continue rest
    | Some (endIndex, endTrailerIndex) =>
        let endTrailer := skipn endTrailerIndex rest in
        let endTrailerLen :=
          (List.length typeLine + List.length pemEndOfLine)%nat in
        if (List.length endTrailer <? endTrailerLen)%nat
        then Continue rest
        else
          let restOfEndLine := skipn endTrailerLen endTrailer in
          let endTrailer := firstn endTrailerLen endTrailer in
          if negb (Bytes.HasPrefix endTrailer typeLine)
             || negb (Bytes.HasSuffix endTrailer pemEndOfLine)
          then Continue rest
          else if negb (List.length (fst (getLine restOfEndLine)) =? 0)%nat
          then Continue rest
          else
            let base64Data :=
              removeSpacesAndTabs (firstn endIndex rest) in
            match Base64.Decode base64Data with
            | (_, Some _) => Continue rest
            | (decoded, None) =>
                Found {| Type_ := string_of_list_byte typeLine;
                         Headers := headers;
                         Bytes := decoded |}
                      (snd (getLine
                         (skipn (endIndex + List.length pemEnd - 1) rest)))
            end
    end
end
end.

(** The loop of Decode.  A round that continues has dropped a
[-----BEGIN ] from the input, so [List.length data] rounds are
enough. *)
Fixpoint Decode_loop (fuel : nat) (data rest : list byte)
: option Block * list byte :=
match Decode_round rest with
| Found p rest' => (Some p, rest')
| NoBlock => (None, data)
| Continue rest' =>
match fuel with
| O => (None, data)
| S fuel' => Decode_loop fuel' data rest'
end
end.

(** Modelled from the spec: the Decode of section 4.2, which is
pem.Decode of Go's encoding/pem (not among the sources): the first PEM
block of [data] and the rest of the input; no block is [None] with
[data] itself.  The rounds follow the form of the package that looks
for the first BEGIN line and then for the END line after it.  A later
form looks for the first END line and for the last BEGIN mark before
it, which must start a line: a text whose type line or header holds
the mark [-----BEGIN ] is read here and not there.  The properties of
the round trip keep to block types without that mark. *)
Definition Decode (data : list byte) : option Block * list byte :=
Decode_loop (List.length data) data data.

(** The characters of base64 text: the alphabet and the padding. *)
Definition textb (c : byte) : bool :=
negb (Base64.decodeMap c =? 255) || Byte.eqb c Base64.padChar.

Definition text (s : list byte) : Prop := Forall (fun c => textb c = true) s.

(** A sequence of non-empty lines of base64 text, each ended by a
line feed. *)
Inductive Lines : list byte -> Prop :=
| Lines_nil : Lines []
| Lines_cons l s : l <> [] -> text l -> Lines s -> Lines (l ++ x0a :: s).

(** A line is either empty or ends in a byte that getLine keeps. *)
Definition keptEnd (l : list byte) : Prop :=
l = [] \/ exists l' c, l = l' ++ [c] /\ c <> x0d /\ c <> x20 /\ c <> x09.

(** The END line of an encoded block of type [t]. *)
Definition endLine (t : list byte) : list byte :=
List.tl pemEnd ++ (t ++ pemEndOfLine) ++ [x0a].

End Pem.

(** ** The program's view of the Go runtime and of the operating system

    Every call that leaves the program (the operating system, the
    container runtime behind [exec.Command], the clock, the entropy
    source and the X.509 library) is an effect: the program asks, the
    environment answers.  A function of the program is a tree of such
    questions.  Properties are stated for every environment. *)

Module Go.

Local Open Scope string_scope.

(** A Go [error]: its message, and whether [os.IsNotExist] holds of it. *)
Inductive error := mkError (notExist : bool) (msg : string).

Definition Error (e : error) : string := let '(mkError _ m) := e in m.

(** os.IsNotExist *)
Definition IsNotExist (err : option error) : bool :=
match err with
| Some (mkError b _) => b
| None => false
end.

(** errors.New and fmt.Errorf without an error argument *)
Definition New (msg : string) : error := mkError false msg.

(** fmt.Errorf(prefix + "%v", err): a new error, which wraps nothing. *)
Definition Errorf (prefix : string) (err : error) : error :=
mkError false (prefix ++ Error err).

Definition nl : string := String "010" EmptyString.

(** time.Time as nanoseconds since the Unix epoch; time.Duration in
nanoseconds. *)
Definition Time : Type := Z.
Definition Hour : Z := 3600 * 1000000000.
Definition Add (t : Time) (d : Z) : Time := t + d.
Definition Unix (t : Time) : Z := t / 1000000000.

(** net.IP is a byte slice; the nil address is the empty one. *)
Definition IP : Type := list byte.

(** elliptic.Curve, ecdsa.PublicKey, ecdsa.PrivateKey *)
Inductive Curve := P224 | P256 | P384 | P521.
Record PublicKey := { Curve_ : Curve; X : Z; Y : Z }.
Record PrivateKey := { PublicKey_ : PublicKey; D : Z }.

(** pkix.Name, the fields the program sets. *)
Record Name := { Organization : list string; CommonName : string }.

(** x509.KeyUsage bits and x509.ExtKeyUsage values. *)
Definition KeyUsageDigitalSignature : Z := Z.shiftl 1 0.
Definition KeyUsageKeyEncipherment : Z := Z.shiftl 1 2.
Definition KeyUsageCertSign : Z := Z.shiftl 1 5.
Inductive ExtKeyUsage := ExtKeyUsageAny | ExtKeyUsageServerAuth | ExtKeyUsageClientAuth.

(** x509.Certificate, the fields the program sets; the others keep
their zero value. *)
Record Certificate := {
SerialNumber : Z;
Subject : Name;
NotBefore : Time;
NotAfter : Time;
KeyUsage : Z;
ExtKeyUsage_ : list ExtKeyUsage;
BasicConstraintsValid : bool;
IsCA : bool;
IPAddresses : list IP
}.

(** An open file, [*os.File]. *)
Definition File : Type := nat.

Inductive Eff : Type -> Type :=
| Print (s : string) : Eff unit                     (* fmt.Printf, fmt.Println *)
| Run (argv : list string) : Eff (option error)     (* exec.Command(...).Run() *)
| Stat (name : string) : Eff (option error)         (* os.Stat, the error *)
| MkdirTemp (dir pattern : string) : Eff (error + string)
| RemoveAll (path : string) : Eff (option error)
| Create (name : string) : Eff (error + File)       (* os.Create *)
| Write (f : File) (data : list byte) : Eff (option error)
| Close (f : File) : Eff (option error)
| ReadFile (name : string) : Eff (error + list byte)
| Now : Eff Time                                    (* time.Now *)
| GenerateKey (c : Curve) : Eff (error + PrivateKey) (* ecdsa.GenerateKey(c, rand.Reader) *)
| CreateCertificate (template parent : Certificate)
(pub : PublicKey) (priv : PrivateKey) : Eff (error + list byte)
| MarshalECPrivateKey (key : PrivateKey) : Eff (error + list byte)
| ParseCertificate (der : list byte) : Eff (error + Certificate)
| ParseECPrivateKey (der : list byte) : Eff (error + PrivateKey).

Inductive Prog (A : Type) : Type :=
| Ret (a : A)
| Vis {X : Type} (e : Eff X) (k : X -> Prog A).
Arguments Ret {A} a.
Arguments Vis {A X} e k.

Fixpoint bind {A B} (p : Prog A) (k : A -> Prog B) : Prog B :=
match p with
| Ret a => k a
| Vis e h => Vis e (fun x => bind (h x) k)
end.

Definition call {X} (e : Eff X) : Prog X := Vis e Ret.

(** [defer d] around a function body: [d] runs when the body returns,
whatever it returns. *)
Definition defer {A B} (d : Prog B) (body : Prog A) : Prog A :=
bind body (fun a => bind d (fun _ => Ret a)).

(** One question and its answer. *)
Inductive Event : Type := Ev : forall X : Type, Eff X -> X -> Event.
Arguments Ev {X} e x.

Definition trace := list Event.

Section Run.
Context {St : Type}.
Variable handle : forall X, Eff X -> St -> X * St.

(** The run of a program in an environment: what it returns, the
events in order and the state the environment is left in. *)
Fixpoint run {A} (p : Prog A) (s : St) : A * trace * St :=
match p with
| Ret a => (a, [], s)
| Vis e k =>
let '(x, s1) := handle _ e s in
let '(a, tr, s2) := run (k x) s1 in
(a, Ev e x :: tr, s2)
end.

Definition result {A} (p : Prog A) (s : St) : A := fst (fst (run p s)).
Definition events {A} (p : Prog A) (s : St) : trace := snd (fst (run p s)).
End Run.

(** [always p Q]: [Q] holds of the result and the events of [p]
whatever the environment answers. *)
Fixpoint always {A} (p : Prog A) (Q : A -> trace -> Prop) : Prop :=
match p with
| Ret a => Q a []
| Vis e k => forall x, always (k x) (fun a tr => Q a (Ev e x :: tr))
end.

End Go.

Declare Scope go_scope.
Delimit Scope go_scope with go.
Notation "x <- p ;; k" := (Go.bind p (fun x => k))
  (at level 61, p at next level, right associativity) : go_scope.
Notation "'attempt' p 'orelse' w ;; k" :=
  (Go.bind p (fun err => match err with
                         | Some err => Go.Ret (Some (w err))
                         | None => k
                         end))
  (at level 61, p at next level, w at next level, right associativity) : go_scope.
Notation "'obtain' x <- p 'orelse' w ;; k" :=
  (Go.bind p (fun r => match r with
                       | inl err => Go.Ret (Some (w err))
                       | inr x => k
                       end))
  (at level 61, x name, p at next level, w at next level,
   right associativity) : go_scope.

(** ** text/template, as far as the kubeconfig template goes: text and
    actions of the form [{{ .Field }}]

    Go's [text/template] is not among the sources either; [Parse] and
    [Execute] below cover the templates made of text and field actions,
    and print a string field as it is (text/template escapes nothing). *)

Module Template.

Local Open Scope string_scope.

Inductive Node :=
| TextNode (text : string)
| FieldNode (ident : string).

Fixpoint trimLeft (s : string) : string :=
match s with
| String " " s' => trimLeft s'
| _ => s
end.

Fixpoint rev (s acc : string) : string :=
match s with
| EmptyString => acc
| String c s' => rev s' (String c acc)
end.

Definition trim (s : string) : string :=
rev (trimLeft (rev (trimLeft s) "")) "".

Definition textNode (text : string) (rest : list Node) : list Node :=
match text with
| EmptyString => rest
| _ => TextNode text :: rest
end.

(** The lexer and parser in one pass: [inAction] tells whether the
input is inside [{{ }}], [acc] is the text or the action read so
far, in reverse.  An action must be a dot and a field name. *)
Fixpoint parse (inAction : bool) (acc : string) (s : string)
: option (list Node) :=
match s with
| EmptyString =>
if inAction then None else Some (textNode (rev acc "") [])
| String c s' =>
match inAction, c, s' with
| false, "{"%char, String "{"%char s'' =>
  option_map (textNode (rev acc "")) (parse true "" s'')
| true, "}"%char, String "}"%char s'' =>
  match trim (rev acc "") with
  | String "."%char ident =>
      match ident with
      | EmptyString => None
      | _ => option_map (cons (FieldNode ident)) (parse false "" s'')
      end
  | _ => None
  end
| _, _, _ => parse inAction (String c acc) s'
end
end.

(** template.New(name).Parse(text) *)
Definition Parse (text : string) : option (list Node) := parse false "" text.

(** Execute: the text of the template with each field action replaced
by the value of the field, printed as it is; a field the data does
not have is an error. *)
Fixpoint Execute (t : list Node) (data : string -> option string)
: option string :=
match t with
| [] => Some ""
| TextNode text :: t' => option_map (append text) (Execute t' data)
| FieldNode ident :: t' =>
match data ident with
| Some v => option_map (append v) (Execute t' data)
| None => None
end
end.

End Template.

(** ** path/filepath on Unix: Clean and Join

    Go's [path/filepath] is not among the sources.  [Clean] follows the
    loop of the package, which reads the path element by element and
    keeps the cleaned path in a buffer; the buffer is here the list of
    the elements written, last first. *)

Module Filepath.

Local Open Scope string_scope.

Definition Separator : ascii := "/"%char.

(** What lies between the separators of [path], in order; [cur] is the
    element being read. *)
Fixpoint elements (path cur : string) : list string :=
  match path with
  | EmptyString => [cur]
  | String c path' =>
      if (c =? Separator)%char then cur :: elements path' ""
      else elements path' (cur ++ String c "")
  end.

(** The loop of Clean.  [out] holds the elements written, last first;
    [dotdot] is the number of [..] elements at the start of a path
    that is not rooted, behind which a later [..] cannot go. *)
Fixpoint cleanLoop (rooted : bool) (elems out : list string) (dotdot : nat)
  : list string :=
  match elems with
  | [] => out
  | e :: elems' =>
      if (e =? "")%string then cleanLoop rooted elems' out dotdot
      else if (e =? ".")%string then cleanLoop rooted elems' out dotdot
      else if (e =? "..")%string then
        if (dotdot <? List.length out)%nat then
          cleanLoop rooted elems' (List.tl out) dotdot
        else if rooted then cleanLoop rooted elems' out dotdot
        else cleanLoop rooted elems' (".." :: out) (S dotdot)
      else cleanLoop rooted elems' (e :: out) dotdot
  end.

(** filepath.Clean: the shortest path name equivalent to [path] by
    purely lexical processing. *)
Definition Clean (path : string) : string :=
  match path with
  | EmptyString => "."
  | String c _ =>
      let rooted := (c =? Separator)%char in
      let out := rev (cleanLoop rooted (elements path "") [] 0) in
      if rooted then String Separator (String.concat "/" out)
      else match out with
           | [] => "."
           | _ :: _ => String.concat "/" out
           end
  end.

(** filepath.Join: the elements from the first that is not empty on,
    with separators between them, cleaned; no such element is the
    empty path. *)
Fixpoint Join (elem : list string) : string :=
  match elem with
  | [] => ""
  | e :: elem' =>
      if (e =? "")%string then Join elem'
      else Clean (String.concat "/" elem)
  end.

End Filepath.

(** ** Package etcd *)

Module Etcd.

Import Go.
Local Open Scope string_scope.
Local Open Scope go_scope.

(** filepath.Join of a directory and a file name: the two with a
separator between them, cleaned.  (os.MkdirTemp gives the directory
as the environment names it, which need not be clean.) *)
Definition Join (dir name : string) : string := Filepath.Join [dir; name].

(** RestoreEtcdSnapshot restores an etcd snapshot using etcdutl
directly within a Docker container. *)
Definition RestoreEtcdSnapshot (snapshotPath containerName volumeName : string)
: Prog (option error) :=
err <- call (Stat snapshotPath) ;;
if IsNotExist err then
Ret (Some (New ("snapshot file not found: " ++ snapshotPath)))
else
_ <- call (Print ("Pulling etcd Docker image..." ++ nl)) ;;
attempt call (Run ["docker"; "pull"; "quay.io/coreos/etcd:v3.5.7"])
orelse Errorf "failed to pull etcd Docker image: " ;;
_ <- call (Print ("Removing existing container: " ++ containerName
              ++ " (if running)..." ++ nl)) ;;
_ <- call (Run ["docker"; "rm"; "-f"; containerName]) ;;
_ <- call (Print ("Removing existing Docker volume: " ++ volumeName
              ++ " (if exists)..." ++ nl)) ;;
_ <- call (Run ["docker"; "volume"; "rm"; volumeName]) ;;
_ <- call (Print ("Creating Docker volume: " ++ volumeName ++ "..." ++ nl)) ;;
attempt call (Run ["docker"; "volume"; "create"; volumeName])
orelse Errorf "failed to create Docker volume: " ;;
_ <- call (Print ("Restoring snapshot: " ++ snapshotPath
              ++ " into Docker volume: " ++ volumeName ++ "..." ++ nl)) ;;
attempt call (Run ["docker"; "run"; "--rm"; "--name"; containerName;
         "-v"; snapshotPath ++ ":/snapshot.db";
         "-v"; volumeName ++ ":/etcd-data";
         "quay.io/coreos/etcd:v3.5.7";
         "/usr/local/bin/etcdutl"; "snapshot"; "restore";
         "/snapshot.db"; "--data-dir=/etcd-data"])
orelse Errorf "failed to restore snapshot: " ;;
_ <- call (Print ("Snapshot restored successfully." ++ nl)) ;;
_ <- call (Print ("Restored data is available in Docker volume: "
              ++ volumeName ++ nl)) ;;
Ret None.

(** writePEMFile writes data to a PEM file.  The writes pem.Encode
makes on the file are one [Write] of the whole text. *)
Definition writePEMFile (path blockType : string) (data : list byte)
: Prog (option error) :=
r <- call (Create path) ;;
match r with
| inl err => Ret (Some err)
| inr file =>
defer (call (Close file))
(call (Write file (Pem.Encode blockType data)))
end.

Section WithParseIP.

(** net.ParseIP: the address a string denotes, nil (the empty
slice) when it denotes none. *)
Variable ParseIP : string -> IP.

Definition caTemplate (notBefore now : Time) (hostIP : string) : Certificate :=
{| SerialNumber := 1;
Subject := {| Organization := ["Kubernetes"];
   CommonName := "Kubernetes CA" |};
NotBefore := notBefore;
NotAfter := Add now (365 * 24 * Hour);
KeyUsage := Z.lor KeyUsageCertSign KeyUsageDigitalSignature;
ExtKeyUsage_ := [];
BasicConstraintsValid := true;
IsCA := true;
IPAddresses := [ParseIP hostIP] |}.

Definition clientTemplate (serial : Z) (notBefore now : Time)
(hostIP : string) : Certificate :=
{| SerialNumber := serial;
Subject := {| Organization := ["Kubernetes"];
   CommonName := "Kubernetes Client" |};
NotBefore := notBefore;
NotAfter := Add now (365 * 24 * Hour);
KeyUsage := Z.lor KeyUsageDigitalSignature KeyUsageKeyEncipherment;
ExtKeyUsage_ := [ExtKeyUsageClientAuth];
BasicConstraintsValid := false;
IsCA := false;
IPAddresses := [ParseIP hostIP] |}.

(** GenerateSelfSignedCAWithSAN creates a self-signed CA certificate,
private key, client certificate, and client key. *)
Definition GenerateSelfSignedCAWithSAN
(caCertPath caKeyPath clientCertPath clientKeyPath hostIP : string)
: Prog (option error) :=
obtain caPriv <- call (GenerateKey P256)
orelse Errorf "failed to generate CA private key: " ;;
notBefore <- call Now ;;
now <- call Now ;;
let caTemplate := caTemplate notBefore now hostIP in
obtain caCertDER <- call (CreateCertificate caTemplate caTemplate
           (PublicKey_ caPriv) caPriv)
orelse Errorf "failed to create CA certificate: " ;;
attempt writePEMFile caCertPath "CERTIFICATE" caCertDER
orelse Errorf "failed to write CA certificate: " ;;
obtain caPrivBytes <- call (MarshalECPrivateKey caPriv)
orelse Errorf "failed to marshal CA private key: " ;;
attempt writePEMFile caKeyPath "EC PRIVATE KEY" caPrivBytes
orelse Errorf "failed to write CA private key: " ;;
obtain clientPriv <- call (GenerateKey P256)
orelse Errorf "failed to generate client private key: " ;;
notBefore <- call Now ;;
now <- call Now ;;
let clientTemplate := clientTemplate 2 notBefore now hostIP in
obtain clientCertDER <- call (CreateCertificate clientTemplate caTemplate
               (PublicKey_ clientPriv) caPriv)
orelse Errorf "failed to create client certificate: " ;;
attempt writePEMFile clientCertPath "CERTIFICATE" clientCertDER
orelse Errorf "failed to write client certificate: " ;;
obtain clientPrivBytes <- call (MarshalECPrivateKey clientPriv)
orelse Errorf "failed to marshal client private key: " ;;
attempt writePEMFile clientKeyPath "EC PRIVATE KEY" clientPrivBytes
orelse Errorf "failed to write client private key: " ;;
_ <- call (Print ("CA and client certificates generated successfully:" ++ nl
      ++ "- CA Cert: " ++ caCertPath ++ nl
      ++ "- Client Cert: " ++ clientCertPath ++ nl)) ;;
Ret None.

(** [pem.Decode(data)], the block alone. *)
Definition pemDecode (data : list byte) : option Pem.Block :=
fst (Pem.Decode data).

(** GenerateClientCert creates a client certificate and private key
signed by the provided CA.  The two files are closed, last
opened first, when the function returns. *)
Definition GenerateClientCert
(caCertPath caKeyPath clientCertPath clientKeyPath hostIP : string)
: Prog (option error) :=
obtain caCertPEM <- call (ReadFile caCertPath)
orelse Errorf "failed to read CA certificate: " ;;
match pemDecode caCertPEM with
| None => Ret (Some (New "failed to decode CA certificate PEM"))
| Some caCertBlock =>
obtain caCert <- call (ParseCertificate (Pem.Bytes caCertBlock))
orelse Errorf "failed to parse CA certificate: " ;;
obtain caKeyPEM <- call (ReadFile caKeyPath)
orelse Errorf "failed to read CA private key: " ;;
match pemDecode caKeyPEM with
| None => Ret (Some (New "failed to decode CA private key PEM"))
| Some caKeyBlock =>
obtain caKey <- call (ParseECPrivateKey (Pem.Bytes caKeyBlock))
orelse Errorf "failed to parse CA private key: " ;;
obtain clientKey <- call (GenerateKey P256)
orelse Errorf "failed to generate client private key: " ;;
serial <- call Now ;;
notBefore <- call Now ;;
now <- call Now ;;
let clientCertTemplate :=
clientTemplate (Unix serial) notBefore now hostIP in
obtain clientCertDER <- call (CreateCertificate clientCertTemplate caCert
               (PublicKey_ clientKey) caKey)
orelse Errorf "failed to create client certificate: " ;;
obtain clientCertFile <- call (Create clientCertPath)
orelse Errorf "failed to create client certificate file: " ;;
defer (call (Close clientCertFile)) (
attempt call (Write clientCertFile (Pem.Encode "CERTIFICATE" clientCertDER))
orelse Errorf "failed to encode client certificate to PEM: " ;;
obtain clientKeyBytes <- call (MarshalECPrivateKey clientKey)
orelse Errorf "failed to marshal client private key: " ;;
obtain clientKeyFile <- call (Create clientKeyPath)
orelse Errorf "failed to create client private key file: " ;;
defer (call (Close clientKeyFile)) (
attempt call (Write clientKeyFile (Pem.Encode "EC PRIVATE KEY" clientKeyBytes))
orelse Errorf "failed to encode client private key to PEM: " ;;
_ <- call (Print ("Client certificate and key generated at: "
      ++ clientCertPath ++ ", " ++ clientKeyPath ++ nl)) ;;
Ret None))
end
end.

(** GenerateSelfSignedCAInVolume generates a self-signed CA, client
certificate, and client key with SAN, and stores them in a Docker
volume. *)
Definition GenerateSelfSignedCAInVolume (volumeName volumeCertDir hostIP : string)
: Prog (option error) :=
obtain tempDir <- call (MkdirTemp "" "kube-apiserver-certs")
orelse Errorf "failed to create temporary directory: " ;;
defer (call (RemoveAll tempDir)) (
let caCertPath := Join tempDir "ca.crt" in
let caKeyPath := Join tempDir "ca.key" in
let clientCertPath := Join tempDir "client.crt" in
let clientKeyPath := Join tempDir "client.key" in
_ <- call (Print ("Generating self-signed CA and client certificates..." ++ nl)) ;;
attempt GenerateSelfSignedCAWithSAN caCertPath caKeyPath clientCertPath
clientKeyPath hostIP
orelse Errorf "failed to generate self-signed CA and client certificates: " ;;
_ <- call (Print ("Copying certificates and keys into Docker volume: "
      ++ volumeName ++ "..." ++ nl)) ;;
attempt call (Run ["docker"; "run"; "--rm";
 "-v"; volumeName ++ ":" ++ volumeCertDir;
 "-v"; tempDir ++ ":/tmp/certs";
 "alpine"; "sh"; "-c"; "cp /tmp/certs/* /certs/"])
orelse Errorf "failed to copy certificates and keys into Docker volume: " ;;
_ <- call (Print ("Certificates and keys successfully stored in Docker volume."
      ++ nl)) ;;
Ret None).

(** The command line that starts the API server container. *)
Definition kubeAPIServerCommand
(etcdEndpoint containerName volumeName volumeCertDir
encryptionConfigPath caCertPath caKeyPath : string) : list string :=
["docker"; "run"; "-d"; "--name"; containerName;
"--network"; "host";
"-v"; volumeName ++ ":" ++ volumeCertDir;
"-v"; encryptionConfigPath ++ ":/etc/kubernetes/encryption-config.json";
"k8s.gcr.io/kube-apiserver:v1.27.1";
"/usr/local/bin/kube-apiserver";
"--etcd-servers=" ++ etcdEndpoint;
"--service-cluster-ip-range=10.96.0.0/12";
"--allow-privileged=true";
"--anonymous-auth=true";
"--advertise-address=0.0.0.0";
"--service-account-signing-key-file=" ++ caKeyPath;
"--service-account-issuer=https://kubernetes.default.svc.cluster.local";
"--service-account-key-file=" ++ caCertPath;
"--tls-cert-file=" ++ caCertPath;
"--tls-private-key-file=" ++ caKeyPath;
"--client-ca-file=" ++ caCertPath;
"--tls-cert-file=" ++ caCertPath;
"--tls-private-key-file=" ++ caKeyPath;
"--v=2"].

(** StartKubeAPIServer starts a kube-apiserver using the specified
etcd endpoint and Docker volume for certificates.  ([outputDir]
is not used by the function.) *)
Definition StartKubeAPIServer
(etcdEndpoint containerName volumeName hostIP outputDir : string)
: Prog (option error) :=
_ <- call (Print ("Removing existing kube-apiserver container: "
      ++ containerName ++ " (if running)..." ++ nl)) ;;
_ <- call (Run ["docker"; "rm"; "-f"; containerName]) ;;
if (etcdEndpoint =? "")%string then
Ret (Some (New "etcd endpoint is required to start kube-apiserver"))
else
_ <- call (Print ("Creating Docker volume for certificates: "
      ++ volumeName ++ "..." ++ nl)) ;;
attempt call (Run ["docker"; "volume"; "create"; volumeName])
orelse Errorf "failed to create Docker volume: " ;;
let volumeCertDir := "/certs" in
let caCertPath := Join volumeCertDir "ca.crt" in
let caKeyPath := Join volumeCertDir "ca.key" in
_ <- call (Print ("Generating certificates and keys in Docker volume..." ++ nl)) ;;
attempt GenerateSelfSignedCAInVolume volumeName volumeCertDir hostIP
orelse Errorf "error generating self-signed CA: " ;;
let encryptionConfigPath := "./encryption-config.json" in
err <- call (Stat encryptionConfigPath) ;;
if IsNotExist err then
Ret (Some (New ("encryption configuration file not found at "
      ++ encryptionConfigPath)))
else
_ <- call (Print ("Starting kube-apiserver container: "
      ++ containerName ++ "..." ++ nl)) ;;
attempt call (Run (kubeAPIServerCommand etcdEndpoint containerName volumeName
   volumeCertDir encryptionConfigPath caCertPath caKeyPath))
orelse Errorf "failed to start kube-apiserver: " ;;
_ <- call (Print ("Kube-apiserver started successfully and is listening on port 8080."
      ++ nl)) ;;
Ret None.

End WithParseIP.

(** copyFileFromContainer copies a file from a Docker container to a
local path. *)
Definition copyFileFromContainer (containerName containerPath localPath : string)
: Prog (option error) :=
attempt call (Run ["docker"; "cp"; containerName ++ ":" ++ containerPath; localPath])
orelse Errorf "failed to copy file from container: " ;;
Ret None.

Definition kubeconfigTemplate : string := "
apiVersion: v1
kind: Config
clusters:
- cluster:
    server: {{ .ServerURL }}
    certificate-authority-data: {{ .CACertData }}
  name: kubernetes
contexts:
- context:
    cluster: kubernetes
    user: admin
  name: kubernetes
current-context: kubernetes
users:
- name: admin
  user:
    client-certificate-data: {{ .ClientCertData }}
    client-key-data: {{ .ClientKeyData }}
".

(** The anonymous struct handed to the template. *)
Record kubeconfigData := {
ServerURL : string;
CACertData : string;
ClientCertData : string;
ClientKeyData : string
}.

Definition field (data : kubeconfigData) (ident : string) : option string :=
if (ident =? "ServerURL")%string then Some (ServerURL data)
else if (ident =? "CACertData")%string then Some (CACertData data)
else if (ident =? "ClientCertData")%string then Some (ClientCertData data)
else if (ident =? "ClientKeyData")%string then Some (ClientKeyData data)
else None.

(** GenerateKubeconfig creates a kubeconfig file using certs copied
from the kube-apiserver container.  The writes of the template
execution on the file are one [Write] of the whole document. *)
Definition GenerateKubeconfig (kubeconfigPath serverURL containerName : string)
: Prog (option error) :=
obtain tempDir <- call (MkdirTemp "" "kubeconfig-certs")
orelse Errorf "failed to create temporary directory: " ;;
defer (call (RemoveAll tempDir)) (
let caCertContainerPath := "/certs/ca.crt" in
let clientCertContainerPath := "/certs/client.crt" in
let clientKeyContainerPath := "/certs/client.key" in
let caCertLocalPath := Join tempDir "ca.crt" in
let clientCertLocalPath := Join tempDir "client.crt" in
let clientKeyLocalPath := Join tempDir "client.key" in
attempt copyFileFromContainer containerName caCertContainerPath caCertLocalPath
orelse Errorf "failed to copy CA certificate from container: " ;;
attempt copyFileFromContainer containerName clientCertContainerPath clientCertLocalPath
orelse Errorf "failed to copy client certificate from container: " ;;
attempt copyFileFromContainer containerName clientKeyContainerPath clientKeyLocalPath
orelse Errorf "failed to copy client key from container: " ;;
obtain caCertBytes <- call (ReadFile caCertLocalPath)
orelse Errorf "failed to read CA certificate: " ;;
obtain clientCertBytes <- call (ReadFile clientCertLocalPath)
orelse Errorf "failed to read client certificate: " ;;
obtain clientKeyBytes <- call (ReadFile clientKeyLocalPath)
orelse Errorf "failed to read client key: " ;;
let data :=
{| ServerURL := serverURL;
CACertData := Base64.EncodeToString caCertBytes;
ClientCertData := Base64.EncodeToString clientCertBytes;
ClientKeyData := Base64.EncodeToString clientKeyBytes |} in
obtain file <- call (Create kubeconfigPath)
orelse Errorf "failed to create kubeconfig file: " ;;
defer (call (Close file)) (
match Template.Parse kubeconfigTemplate with
| None =>
Ret (Some (New "failed to parse kubeconfig template: template: kubeconfig"))
| Some tmpl =>
match Template.Execute tmpl (field data) with
| None =>
  Ret (Some (New "failed to write kubeconfig file: template: kubeconfig"))
| Some document =>
  attempt call (Write file (list_byte_of_string document))
    orelse Errorf "failed to write kubeconfig file: " ;;
  _ <- call (Print ("Kubeconfig generated at: " ++ kubeconfigPath ++ nl)) ;;
  Ret None
end
end)).

End Etcd.

(** ** Reading a trace *)

Module Trace.

Import Go.

(** The arguments of one x509.CreateCertificate call.  By the contract
of that function the certificate it makes has the subject of
[template], names the subject of [parent] as its issuer, holds the
public key [pub] and is signed with [priv]. *)
Record Call := {
template : Certificate;
parent : Certificate;
pub : PublicKey;
priv : PrivateKey
}.

Definition subject (c : Call) : Name := Subject (template c).
Definition issuer (c : Call) : Name := Subject (parent c).

(** The x509.CreateCertificate calls of a trace, in order. *)
Definition certificateCalls (tr : trace) : list Call :=
flat_map (fun ev =>
match ev with
| Ev e _ =>
match e with
| CreateCertificate t p k s =>
    [{| template := t; parent := p; pub := k; priv := s |}]
| _ => []
end
end) tr.

(** The readings of the clock, in order. *)
Definition clockReadings (tr : trace) : list Time :=
flat_map (fun ev =>
match ev with
| Ev e x =>
match e in Eff X return X -> list Time with
| Now => fun t => [t]
| _ => fun _ => []
end x
end) tr.

(** The command lines run, in order. *)
Definition commands (tr : trace) : list (list string) :=
flat_map (fun ev =>
match ev with
| Ev e _ => match e with Run argv => [argv] | _ => [] end
end) tr.

(** The files the program asked to create, in order. *)
Definition created (tr : trace) : list string :=
flat_map (fun ev =>
match ev with
| Ev e _ => match e with Create name => [name] | _ => [] end
end) tr.

(** What the program wrote to files, in order. *)
Definition written (tr : trace) : list (File * list byte) :=
flat_map (fun ev =>
match ev with
| Ev e _ => match e with Write f data => [(f, data)] | _ => [] end
end) tr.

(** The keys the program asked for, in order. *)
Definition keysGenerated (tr : trace) : nat :=
List.length (filter (fun ev =>
match ev with
| Ev e _ => match e with GenerateKey _ => true | _ => false end
end) tr).

Definition isError (r : option error) : bool :=
match r with Some _ => true | None => false end.

Definition isLeft {A B} (r : A + B) : bool :=
match r with inl _ => true | inr _ => false end.

(** The environment answered with an error. *)
Definition failed (ev : Event) : bool :=
match ev with
| Ev e x =>
match e in Eff X return X -> bool with
| Print _ => fun _ => false
| Run _ => isError
| Stat _ => isError
| MkdirTemp _ _ => isLeft
| RemoveAll _ => isError
| Create _ => isLeft
| Write _ _ => isError
| Close _ => isError
| ReadFile _ => isLeft
| Now => fun _ => false
| GenerateKey _ => isLeft
| CreateCertificate _ _ _ _ => isLeft
| MarshalECPrivateKey _ => isLeft
| ParseCertificate _ => isLeft
| ParseECPrivateKey _ => isLeft
end x
end.

(** No question of the trace was answered with an error. *)
Definition allSucceeded (tr : trace) : bool := forallb (fun ev => negb (failed ev)) tr.

(** A [docker cp] out of a container, or the reading of a file, that
failed. *)
Definition retrievalFailed (ev : Event) : bool :=
match ev with
| Ev e x =>
match e in Eff X return X -> bool with
| Run ("docker" :: "cp" :: _)%string => isError
| ReadFile _ => isLeft
| _ => fun _ => false
end x
end.

(** The side effects on the outside: commands run, files and
directories made or removed, files written, keys and certificates
made.  Printing, reading the clock, os.Stat and the reading of
files are left out. *)
Definition sideEffect (ev : Event) : bool :=
match ev with
| Ev e _ =>
match e with
| Run _ | MkdirTemp _ _ | RemoveAll _ | Create _ | Write _ _
| GenerateKey _ | CreateCertificate _ _ _ _ => true
| _ => false
end
end.

(** The events before the first os.Stat of [name]. *)
Fixpoint beforeStat (name : string) (tr : trace) : trace :=
match tr with
| [] => []
| ev :: tr' =>
match ev with
| Ev e _ =>
  match e with
  | Stat n => if (n =? name)%string then [] else ev :: beforeStat name tr'
  | _ => ev :: beforeStat name tr'
  end
end
end.

End Trace.

(** ** A simulated environment

    A small deterministic operating system, used to run the program on
    concrete inputs: a clock that advances at each reading, a counter
    for keys, local files, the files of the containers, and the command
    lines that fail. *)

Module Sim.

Import Go.
Local Open Scope string_scope.

Record World := {
clock : Time;
tick : Z;
keys : Z;
files : list (string * list byte);
handles : list (File * string);
containerFiles : list (string * list byte);
broken : list (list string)
}.

Fixpoint lookup {V} (k : string) (m : list (string * V)) : option V :=
match m with
| [] => None
| (k', v) :: m' => if (k' =? k)%string then Some v else lookup k m'
end.

Definition remove {V} (k : string) (m : list (string * V)) : list (string * V) :=
filter (fun kv => negb (fst kv =? k)%string) m.

Definition lookupHandle (f : File) (h : list (File * string)) : option string :=
match find (fun fp => Nat.eqb (fst fp) f) h with
| Some fp => Some (snd fp)
| None => None
end.

Definition setFiles (w : World) (fs : list (string * list byte)) : World :=
{| clock := clock w; tick := tick w; keys := keys w; files := fs;
handles := handles w; containerFiles := containerFiles w;
broken := broken w |}.

Definition noSuchFile (op name : string) : error :=
mkError true (op ++ " " ++ name ++ ": no such file or directory").

Definition exitStatus1 : error := New "exit status 1".

Definition runCommand (argv : list string) (w : World) : option error * World :=
if existsb (fun b => if list_eq_dec string_dec b argv then true else false)
(broken w)
then (Some exitStatus1, w)
else
match argv with
| ["docker"; "cp"; source; target] =>
match lookup source (containerFiles w) with
| Some data => (None, setFiles w ((target, data) :: remove target (files w)))
| None => (Some exitStatus1, w)
end
| _ => (None, w)
end.

Definition handle (X : Type) (e : Eff X) (w : World) : X * World :=
match e in Eff X return X * World with
| Print _ => (tt, w)
| Run argv => runCommand argv w
| Stat name =>
(match lookup name (files w) with
| Some _ => None
| None => Some (noSuchFile "stat" name)
end, w)
| MkdirTemp _ pattern => (inr ("/tmp/" ++ pattern ++ "0001"), w)
| RemoveAll path =>
(None, setFiles w (filter (fun kv => negb (prefix path (fst kv))) (files w)))
| Create name =>
let f := List.length (handles w) in
(inr f,
{| clock := clock w; tick := tick w; keys := keys w;
  files := (name, []) :: remove name (files w);
  handles := (f, name) :: handles w;
  containerFiles := containerFiles w; broken := broken w |})
| Write f data =>
match lookupHandle f (handles w) with
| Some name =>
  let old := match lookup name (files w) with Some d => d | None => [] end in
  (None, setFiles w ((name, (old ++ data)%list) :: remove name (files w)))
| None => (Some (New "file already closed"), w)
end
| Close _ => (None, w)
| ReadFile name =>
(match lookup name (files w) with
| Some data => inr data
| None => inl (noSuchFile "open" name)
end, w)
| Now =>
(clock w,
{| clock := clock w + tick w; tick := tick w; keys := keys w;
  files := files w; handles := handles w;
  containerFiles := containerFiles w; broken := broken w |})
| GenerateKey c =>
(inr {| PublicKey_ := {| Curve_ := c; X := 2 * keys w; Y := 2 * keys w + 1 |};
      D := keys w |},
{| clock := clock w; tick := tick w; keys := keys w + 1;
  files := files w; handles := handles w;
  containerFiles := containerFiles w; broken := broken w |})
| CreateCertificate t _ _ _ =>
(inr (list_byte_of_string (CommonName (Subject t))
      ++ [Bytes.of_Z (SerialNumber t)])%list, w)
| MarshalECPrivateKey key => (inr [Bytes.of_Z (D key)], w)
| ParseCertificate der =>
(inr {| SerialNumber := 1;
      Subject := {| Organization := ["Kubernetes"];
                    CommonName := string_of_list_byte (removelast der) |};
      NotBefore := 0; NotAfter := 0; KeyUsage := 0; ExtKeyUsage_ := [];
      BasicConstraintsValid := true; IsCA := true; IPAddresses := [] |}, w)
| ParseECPrivateKey der =>
let d := match der with b :: _ => Bytes.to_Z b | [] => 0 end in
(inr {| PublicKey_ := {| Curve_ := P256; X := 2 * d; Y := 2 * d + 1 |};
      D := d |}, w)
end.

(** A dotted-decimal reading of IPv4 addresses, in the sixteen-byte
form net.ParseIP returns; anything else is nil.  It stands for
net.ParseIP in the runs below. *)
Fixpoint octets (s : string) (cur : option Z) (acc : list Z) : option (list Z) :=
match s with
| EmptyString =>
match cur with Some n => Some (acc ++ [n])%list | None => None end
| String c s' =>
if (c =? ".")%char then
match cur with
| Some n => octets s' None (acc ++ [n])%list
| None => None
end
else
let d := Z.of_nat (nat_of_ascii c) - 48 in
if ((0 <=? d)%Z && (d <=? 9)%Z)%bool then
  match cur with
  | None => octets s' (Some d) acc
  | Some 0 => None
  | Some n => if (10 * n + d <=? 255)%Z then octets s' (Some (10 * n + d)) acc
              else None
  end
else None
end.

Definition ParseIP (s : string) : IP :=
match octets s None [] with
| Some [a; b; c; d] =>
(repeat x00 10 ++ [xff; xff] ++ map Bytes.of_Z [a; b; c; d])%list
| _ => []
end.

(** A fresh machine at the given time, whose clock gains [tick]
nanoseconds at each reading. *)
Definition boot (now tick : Z) : World :=
{| clock := now; tick := tick; keys := 7; files := []; handles := [];
containerFiles := []; broken := [] |}.

(** The same machine some time later. *)
Definition later (w : World) (d : Z) : World :=
{| clock := clock w + d; tick := tick w; keys := keys w; files := files w;
handles := handles w; containerFiles := containerFiles w;
broken := broken w |}.

(** A machine that holds a CA certificate and its key in PEM files. *)
Definition withCA (w : World) (caCertPath caKeyPath : string) : World :=
setFiles w [(caCertPath, Pem.Encode "CERTIFICATE" (Bytes.lit "Kubernetes CA."));
      (caKeyPath, Pem.Encode "EC PRIVATE KEY" [x07])].

(** A machine in whose working directory the encryption configuration
lies. *)
Definition withConfig (w : World) : World :=
setFiles w (("./encryption-config.json", Bytes.lit "{}") :: files w).

(** A machine beside a running API server container that holds the
given files. *)
Definition beside (container : list (string * list byte)) : World :=
{| clock := 1700000000000000000; tick := 1000; keys := 7; files := [];
handles := []; containerFiles := container; broken := [] |}.

Definition caPEM : list byte := Pem.Encode "CERTIFICATE" (Bytes.lit "ca-der").
Definition clientPEM : list byte := Pem.Encode "CERTIFICATE" (Bytes.lit "client-der").
Definition keyPEM : list byte := Pem.Encode "EC PRIVATE KEY" (Bytes.lit "key-der").

(** The container [kube-apiserver] with its three client-facing files,
and the same without the client key. *)
Definition apiServer : World :=
beside [("kube-apiserver:/certs/ca.crt", caPEM);
  ("kube-apiserver:/certs/client.crt", clientPEM);
  ("kube-apiserver:/certs/client.key", keyPEM)].

Definition apiServerWithoutKey : World :=
beside [("kube-apiserver:/certs/ca.crt", caPEM);
  ("kube-apiserver:/certs/client.crt", clientPEM)].

End Sim.

(** ** The vocabulary of the properties *)

Module Props.

Import Go Trace.
Local Open Scope string_scope.

(** A self-signed CA call: the template is its own parent, it is a CA
template, and the signing key is the key whose public half the
certificate holds. *)
Definition selfSignedCA (ca : Call) : Prop :=
parent ca = template ca /\ issuer ca = subject ca
/\ IsCA (template ca) = true /\ pub ca = PublicKey_ (priv ca).

(** A leaf call under the CA call [ca]. *)
Definition signedBy (ca leaf : Call) : Prop :=
parent leaf = template ca /\ issuer leaf = subject ca /\ priv leaf = priv ca.

(** The certificate calls of an issuance, as far as it got. *)
Definition chain (calls : list Call) : Prop :=
match calls with
| [] => True
| [ca] => selfSignedCA ca
| [ca; leaf] => selfSignedCA ca /\ signedBy ca leaf
| _ => False
end.

Definition serials (tr : trace) : list Z :=
map (fun c => SerialNumber (template c)) (certificateCalls tr).

Definition commonNames (tr : trace) : list string :=
map (fun c => CommonName (subject c)) (certificateCalls tr).

Definition sans (tr : trace) : list (list IP) :=
map (fun c => IPAddresses (template c)) (certificateCalls tr).

(** 365 days, as a time.Duration. *)
Definition year : Z := 365 * 24 * Hour.

(** [NotAfter - NotBefore] of the templates, less 365 days. *)
Definition windowExcess (tr : trace) : list Z :=
map (fun c => NotAfter (template c) - NotBefore (template c) - year)
(certificateCalls tr).

(** The time between one reading of the clock and the next. *)
Fixpoint gaps (l : list Time) : list Z :=
match l with
| a :: (b :: _) as l' => (b - a) :: gaps l'
| _ => []
end.

(** The time between the first and the second reading, between the
third and the fourth, and so on. *)
Fixpoint pairGaps (l : list Time) : list Z :=
match l with
| a :: b :: l' => (b - a) :: pairGaps l'
| _ => []
end.

(** [l] is the beginning of [full]. *)
Definition startOf {A} (l full : list A) : Prop :=
l = firstn (List.length l) full.

(** The three artifacts of the kubeconfig. *)
Definition artifacts : list string :=
["CA certificate"; "client certificate"; "client key"].

(** The errors GenerateKubeconfig returns when an artifact cannot be
had from the container. *)
Definition artifactUnavailable (e : error) : Prop :=
exists what cause,
In what artifacts
/\ (e = Errorf ("failed to copy " ++ what ++ " from container: ")
      (Errorf "failed to copy file from container: " cause)
\/ e = Errorf ("failed to read " ++ what ++ ": ") cause).

(** The kubeconfig document, field by field. *)
Definition kubeconfigDocument (server ca cert key : string) : string :=
nl ++ "apiVersion: v1" ++ nl
++ "kind: Config" ++ nl
++ "clusters:" ++ nl
++ "- cluster:" ++ nl
++ "    server: " ++ server ++ nl
++ "    certificate-authority-data: " ++ ca ++ nl
++ "  name: kubernetes" ++ nl
++ "contexts:" ++ nl
++ "- context:" ++ nl
++ "    cluster: kubernetes" ++ nl
++ "    user: admin" ++ nl
++ "  name: kubernetes" ++ nl
++ "current-context: kubernetes" ++ nl
++ "users:" ++ nl
++ "- name: admin" ++ nl
++ "  user:" ++ nl
++ "    client-certificate-data: " ++ cert ++ nl
++ "    client-key-data: " ++ key ++ nl.

(** The events of a kubeconfig materialization in which no step
failed: the three artifacts are copied out of the container and
read, the document is created and written.  [closed] and [removed]
are the answers to the two deferred calls. *)
Definition materialized (kubeconfigPath serverURL containerName tempDir : string)
(file : File) (ca cert key : list byte) (caData certData keyData : string)
(closed removed : option error) : trace :=
[Ev (MkdirTemp "" "kubeconfig-certs") (inr tempDir);
Ev (Run ["docker"; "cp"; containerName ++ ":" ++ "/certs/ca.crt";
    Etcd.Join tempDir "ca.crt"]) None;
Ev (Run ["docker"; "cp"; containerName ++ ":" ++ "/certs/client.crt";
    Etcd.Join tempDir "client.crt"]) None;
Ev (Run ["docker"; "cp"; containerName ++ ":" ++ "/certs/client.key";
    Etcd.Join tempDir "client.key"]) None;
Ev (ReadFile (Etcd.Join tempDir "ca.crt")) (inr ca);
Ev (ReadFile (Etcd.Join tempDir "client.crt")) (inr cert);
Ev (ReadFile (Etcd.Join tempDir "client.key")) (inr key);
Ev (Create kubeconfigPath) (inr file);
Ev (Write file (list_byte_of_string
             (kubeconfigDocument serverURL caData certData keyData))) None;
Ev (Print ("Kubeconfig generated at: " ++ kubeconfigPath ++ nl)) tt;
Ev (Close file) closed;
Ev (RemoveAll tempDir) removed].

(** The command line of the helper container that copies the
certificates into the volume. *)
Definition copyCommand (volumeName tempDir : string) : list string :=
["docker"; "run"; "--rm"; "-v"; volumeName ++ ":" ++ "/certs";
"-v"; tempDir ++ ":/tmp/certs"; "alpine"; "sh"; "-c"; "cp /tmp/certs/* /certs/"].

(** The four files of an issuance in the directory [tempDir]. *)
Definition issuedFiles (tempDir : string) : list string :=
[Etcd.Join tempDir "ca.crt"; Etcd.Join tempDir "ca.key";
Etcd.Join tempDir "client.crt"; Etcd.Join tempDir "client.key"].

(** The error of StartKubeAPIServer for a missing encryption
configuration, and the path it looks at. *)
Definition encryptionConfigPath : string := "./encryption-config.json".

Definition configNotFound : error :=
New ("encryption configuration file not found at " ++ encryptionConfigPath).

(** The error of RestoreEtcdSnapshot for a missing snapshot. *)
Definition snapshotNotFound (snapshotPath : string) : error :=
New ("snapshot file not found: " ++ snapshotPath).

(** The flags by which the API server is given its TLS certificate,
its client CA, its service-account keys and its TLS key. *)
Definition servesWithCA (argv : list string) : Prop :=
In "--tls-cert-file=/certs/ca.crt" argv
/\ In "--client-ca-file=/certs/ca.crt" argv
/\ In "--service-account-key-file=/certs/ca.crt" argv
/\ In "--tls-private-key-file=/certs/ca.key" argv
/\ In "--service-account-signing-key-file=/certs/ca.key" argv.

(** The command line starts a detached container. *)
Definition startsServer (argv : list string) : bool :=
match argv with
| "docker" :: "run" :: "-d" :: _ => true
| _ => false
end.

End Props.

(** ** More of a trace: the answers to commands and to os.Stat, the
    files opened and closed, what was read and parsed *)

Module Outcome.

Import Go.

(** The command lines run, each with the answer of its [Run]. *)
Definition ran (tr : trace) : list (list string * option error) :=
  flat_map (fun ev =>
    match ev with
    | Ev e x =>
        match e in Eff X return X -> list (list string * option error) with
        | Run argv => fun r => [(argv, r)]
        | _ => fun _ => []
        end x
    end) tr.

(** The command lines that failed. *)
Definition failedCommands (tr : trace) : list (list string) :=
  flat_map (fun ar =>
    match snd ar with
    | Some _ => [fst ar]
    | None => []
    end) (ran tr).

(** The names os.Stat was asked about, each with the answer. *)
Definition stats (tr : trace) : list (string * option error) :=
  flat_map (fun ev =>
    match ev with
    | Ev e x =>
        match e in Eff X return X -> list (string * option error) with
        | Stat name => fun r => [(name, r)]
        | _ => fun _ => []
        end x
    end) tr.

(** The files os.Create gave, in order. *)
Definition opened (tr : trace) : list File :=
  flat_map (fun ev =>
    match ev with
    | Ev e x =>
        match e in Eff X return X -> list File with
        | Create _ => fun r => match r with inr f => [f] | inl _ => [] end
        | _ => fun _ => []
        end x
    end) tr.

(** The files closed, in order. *)
Definition closed (tr : trace) : list File :=
  flat_map (fun ev =>
    match ev with
    | Ev e _ => match e with Close f => [f] | _ => [] end
    end) tr.

(** The paths handed to os.RemoveAll, in order. *)
Definition removed (tr : trace) : list string :=
  flat_map (fun ev =>
    match ev with
    | Ev e _ => match e with RemoveAll path => [path] | _ => [] end
    end) tr.

(** The files read, each with its content. *)
Definition filesRead (tr : trace) : list (string * list byte) :=
  flat_map (fun ev =>
    match ev with
    | Ev e x =>
        match e in Eff X return X -> list (string * list byte) with
        | ReadFile name =>
            fun r => match r with inr data => [(name, data)] | inl _ => [] end
        | _ => fun _ => []
        end x
    end) tr.

(** The byte sequences handed to x509.ParseCertificate and to
    x509.ParseECPrivateKey, in order. *)
Definition certificatesToParse (tr : trace) : list (list byte) :=
  flat_map (fun ev =>
    match ev with
    | Ev e _ => match e with ParseCertificate der => [der] | _ => [] end
    end) tr.

Definition keysToParse (tr : trace) : list (list byte) :=
  flat_map (fun ev =>
    match ev with
    | Ev e _ => match e with ParseECPrivateKey der => [der] | _ => [] end
    end) tr.

(** The certificates and the keys the parsers gave. *)
Definition certificatesParsed (tr : trace) : list Certificate :=
  flat_map (fun ev =>
    match ev with
    | Ev e x =>
        match e in Eff X return X -> list Certificate with
        | ParseCertificate _ =>
            fun r => match r with inr c => [c] | inl _ => [] end
        | _ => fun _ => []
        end x
    end) tr.

Definition keysParsed (tr : trace) : list PrivateKey :=
  flat_map (fun ev =>
    match ev with
    | Ev e x =>
        match e in Eff X return X -> list PrivateKey with
        | ParseECPrivateKey _ =>
            fun r => match r with inr k => [k] | inl _ => [] end
        | _ => fun _ => []
        end x
    end) tr.

(** The keys ecdsa.GenerateKey gave. *)
Definition keysMade (tr : trace) : list PrivateKey :=
  flat_map (fun ev =>
    match ev with
    | Ev e x =>
        match e in Eff X return X -> list PrivateKey with
        | GenerateKey _ =>
            fun r => match r with inr k => [k] | inl _ => [] end
        | _ => fun _ => []
        end x
    end) tr.

(** The certificates x509.CreateCertificate gave, in DER. *)
Definition issued (tr : trace) : list (list byte) :=
  flat_map (fun ev =>
    match ev with
    | Ev e x =>
        match e in Eff X return X -> list (list byte) with
        | CreateCertificate _ _ _ _ =>
            fun r => match r with inr der => [der] | inl _ => [] end
        | _ => fun _ => []
        end x
    end) tr.

(** The event is the closing of a file. *)
Definition isClose (ev : Event) : bool :=
  match ev with
  | Ev e _ => match e with Close _ => true | _ => false end
  end.

(** The event is the removal of a directory tree. *)
Definition isRemoveAll (ev : Event) : bool :=
  match ev with
  | Ev e _ => match e with RemoveAll _ => true | _ => false end
  end.

(** os.Stat answered that a file does not exist. *)
Definition foundMissing (tr : trace) : bool :=
  existsb (fun na => IsNotExist (snd na)) (stats tr).

(** A function that works in a temporary directory of its own: either
    the directory could not be made and nothing else happened, or it
    was made, [inside] holds of the directory and of the events that
    follow, and the last event is the removal of the directory. *)
Definition inTemporaryDirectory (pattern : string) (r : option error)
  (tr : trace) (inside : string -> trace -> Prop) : Prop :=
  (exists e,
     tr = [Ev (MkdirTemp "" pattern) (inl e)]
     /\ r = Some (Errorf "failed to create temporary directory: " e))
  \/ (exists tempDir body answer,
        tr = Ev (MkdirTemp "" pattern) (inr tempDir)
             :: body ++ [Ev (RemoveAll tempDir) answer]
        /\ removed body = []
        /\ inside tempDir body).

(** A template of a certificate authority: a CA with valid basic
    constraints that may sign certificates. *)
Definition authority (c : Certificate) : Prop :=
  IsCA c = true /\ BasicConstraintsValid c = true
  /\ Z.testbit (KeyUsage c) 5 = true.

(** A template of a client certificate: no CA, no right to sign
    certificates, and client authentication as its one extended use. *)
Definition clientLeaf (c : Certificate) : Prop :=
  IsCA c = false /\ Z.testbit (KeyUsage c) 5 = false
  /\ ExtKeyUsage_ c = [ExtKeyUsageClientAuth].

(** The templates of an issuance, as far as it got: an authority, then
    a client certificate. *)
Definition roles (calls : list Trace.Call) : Prop :=
  match calls with
  | [] => True
  | [ca] => authority (Trace.template ca)
  | [ca; leaf] => authority (Trace.template ca) /\ clientLeaf (Trace.template leaf)
  | _ => False
  end.

(** No question of the trace was answered with an error, the closing
    of files and the removal of directories apart. *)
Definition succeededButCleanup (tr : trace) : bool :=
  forallb (fun ev => negb (Trace.failed ev) || isClose ev || isRemoveAll ev) tr.

End Outcome.

(** ** The command lines and the errors of the properties *)

Module Docker.

Import Go.
Local Open Scope string_scope.

Definition pullCommand : list string :=
  ["docker"; "pull"; "quay.io/coreos/etcd:v3.5.7"].

Definition removeContainer (containerName : string) : list string :=
  ["docker"; "rm"; "-f"; containerName].

Definition removeVolume (volumeName : string) : list string :=
  ["docker"; "volume"; "rm"; volumeName].

Definition createVolume (volumeName : string) : list string :=
  ["docker"; "volume"; "create"; volumeName].

(** The command line of the container that restores the snapshot. *)
Definition restoreCommand (snapshotPath containerName volumeName : string)
  : list string :=
  ["docker"; "run"; "--rm"; "--name"; containerName;
   "-v"; snapshotPath ++ ":/snapshot.db";
   "-v"; volumeName ++ ":/etcd-data";
   "quay.io/coreos/etcd:v3.5.7";
   "/usr/local/bin/etcdutl"; "snapshot"; "restore";
   "/snapshot.db"; "--data-dir=/etcd-data"].

(** The command lines of a restore, in order. *)
Definition restoreCommands (snapshotPath containerName volumeName : string)
  : list (list string) :=
  [pullCommand; removeContainer containerName; removeVolume volumeName;
   createVolume volumeName;
   restoreCommand snapshotPath containerName volumeName].

(** The command line of the helper container that copies the
    certificates to [/certs/], with the volume at [volumeCertDir]. *)
Definition copyInto (volumeName volumeCertDir tempDir : string) : list string :=
  ["docker"; "run"; "--rm"; "-v"; volumeName ++ ":" ++ volumeCertDir;
   "-v"; tempDir ++ ":/tmp/certs"; "alpine"; "sh"; "-c"; "cp /tmp/certs/* /certs/"].

(** The three copies out of the API server container into [tempDir]. *)
Definition copies (containerName tempDir : string) : list (list string) :=
  [["docker"; "cp"; containerName ++ ":" ++ "/certs/ca.crt";
    Etcd.Join tempDir "ca.crt"];
   ["docker"; "cp"; containerName ++ ":" ++ "/certs/client.crt";
    Etcd.Join tempDir "client.crt"];
   ["docker"; "cp"; containerName ++ ":" ++ "/certs/client.key";
    Etcd.Join tempDir "client.key"]].

(** The error of StartKubeAPIServer for an empty endpoint. *)
Definition endpointRequired : error :=
  New "etcd endpoint is required to start kube-apiserver".

(** The block type and the bytes come back from their PEM text: the
    type holds no line feed and nowhere the mark [-----BEGIN ], and no
    colon when there are no bytes. *)
Definition readable (blockType : string) (der : list byte) : Prop :=
  Bytes.mem x0a (Bytes.lit blockType) = false
  /\ Bytes.Index (Bytes.lit blockType) (Bytes.lit "-----BEGIN ") = None
  /\ (der <> [] \/ Bytes.mem x3a (Bytes.lit blockType) = false).

End Docker.

(** ** Package etcd, cleanup.go *)

Module Cleanup.

Import Go.
Local Open Scope string_scope.
Local Open Scope go_scope.

(** CleanupEtcd removes the etcd Docker container and any temporary
    resources created during the restore process. *)
Definition CleanupEtcd (containerName : string) : Prog (option error) :=
  _ <- call (Print ("Stopping and removing etcd container: "
                    ++ containerName ++ "..." ++ nl)) ;;
  attempt call (Run ["docker"; "rm"; "-f"; containerName])
    orelse Errorf ("failed to clean up etcd container " ++ containerName ++ ": ") ;;
  _ <- call (Print ("Etcd container cleaned up successfully." ++ nl)) ;;
  Ret None.

(** CleanupKubeAPIServer removes the kube-apiserver Docker container. *)
Definition CleanupKubeAPIServer (containerName : string) : Prog (option error) :=
  _ <- call (Print ("Stopping and removing kube-apiserver container: "
                    ++ containerName ++ "..." ++ nl)) ;;
  attempt call (Run ["docker"; "rm"; "-f"; containerName])
    orelse Errorf ("failed to clean up kube-apiserver container "
                   ++ containerName ++ ": ") ;;
  _ <- call (Print ("Kube-apiserver container cleaned up successfully." ++ nl)) ;;
  Ret None.

(** CleanupVolume removes a specified Docker volume. *)
Definition CleanupVolume (volumeName : string) : Prog (option error) :=
  _ <- call (Print ("Removing Docker volume: " ++ volumeName ++ "..." ++ nl)) ;;
  attempt call (Run ["docker"; "volume"; "rm"; volumeName])
    orelse Errorf ("failed to clean up Docker volume " ++ volumeName ++ ": ") ;;
  _ <- call (Print ("Docker volume cleaned up successfully." ++ nl)) ;;
  Ret None.

End Cleanup.

(** ** strings.Fields and strings.Join

    Go's [strings] package is not among the sources.  [Fields] follows
    the package's [FieldsFunc] with [unicode.IsSpace], over the runes a
    [range] over the string yields; the package's shorter way for
    strings of ASCII alone gives the same fields and is not modelled
    apart. *)

Module Strings.

Local Open Scope string_scope.
Local Open Scope Z_scope.

(** [s[i]] as a number. *)
Definition code (c : ascii) : Z := Z.of_nat (nat_of_ascii c).

Definition RuneSelf : Z := 0x80.
Definition runeError : Z := 0xFFFD.
Definition maxRune : Z := 0x10FFFF.
Definition surrogateMin : Z := 0xD800.
Definition surrogateMax : Z := 0xDFFF.
Definition t2 : Z := 0xC0.
Definition t3 : Z := 0xE0.
Definition t4 : Z := 0xF0.
Definition t5 : Z := 0xF8.
Definition maskx : Z := 0x3F.
Definition mask2 : Z := 0x1F.
Definition mask3 : Z := 0x0F.
Definition mask4 : Z := 0x07.
Definition rune1Max : Z := Z.shiftl 1 7 - 1.
Definition rune2Max : Z := Z.shiftl 1 11 - 1.
Definition rune3Max : Z := Z.shiftl 1 16 - 1.
Definition locb : Z := 0x80.
Definition hicb : Z := 0xBF.

(** A continuation byte. *)
Definition cont (c : ascii) : bool := (locb <=? code c) && (code c <=? hicb).

(** [decoderune] of the runtime, at the head of [s]: the rune and the
    number of bytes it takes; a sequence that is not the encoding of a
    rune is [runeError] on one byte. *)
Definition decoderune (s : string) : Z * nat :=
  match s with
  | String c0 (String c1 rest) =>
      let s0 := code c0 in
      let s1 := code c1 in
      if (t2 <=? s0) && (s0 <? t3) then
        if cont c1 then
          let r := Z.lor (Z.shiftl (Z.land s0 mask2) 6) (Z.land s1 maskx) in
          if rune1Max <? r then (r, 2%nat) else (runeError, 1%nat)
        else (runeError, 1%nat)
      else if (t3 <=? s0) && (s0 <? t4) then
        match rest with
        | String c2 _ =>
            let s2 := code c2 in
            if cont c1 && cont c2 then
              let r := Z.lor (Z.lor (Z.shiftl (Z.land s0 mask3) 12)
                                    (Z.shiftl (Z.land s1 maskx) 6))
                             (Z.land s2 maskx) in
              if (rune2Max <? r)
                 && negb ((surrogateMin <=? r) && (r <=? surrogateMax))
              then (r, 3%nat) else (runeError, 1%nat)
            else (runeError, 1%nat)
        | EmptyString => (runeError, 1%nat)
        end
      else if (t4 <=? s0) && (s0 <? t5) then
        match rest with
        | String c2 (String c3 _) =>
            let s2 := code c2 in
            let s3 := code c3 in
            if cont c1 && cont c2 && cont c3 then
              let r := Z.lor (Z.lor (Z.lor (Z.shiftl (Z.land s0 mask4) 18)
                                           (Z.shiftl (Z.land s1 maskx) 12))
                                    (Z.shiftl (Z.land s2 maskx) 6))
                             (Z.land s3 maskx) in
              if (rune3Max <? r) && (r <=? maxRune)
              then (r, 4%nat) else (runeError, 1%nat)
            else (runeError, 1%nat)
        | _ => (runeError, 1%nat)
        end
      else (runeError, 1%nat)
  | _ => (runeError, 1%nat)
  end.

(** The rune at the head of [s] in a [range] over a string: a byte
    below [RuneSelf] is the rune, anything else is decoded. *)
Definition rangeRune (s : string) : Z * nat :=
  match s with
  | String c _ => if code c <? RuneSelf then (code c, 1%nat) else decoderune s
  | EmptyString => (runeError, 1%nat)
  end.

(** The runes with the Unicode property White_Space above Latin-1. *)
Definition White_Space : list (Z * Z) :=
  [(0x1680, 0x1680); (0x2000, 0x200a); (0x2028, 0x2029);
   (0x202f, 0x202f); (0x205f, 0x205f); (0x3000, 0x3000)].

(** unicode.IsSpace *)
Definition IsSpace (r : Z) : bool :=
  if r <=? 0xFF then
    match r with
    | 9 | 10 | 11 | 12 | 13 | 32 | 0x85 | 0xA0 => true
    | _ => false
    end
  else existsb (fun lh => (fst lh <=? r) && (r <=? snd lh)) White_Space.

(** [s[lo:hi]] *)
Definition slice (s : string) (lo hi : Z) : string :=
  substring (Z.to_nat lo) (Z.to_nat (hi - lo)) s.

(** The loop of FieldsFunc, [for end, rune := range s]: [rest] is the
    string from [end_] on, [skip] counts the bytes of the current rune
    that are still to pass, [start] is the start of the current field
    or negative, [spans] are the fields found. *)
Fixpoint rangeLoop (f : Z -> bool) (rest : string) (skip : nat)
  (end_ start : Z) (spans : list (Z * Z)) : Z * list (Z * Z) :=
  match rest with
  | EmptyString => (start, spans)
  | String _ rest' =>
      match skip with
      | S skip' => rangeLoop f rest' skip' (end_ + 1) start spans
      | O =>
          let '(rune, width) := rangeRune rest in
          if f rune then
            if 0 <=? start then
              rangeLoop f rest' (width - 1) (end_ + 1) (Z.lnot start)
                (spans ++ [(start, end_)])%list
            else rangeLoop f rest' (width - 1) (end_ + 1) start spans
          else
            if start <? 0 then
              rangeLoop f rest' (width - 1) (end_ + 1) end_ spans
            else rangeLoop f rest' (width - 1) (end_ + 1) start spans
      end
  end.

(** strings.FieldsFunc *)
Definition FieldsFunc (s : string) (f : Z -> bool) : list string :=
  let '(start, spans) := rangeLoop f s 0 0 (-1) [] in
  let spans :=
    if 0 <=? start then (spans ++ [(start, Z.of_nat (String.length s))])%list
    else spans in
  map (fun span => slice s (fst span) (snd span)) spans.

(** strings.Fields *)
Definition Fields (s : string) : list string := FieldsFunc s IsSpace.

(** The six white-space characters of ASCII. *)
Definition asciiSpace (c : ascii) : bool :=
  match code c with
  | 9 | 10 | 11 | 12 | 13 | 32 => true
  | _ => false
  end.

(** strings.Join *)
Fixpoint joinRest (elems : list string) (sep : string) : string :=
  match elems with
  | [] => ""
  | s :: elems' => sep ++ s ++ joinRest elems' sep
  end.

Definition Join (elems : list string) (sep : string) : string :=
  match elems with
  | [] => ""
  | [s] => s
  | s :: elems' => s ++ joinRest elems' sep
  end.

(** The bytes of [s] from [a] up to [b] hold no ASCII white space. *)
Definition clean (s : string) (a b : Z) : Prop :=
  forall k c, a <= k < b -> get (Z.to_nat k) s = Some c -> asciiSpace c = false.

(** A span of FieldsFunc that is not empty, lies in the string and
    holds no ASCII white space. *)
Definition good (s : string) (span : Z * Z) : Prop :=
  0 <= fst span < snd span /\ snd span <= Z.of_nat (String.length s)
  /\ clean s (fst span) (snd span).

(** A field is not empty and holds no white space of ASCII. *)
Definition field (f : string) : Prop :=
  f <> "" /\ Forall (fun c => asciiSpace c = false) (list_ascii_of_string f).

(** A word: bytes of ASCII that are no white space. *)
Definition word (f : string) : bool :=
  forallb (fun c => (code c <? RuneSelf) && negb (asciiSpace c))
    (list_ascii_of_string f).

(** Nothing but white space of ASCII. *)
Definition blank (s : string) : bool :=
  forallb asciiSpace (list_ascii_of_string s).

End Strings.

(** ** Commands whose output the program reads

    [getHostIPAddress] and [StartEtcdServer] read what a command
    prints.  Their effects are those of [Go.Eff] and two more: a
    command run with its standard output in a buffer, and a command
    run for its combined output. *)

Module Exec.

Inductive Eff : Type -> Type :=
| Basic {X : Type} (e : Go.Eff X) : Eff X
| RunStdout (argv : list string) : Eff (string * option Go.error)
    (* cmd.Stdout = &stdout; cmd.Run(); stdout.String() *)
| CombinedOutput (argv : list string) : Eff (string * option Go.error).
    (* cmd.CombinedOutput() *)

Inductive Prog (A : Type) : Type :=
| Ret (a : A)
| Vis {X : Type} (e : Eff X) (k : X -> Prog A).
Arguments Ret {A} a.
Arguments Vis {A X} e k.

Fixpoint bind {A B} (p : Prog A) (k : A -> Prog B) : Prog B :=
  match p with
  | Ret a => k a
  | Vis e h => Vis e (fun x => bind (h x) k)
  end.

Definition call {X} (e : Eff X) : Prog X := Vis e Ret.

Inductive Event : Type := Ev : forall X : Type, Eff X -> X -> Event.
Arguments Ev {X} e x.

Definition trace := list Event.

Section Run.
Context {St : Type}.
Variable handle : forall X, Eff X -> St -> X * St.

Fixpoint run {A} (p : Prog A) (s : St) : A * trace * St :=
  match p with
  | Ret a => (a, [], s)
  | Vis e k =>
      let '(x, s1) := handle _ e s in
      let '(a, tr, s2) := run (k x) s1 in
      (a, Ev e x :: tr, s2)
  end.

Definition result {A} (p : Prog A) (s : St) : A := fst (fst (run p s)).
Definition events {A} (p : Prog A) (s : St) : trace := snd (fst (run p s)).
End Run.

(** [always p Q]: [Q] holds of the result and the events of [p]
    whatever the environment answers. *)
Fixpoint always {A} (p : Prog A) (Q : A -> trace -> Prop) : Prop :=
  match p with
  | Ret a => Q a []
  | Vis e k => forall x, always (k x) (fun a tr => Q a (Ev e x :: tr))
  end.

(** The command lines started, in order: those run, and those run for
    their combined output. *)
Definition commands (tr : trace) : list (list string) :=
  flat_map (fun ev =>
    match ev with
    | Ev e _ =>
        match e with
        | Basic e' => match e' with Go.Run argv => [argv] | _ => [] end
        | RunStdout _ => []
        | CombinedOutput argv => [argv]
        end
    end) tr.

(** The command lines run for their standard output, each with what
    it printed and the answer. *)
Definition queries (tr : trace) : list (list string * (string * option Go.error)) :=
  flat_map (fun ev =>
    match ev with
    | Ev e x =>
        match e in Eff X return X -> list (list string * (string * option Go.error)) with
        | RunStdout argv => fun r => [(argv, r)]
        | _ => fun _ => []
        end x
    end) tr.

(** The command lines that failed, however they were run. *)
Definition failures (tr : trace) : list (list string) :=
  flat_map (fun ev =>
    match ev with
    | Ev e x =>
        match e in Eff X return X -> list (list string) with
        | Basic e' =>
            match e' in Go.Eff X return X -> list (list string) with
            | Go.Run argv =>
                fun r => match r with Some _ => [argv] | None => [] end
            | _ => fun _ => []
            end
        | RunStdout argv | CombinedOutput argv =>
            fun r => match snd r with Some _ => [argv] | None => [] end
        end x
    end) tr.

End Exec.

Declare Scope exec_scope.
Delimit Scope exec_scope with exec.
Notation "x <- p ;; k" := (Exec.bind p (fun x => k))
  (at level 61, p at next level, right associativity) : exec_scope.

(** ** Package etcd: the etcd server *)

Module EtcdServer.

Import Go.
Local Open Scope string_scope.
Local Open Scope exec_scope.

(** The command line that asks for the addresses of the host. *)
Definition hostname : list string := ["hostname"; "-I"].

(** getHostIPAddress retrieves the primary IP address of the host. *)
Definition getHostIPAddress : Exec.Prog (string * option error) :=
  r <- Exec.call (Exec.RunStdout hostname) ;;
  let '(stdout, err) := r in
  match err with
  | Some err =>
      Exec.Ret ("", Some (Errorf "failed to execute hostname -I: " err))
  | None =>
      let ipAddresses := Strings.Fields stdout in
      match ipAddresses with
      | [] => Exec.Ret ("", Some (New "no IP addresses found in hostname -I output"))
      | ip :: _ => Exec.Ret (ip, None)
      end
  end.

(** The command line that starts the etcd container. *)
Definition etcdCommand (volumeName containerName advertiseURLs : string)
  : list string :=
  ["docker"; "run"; "-d"; "--name"; containerName;
   "--network"; "host";
   "-v"; volumeName ++ ":/etcd-data";
   "quay.io/coreos/etcd:v3.5.7";
   "/usr/local/bin/etcd"; "--name=restored-etcd";
   "--data-dir=/etcd-data";
   "--advertise-client-urls=" ++ advertiseURLs;
   "--listen-client-urls=http://0.0.0.0:2379";
   "--listen-peer-urls=http://0.0.0.0:2380"].

(** The command line that removes the container. *)
Definition etcdRemove (containerName : string) : list string :=
  ["docker"; "rm"; "-f"; containerName].

(** The value of the flag [--advertise-client-urls] for a host address. *)
Definition advertise (hostIP : string) : string :=
  "http://127.0.0.1:2379,http://" ++ hostIP ++ ":2379".

(** StartEtcdServer starts an etcd server using the specified Docker
    volume and host networking. *)
Definition StartEtcdServer (volumeName containerName : string)
  : Exec.Prog (string * option error) :=
  r <- getHostIPAddress ;;
  let '(hostIP, err) := r in
  match err with
  | Some err =>
      Exec.Ret ("", Some (Errorf "failed to resolve host IP address: " err))
  | None =>
      let advertiseURLs := advertise hostIP in
      _ <- Exec.call (Exec.Basic (Print ("Removing existing etcd container: "
                                         ++ containerName ++ " (if running)..." ++ nl))) ;;
      _ <- Exec.call (Exec.Basic (Run ["docker"; "rm"; "-f"; containerName])) ;;
      _ <- Exec.call (Exec.Basic (Print ("Starting etcd server using Docker volume: "
                                         ++ volumeName ++ "..." ++ nl))) ;;
      let args := etcdCommand volumeName containerName advertiseURLs in
      _ <- Exec.call (Exec.Basic (Print ("Executing command: "
                                         ++ Strings.Join args " " ++ nl))) ;;
      r <- Exec.call (Exec.CombinedOutput args) ;;
      let '(output, err) := r in
      _ <- Exec.call (Exec.Basic (Print ("Command output:" ++ nl ++ output ++ nl))) ;;
      match err with
      | Some err =>
          Exec.Ret ("", Some (Errorf "failed to start etcd server: " err))
      | None =>
          _ <- Exec.call (Exec.Basic
                 (Print ("Etcd server started successfully and is listening on host ports."
                         ++ nl))) ;;
          Exec.Ret (hostIP, None)
      end
  end.

End EtcdServer.

(** ** More machines for the simulated environment *)

Module Machines.

Import Go.
Local Open Scope string_scope.

(** The machine [w] on which the given command lines fail. *)
Definition breaking (w : Sim.World) (argvs : list (list string)) : Sim.World :=
  {| Sim.clock := Sim.clock w; Sim.tick := Sim.tick w; Sim.keys := Sim.keys w;
     Sim.files := Sim.files w; Sim.handles := Sim.handles w;
     Sim.containerFiles := Sim.containerFiles w;
     Sim.broken := argvs ++ Sim.broken w |}.

(** The machine [w] with one more local file. *)
Definition holding (w : Sim.World) (name : string) (data : list byte) : Sim.World :=
  Sim.setFiles w ((name, data) :: Sim.files w).

(** The simulated machine with a temporary directory whose name is
    not clean: os.MkdirTemp gives a directory under [/tmp/./]. *)
Definition uncleanHandle (X : Type) (e : Eff X) (w : Sim.World) : X * Sim.World :=
  match e in Eff X return X * Sim.World with
  | MkdirTemp _ pattern => (inr ("/tmp/./" ++ pattern ++ "0001"), w)
  | e' => Sim.handle _ e' w
  end.

(** A host: a machine, and what [hostname -I] prints on it. *)
Record Host := {
  world : Sim.World;
  addresses : string
}.

Definition handle (X : Type) (e : Exec.Eff X) (h : Host) : X * Host :=
  match e in Exec.Eff X return X * Host with
  | Exec.Basic e' =>
      let '(x, w) := Sim.handle _ e' (world h) in
      (x, {| world := w; addresses := addresses h |})
  | Exec.RunStdout argv =>
      let '(err, w) := Sim.runCommand argv (world h) in
      (match argv, err with
       | ["hostname"; "-I"], None => (addresses h, None)
       | _, _ => ("", err)
       end, {| world := w; addresses := addresses h |})
  | Exec.CombinedOutput argv =>
      let '(err, w) := Sim.runCommand argv (world h) in
      (match err with
       | None => ("3f5c9d2a71be" ++ nl, None)
       | Some e => ("docker: " ++ Error e ++ nl, Some e)
       end, {| world := w; addresses := addresses h |})
  end.

(** A host with the given answer to [hostname -I]. *)
Definition host (addresses : string) : Host :=
  {| world := Sim.boot 1700000000000000000 1000; addresses := addresses |}.

End Machines.

(* ===================================================================== *)
(** * Part II: lemmas and theorems                                        *)
(* ===================================================================== *)

(** ** Bytes as numbers *)

Module BytesFacts.
Import Bytes.

Lemma to_Z_range b : 0 <= to_Z b < 256.
Proof. unfold to_Z. pose proof (Byte.to_N_bounded b). lia. Qed.

Lemma of_to_Z b : of_Z (to_Z b) = b.
Proof.
unfold of_Z. rewrite Z.mod_small by apply to_Z_range.
unfold to_Z. rewrite N2Z.id, Byte.of_to_N. reflexivity.
Qed.

Lemma of_Z_mod v : of_Z (v mod 256) = of_Z v.
Proof. unfold of_Z. rewrite Z.mod_mod by lia. reflexivity. Qed.

Lemma testbit_small x k n :
0 <= x < 2 ^ k -> 0 <= k <= n -> Z.testbit x n = false.
Proof.
intros Hx Hk. rewrite <- (Z.mod_small x (2 ^ k)) by lia.
apply Z.mod_pow2_bits_high. lia.
Qed.

Lemma to_Z_bit_high b n : 8 <= n -> Z.testbit (to_Z b) n = false.
Proof. intros. apply (testbit_small _ 8); [apply to_Z_range | lia]. Qed.

End BytesFacts.

(** ** base64: decoding inverts encoding, and does not see line ends *)

Module Base64Facts.
Import Bytes BytesFacts Base64.

Lemma sextet_index_range x : 0 <= Z.land x 63 < 64.
Proof.
change 63 with (Z.ones 6). rewrite Z.land_ones by lia.
apply Z.mod_pos_bound. lia.
Qed.

Lemma alphabet_check :
forallb (fun n => let c := encode (Z.of_nat n) in
            (decodeMap c =? Z.of_nat n)
            && negb (is_newline c) && negb (Byte.eqb c padChar))
  (seq 0 64) = true.
Proof. vm_compute. reflexivity. Qed.

Lemma alphabet_facts i :
0 <= i < 64 ->
decodeMap (encode i) = i /\ is_newline (encode i) = false
/\ Byte.eqb (encode i) padChar = false.
Proof.
intros Hi. pose proof alphabet_check as H.
rewrite forallb_forall in H. specialize (H (Z.to_nat i)).
rewrite Z2Nat.id in H by lia.
assert (Hin : In (Z.to_nat i) (seq 0 64)) by (apply in_seq; lia).
apply H in Hin. cbv zeta in Hin.
apply andb_prop in Hin as [Hin H3]. apply andb_prop in Hin as [H1 H2].
apply Z.eqb_eq in H1. apply negb_true_iff in H2, H3. auto.
Qed.

Lemma decodeMap_encode i : 0 <= i < 64 -> decodeMap (encode i) = i.
Proof. intros. apply alphabet_facts; assumption. Qed.

(** One alphabet character read by decodeQuantum. *)
Lemma decodeQuantum_from_symbol j dbuf i rest :
0 <= i < 64 ->
decodeQuantum_from j dbuf (encode i :: rest)
= if (S j =? 4)%nat then (rest, quantumBytes 4 (upd j i dbuf), None)
else decodeQuantum_from (S j) (upd j i dbuf) rest.
Proof.
intros Hi. cbn [decodeQuantum_from]. cbv zeta.
rewrite (decodeMap_encode i Hi).
replace (negb (i =? 255)) with true
by (symmetry; apply negb_true_iff, Z.eqb_neq; lia).
reflexivity.
Qed.

Lemma field_bit v k n :
0 <= k -> 0 <= n ->
Z.testbit (Z.shiftl (Z.land (Z.shiftr v k) 63) k) n
= Z.testbit v n && (k <=? n) && (n <? k + 6).
Proof.
intros Hk Hn. destruct (Z.leb_spec k n) as [Hle | Hlt].
- rewrite Z.shiftl_spec by lia. rewrite Z.land_spec, Z.shiftr_spec by lia.
replace (n - k + k) with n by lia.
change 63 with (Z.ones 6).
destruct (Z.ltb_spec n (k + 6)).
+ rewrite Z.ones_spec_low by lia. rewrite !andb_true_r. reflexivity.
+ rewrite Z.ones_spec_high by lia. rewrite !andb_false_r. reflexivity.
- rewrite Z.shiftl_spec by lia. rewrite Z.testbit_neg_r by lia.
rewrite andb_false_r. reflexivity.
Qed.

(** The four sextets of a 24-bit value put it together again. *)
Lemma regroup v :
0 <= v < 2 ^ 24 ->
Z.lor (Z.lor (Z.lor (Z.shiftl (Z.land (Z.shiftr v 18) 63) 18)
              (Z.shiftl (Z.land (Z.shiftr v 12) 63) 12))
       (Z.shiftl (Z.land (Z.shiftr v 6) 63) 6))
(Z.land (Z.shiftr v 0) 63) = v.
Proof.
intros Hv. apply Z.bits_inj'. intros n Hn.
rewrite <- (Z.shiftl_0_r (Z.land (Z.shiftr v 0) 63)).
rewrite !Z.lor_spec, !field_bit by lia.
destruct (Z.ltb_spec n 24) as [Hlt | Hge].
- destruct (Z.testbit v n); [ | reflexivity]. cbn [andb].
destruct (Z.leb_spec 18 n), (Z.leb_spec 12 n), (Z.leb_spec 6 n),
(Z.leb_spec 0 n), (Z.ltb_spec n (18 + 6)), (Z.ltb_spec n (12 + 6)),
(Z.ltb_spec n (6 + 6)), (Z.ltb_spec n (0 + 6)); try reflexivity; lia.
- rewrite (testbit_small v 24 n) by lia. reflexivity.
Qed.

Lemma shiftl_bit x k n :
0 <= k -> 0 <= n ->
Z.testbit (Z.shiftl x k) n = if k <=? n then Z.testbit x (n - k) else false.
Proof.
intros Hk Hn. rewrite Z.shiftl_spec by lia.
destruct (Z.leb_spec k n); [reflexivity | apply Z.testbit_neg_r; lia].
Qed.

Lemma group_bit a b c n :
0 <= n ->
Z.testbit (group a b c) n
= (if 16 <=? n then Z.testbit (to_Z a) (n - 16) else false)
|| (if 8 <=? n then Z.testbit (to_Z b) (n - 8) else false)
|| Z.testbit (to_Z c) n.
Proof.
intros Hn. unfold group. rewrite !Z.lor_spec, !shiftl_bit by lia.
reflexivity.
Qed.

Lemma group_range a b c : 0 <= group a b c < 2 ^ 24.
Proof.
assert (Hnn : 0 <= group a b c).
{ unfold group. pose proof (to_Z_range a). pose proof (to_Z_range b).
pose proof (to_Z_range c).
rewrite !Z.lor_nonneg, !Z.shiftl_nonneg. lia. }
split; [assumption | ].
destruct (Z.eq_dec (group a b c) 0) as [-> | Hne]; [reflexivity | ].
apply Z.log2_lt_pow2; [lia | ].
destruct (Z.lt_ge_cases (Z.log2 (group a b c)) 24) as [ | Hge]; [assumption | ].
exfalso. pose proof (Z.bit_log2 (group a b c) ltac:(lia)) as Hbit.
rewrite group_bit in Hbit by lia.
rewrite !to_Z_bit_high in Hbit by lia.
destruct (16 <=? Z.log2 (group a b c)), (8 <=? Z.log2 (group a b c));
discriminate.
Qed.

Lemma byte_of_bits x (b : byte) :
(forall n, 0 <= n < 8 -> Z.testbit x n = Z.testbit (to_Z b) n) ->
of_Z x = b.
Proof.
intros H. rewrite <- of_Z_mod, <- (of_to_Z b). f_equal.
change 256 with (2 ^ 8). rewrite <- Z.land_ones by lia.
apply Z.bits_inj'. intros n Hn. rewrite Z.land_spec.
destruct (Z.ltb_spec n 8).
- rewrite Z.ones_spec_low by lia. rewrite andb_true_r. apply H. lia.
- rewrite Z.ones_spec_high by lia. rewrite andb_false_r.
symmetry. apply to_Z_bit_high. lia.
Qed.

Lemma group_byte0 a b c : of_Z (Z.shiftr (group a b c) 16) = a.
Proof.
apply byte_of_bits. intros n Hn. rewrite Z.shiftr_spec by lia.
rewrite group_bit by lia.
replace (16 <=? n + 16) with true by (symmetry; apply Z.leb_le; lia).
replace (8 <=? n + 16) with true by (symmetry; apply Z.leb_le; lia).
rewrite (to_Z_bit_high b), (to_Z_bit_high c) by lia.
rewrite !orb_false_r. f_equal. lia.
Qed.

Lemma group_byte1 a b c : of_Z (Z.shiftr (group a b c) 8) = b.
Proof.
apply byte_of_bits. intros n Hn. rewrite Z.shiftr_spec by lia.
rewrite group_bit by lia.
replace (16 <=? n + 8) with false by (symmetry; apply Z.leb_gt; lia).
replace (8 <=? n + 8) with true by (symmetry; apply Z.leb_le; lia).
rewrite (to_Z_bit_high c) by lia.
rewrite orb_false_r. cbn [orb]. f_equal. lia.
Qed.

Lemma group_byte2 a b c : of_Z (Z.shiftr (group a b c) 0) = c.
Proof.
apply byte_of_bits. intros n Hn. rewrite Z.shiftr_spec by lia.
rewrite group_bit by lia.
replace (16 <=? n + 0) with false by (symmetry; apply Z.leb_gt; lia).
replace (8 <=? n + 0) with false by (symmetry; apply Z.leb_gt; lia).
cbn [orb]. f_equal. lia.
Qed.

(** The bytes decodeQuantum rebuilds from the sextets of a group. *)
Lemma quantumBytes_group dlen a b c :
quantumBytes dlen
[Z.land (Z.shiftr (group a b c) 18) 63; Z.land (Z.shiftr (group a b c) 12) 63;
Z.land (Z.shiftr (group a b c) 6) 63; Z.land (Z.shiftr (group a b c) 0) 63]
= firstn (dlen - 1) [a; b; c].
Proof.
unfold quantumBytes. cbn [nth].
rewrite (regroup _ (group_range a b c)).
rewrite group_byte0, group_byte1, group_byte2. reflexivity.
Qed.


Lemma to_Z_x00 : to_Z x00 = 0.
Proof. reflexivity. Qed.

Lemma low_bits_pad2 a b : Z.land (Z.shiftr (group a b x00) 0) 63 = 0.
Proof.
apply Z.bits_inj'. intros n Hn.
rewrite Z.land_spec, Z.shiftr_spec, group_bit, to_Z_x00 by lia.
rewrite !Z.bits_0. change 63 with (Z.ones 6).
destruct (Z.ltb_spec n 6).
- replace (16 <=? n + 0) with false by (symmetry; apply Z.leb_gt; lia).
replace (8 <=? n + 0) with false by (symmetry; apply Z.leb_gt; lia).
reflexivity.
- rewrite Z.ones_spec_high by lia. apply andb_false_r.
Qed.

Lemma low_bits_pad1 a k :
0 <= k <= 6 -> Z.land (Z.shiftr (group a x00 x00) k) 63 = 0.
Proof.
intros Hk. apply Z.bits_inj'. intros n Hn.
rewrite Z.land_spec, Z.shiftr_spec, group_bit, to_Z_x00 by lia.
rewrite !Z.bits_0. change 63 with (Z.ones 6).
destruct (8 <=? n + k); rewrite ?orb_false_r.
- destruct (Z.ltb_spec n 6).
+ replace (16 <=? n + k) with false by (symmetry; apply Z.leb_gt; lia).
reflexivity.
+ rewrite Z.ones_spec_high by lia. apply andb_false_r.
- destruct (Z.ltb_spec n 6).
+ replace (16 <=? n + k) with false by (symmetry; apply Z.leb_gt; lia).
reflexivity.
+ rewrite Z.ones_spec_high by lia. apply andb_false_r.
Qed.

(** A whole group of three bytes is read back by one decodeQuantum. *)
Lemma decodeQuantum_group a b c rest :
let val := group a b c in
decodeQuantum (sextet val 18 :: sextet val 12 :: sextet val 6
           :: sextet val 0 :: rest)
= (rest, [a; b; c], None).
Proof.
intros val. unfold decodeQuantum, sextet.
rewrite !decodeQuantum_from_symbol by apply sextet_index_range.
cbn [Nat.eqb upd]. unfold val. rewrite quantumBytes_group. reflexivity.
Qed.

Lemma decodeQuantum_from_pad3 dbuf :
decodeQuantum_from 3 dbuf [padChar] = ([], quantumBytes 3 dbuf, None).
Proof. reflexivity. Qed.

Lemma decodeQuantum_from_pad2 dbuf :
decodeQuantum_from 2 dbuf [padChar; padChar] = ([], quantumBytes 2 dbuf, None).
Proof. reflexivity. Qed.

Lemma decodeQuantum_pad2 a b :
let val := group a b x00 in
decodeQuantum [sextet val 18; sextet val 12; sextet val 6; padChar]
= ([], [a; b], None).
Proof.
intros val. unfold decodeQuantum, sextet.
rewrite !decodeQuantum_from_symbol by apply sextet_index_range.
cbn [Nat.eqb upd]. rewrite decodeQuantum_from_pad3. unfold val.
rewrite <- (low_bits_pad2 a b) at 1.
rewrite quantumBytes_group. reflexivity.
Qed.

Lemma decodeQuantum_pad1 a :
let val := group a x00 x00 in
decodeQuantum [sextet val 18; sextet val 12; padChar; padChar]
= ([], [a], None).
Proof.
intros val. unfold decodeQuantum, sextet.
rewrite !decodeQuantum_from_symbol by apply sextet_index_range.
cbn [Nat.eqb upd]. rewrite decodeQuantum_from_pad2. unfold val.
replace [Z.land (Z.shiftr (group a x00 x00) 18) 63;
   Z.land (Z.shiftr (group a x00 x00) 12) 63; 0; 0]
with [Z.land (Z.shiftr (group a x00 x00) 18) 63;
  Z.land (Z.shiftr (group a x00 x00) 12) 63;
  Z.land (Z.shiftr (group a x00 x00) 6) 63;
  Z.land (Z.shiftr (group a x00 x00) 0) 63]
by (rewrite (low_bits_pad1 a 6), (low_bits_pad1 a 0) by lia; reflexivity).
rewrite quantumBytes_group. reflexivity.
Qed.

Lemma Decode_loop_nil fuel acc : Decode_loop fuel [] acc = (acc, None).
Proof. destruct fuel; reflexivity. Qed.

Lemma Decode_loop_Encode n :
forall bs fuel acc,
(List.length bs <= n)%nat -> (List.length bs <= fuel)%nat ->
Decode_loop fuel (Encode bs) acc = (acc ++ bs, None).
Proof.
induction n as [n IH] using lt_wf_ind. intros bs fuel acc Hn Hfuel.
destruct bs as [ | a [ | b [ | c rest]]].
- cbn [Encode]. rewrite Decode_loop_nil, app_nil_r. reflexivity.
- destruct fuel as [ | fuel]; [cbn in Hfuel; lia | ].
cbn [Encode Decode_loop]. rewrite decodeQuantum_pad1. apply Decode_loop_nil.
- destruct fuel as [ | fuel]; [cbn in Hfuel; lia | ].
cbn [Encode Decode_loop]. rewrite decodeQuantum_pad2. apply Decode_loop_nil.
- destruct fuel as [ | fuel]; [cbn in Hfuel; lia | ].
cbn [Encode Decode_loop]. rewrite decodeQuantum_group.
cbn [List.length] in Hn, Hfuel.
rewrite (IH (List.length rest)) by lia.
rewrite <- app_assoc. reflexivity.
Qed.

Lemma Encode_length_ge n :
forall bs, (List.length bs <= n)%nat ->
     (List.length bs <= List.length (Encode bs))%nat.
Proof.
induction n as [n IH] using lt_wf_ind. intros bs Hn.
destruct bs as [ | a [ | b [ | c rest]]]; cbn [Encode List.length]; try lia.
cbn [List.length] in Hn.
specialize (IH (List.length rest) ltac:(lia) rest ltac:(lia)). lia.
Qed.

(** base64 round trip: decoding the encoding gives the bytes back. *)
Lemma Decode_Encode bs : Decode (Encode bs) = (bs, None).
Proof.
unfold Decode.
apply (Decode_loop_Encode (List.length bs) bs _ []); [lia | ].
apply (Encode_length_ge (List.length bs)). lia.
Qed.

Lemma DecodeString_EncodeToString bs :
DecodeString (EncodeToString bs) = (bs, None).
Proof.
unfold DecodeString, EncodeToString.
rewrite list_byte_of_string_of_list_byte. apply Decode_Encode.
Qed.

Lemma decodeMap_newline c : is_newline c = true -> decodeMap c = 255.
Proof.
unfold is_newline. intros H. apply orb_prop in H as [H | H];
apply Byte.byte_dec_bl in H; subst c; reflexivity.
Qed.

Lemma symbol_not_newline c :
negb (decodeMap c =? 255) = true -> is_newline c = false.
Proof.
intros H. destruct (is_newline c) eqn:E; [ | reflexivity].
rewrite (decodeMap_newline c E) in H. discriminate.
Qed.

Lemma skipNewlines_cases s :
(skipNewlines s = [] /\ stripNewlines s = [])
\/ (exists p r, skipNewlines s = p :: r /\ is_newline p = false
          /\ stripNewlines s = p :: stripNewlines r).
Proof.
induction s as [ | c s IH]; [left; split; reflexivity | ].
cbn [skipNewlines stripNewlines filter].
destruct (is_newline c) eqn:E; cbn [negb].
- exact IH.
- right. exists c, s. repeat split; assumption.
Qed.

Lemma skipNewlines_stripped s : skipNewlines (stripNewlines s) = stripNewlines s.
Proof.
induction s as [ | c s IH]; [reflexivity | ].
cbn [stripNewlines filter]. destruct (is_newline c) eqn:E; cbn [negb].
- exact IH.
- cbn [skipNewlines]. rewrite E. reflexivity.
Qed.

Lemma strip_skipNewlines s : stripNewlines (skipNewlines s) = stripNewlines s.
Proof.
induction s as [ | c s IH]; [reflexivity | ].
cbn [skipNewlines stripNewlines filter].
destruct (is_newline c) eqn:E; cbn [negb].
- exact IH.
- cbn [filter]. rewrite E. reflexivity.
Qed.

Lemma skipNewlines_length s :
(List.length (skipNewlines s) <= List.length s)%nat.
Proof.
induction s as [ | c s IH]; [reflexivity | ].
cbn [skipNewlines]. destruct (is_newline c); cbn [List.length]; lia.
Qed.

(** decodeQuantum reads through line feeds and carriage returns. *)
Lemma decodeQuantum_from_strip src :
forall j dbuf,
decodeQuantum_from j dbuf (stripNewlines src)
= strip_quantum (decodeQuantum_from j dbuf src).
Proof.
induction src as [ | c src IH]; intros j dbuf.
- destruct j; reflexivity.
- cbn [stripNewlines filter].
destruct (negb (decodeMap c =? 255)) eqn:Esym.
+ rewrite (symbol_not_newline c Esym). cbn [negb].
cbn [decodeQuantum_from]. cbv zeta. rewrite Esym.
destruct (S j =? 4)%nat; [reflexivity | ].
apply IH.
+ destruct (is_newline c) eqn:Enl; cbn [negb].
* cbn [decodeQuantum_from]. cbv zeta. rewrite Esym, Enl. apply IH.
* cbn [decodeQuantum_from]. cbv zeta. rewrite Esym, Enl.
destruct (negb (Byte.eqb c padChar)); [reflexivity | ].
destruct j as [ | [ | [ | j]]]; try reflexivity.
-- cbn [Nat.eqb]. fold (stripNewlines src).
   rewrite skipNewlines_stripped.
   destruct (skipNewlines_cases src) as [[E1 E2] | (p & r & E1 & E2 & E3)].
   ++ rewrite E1, E2. cbn [strip_quantum]. rewrite ?E2. reflexivity.
   ++ rewrite E1, E3. destruct (Byte.eqb p padChar);
        [ | cbn [strip_quantum]; rewrite E3; reflexivity].
      rewrite skipNewlines_stripped.
      destruct (skipNewlines_cases r) as [[F1 F2] | (p' & r' & F1 & F2 & F3)].
      ** rewrite F1, F2. reflexivity.
      ** rewrite F1, F3. cbn [strip_quantum].
         rewrite <- F1, strip_skipNewlines, F3. reflexivity.
-- cbn [Nat.eqb]. fold (stripNewlines src).
   rewrite skipNewlines_stripped.
   destruct (skipNewlines_cases src) as [[E1 E2] | (p & r & E1 & E2 & E3)].
   ++ rewrite E1, E2. cbn [strip_quantum]. rewrite ?E2. reflexivity.
   ++ rewrite E1, E3. cbn [strip_quantum].
      rewrite <- E1, strip_skipNewlines, E3. reflexivity.
Qed.

(** decodeQuantum reads at least one byte of a non-empty input. *)
Lemma decodeQuantum_from_rest src :
forall j dbuf,
(List.length (fst (fst (decodeQuantum_from j dbuf src)))
<= List.length src - 1)%nat.
Proof.
induction src as [ | c src IH]; intros j dbuf.
- destruct j; cbn; lia.
- cbn [decodeQuantum_from]. cbv zeta. cbn [List.length].
destruct (negb (decodeMap c =? 255)).
{ destruct (S j =? 4)%nat; [cbn; lia | ].
specialize (IH (S j) (upd j (decodeMap c) dbuf)). lia. }
destruct (is_newline c).
{ specialize (IH j dbuf). lia. }
destruct (negb (Byte.eqb c padChar)); [cbn; lia | ].
destruct j as [ | [ | j]]; try (cbn; lia).
destruct (S (S j) =? 2)%nat.
+ pose proof (skipNewlines_length src) as H1.
destruct (skipNewlines src) as [ | p r]; [cbn; lia | ].
destruct (Byte.eqb p padChar); [ | cbn; lia].
cbn [fst]. pose proof (skipNewlines_length r). cbn [List.length] in H1. lia.
+ cbn [fst]. pose proof (skipNewlines_length src). lia.
Qed.

Lemma Decode_loop_strip fuel1 :
forall fuel2 src acc,
(List.length src <= fuel1)%nat ->
(List.length (stripNewlines src) <= fuel2)%nat ->
Decode_loop fuel1 src acc = Decode_loop fuel2 (stripNewlines src) acc.
Proof.
induction fuel1 as [ | fuel1 IH]; intros fuel2 src acc H1 H2.
- destruct src; [ | cbn in H1; lia]. cbn. rewrite !Decode_loop_nil. reflexivity.
- destruct src as [ | c src]; [cbn; rewrite Decode_loop_nil; reflexivity | ].
cbn [Decode_loop]. unfold decodeQuantum.
pose proof (decodeQuantum_from_strip (c :: src) 0 [0; 0; 0; 0]) as Hs.
pose proof (decodeQuantum_from_rest (c :: src) 0 [0; 0; 0; 0]) as Hr.
pose proof (decodeQuantum_from_rest (stripNewlines (c :: src)) 0 [0; 0; 0; 0]) as Hr'.
destruct (decodeQuantum_from 0 [0; 0; 0; 0] (c :: src)) as [[rest out] err].
cbn [strip_quantum fst] in Hs, Hr. cbn [List.length] in H1, Hr.
destruct (stripNewlines (c :: src)) as [ | c' src'] eqn:Es.
+ cbn in Hs. injection Hs as Hrest Hout Herr. subst out err.
rewrite (IH 0%nat rest (acc ++ [])) by (try rewrite <- Hrest; cbn; lia).
rewrite <- Hrest, !Decode_loop_nil, app_nil_r. reflexivity.
+ destruct fuel2 as [ | fuel2]; [cbn in H2; lia | ].
cbn [Decode_loop]. unfold decodeQuantum. rewrite Hs in *.
cbn [fst List.length] in Hr', H2.
destruct err; [reflexivity | ].
apply IH; lia.
Qed.

(** base64 decoding does not see line feeds and carriage returns. *)
Lemma Decode_stripNewlines src : Decode src = Decode (stripNewlines src).
Proof. unfold Decode. apply Decode_loop_strip; lia. Qed.

(** The rounds allowed to Decode are enough: more of them change
nothing. *)
Lemma base64_Decode_loop_fuel fuel1 :
forall fuel2 src acc,
(List.length src <= fuel1)%nat -> (List.length src <= fuel2)%nat ->
Decode_loop fuel1 src acc = Decode_loop fuel2 src acc.
Proof.
induction fuel1 as [ | fuel1 IH]; intros fuel2 src acc H1 H2.
- destruct src; [ | cbn in H1; lia]. rewrite !Decode_loop_nil. reflexivity.
- destruct src as [ | c src]; [rewrite !Decode_loop_nil; reflexivity | ].
destruct fuel2 as [ | fuel2]; [cbn in H2; lia | ].
cbn [Decode_loop]. unfold decodeQuantum.
pose proof (decodeQuantum_from_rest (c :: src) 0 [0; 0; 0; 0]) as Hr.
destruct (decodeQuantum_from 0 [0; 0; 0; 0] (c :: src)) as [[rest out] err].
cbn [fst List.length] in Hr, H1, H2.
destruct err; [reflexivity | ]. apply IH; lia.
Qed.

End Base64Facts.

(** ** Searching in byte slices *)

Module BytesSearch.
Import Bytes.

Lemma eqb_refl c : Byte.eqb c c = true.
Proof. apply Byte.byte_dec_lb. reflexivity. Qed.

Lemma eqb_neq c d : c <> d -> Byte.eqb c d = false.
Proof.
intros H. destruct (Byte.eqb c d) eqn:E; [ | reflexivity].
apply Byte.byte_dec_bl in E. contradiction.
Qed.

Lemma HasPrefix_app p s : HasPrefix (p ++ s) p = true.
Proof.
induction p as [ | c p IH]; [reflexivity | ].
cbn [HasPrefix app]. rewrite eqb_refl. exact IH.
Qed.

Lemma HasPrefix_refl p : HasPrefix p p = true.
Proof. rewrite <- (app_nil_r p) at 1. apply HasPrefix_app. Qed.

Lemma HasPrefix_head c s p ps :
c <> p -> HasPrefix (c :: s) (p :: ps) = false.
Proof. intros H. cbn [HasPrefix]. rewrite (eqb_neq c p H). reflexivity. Qed.

Lemma HasSuffix_app s p : HasSuffix (s ++ p) p = true.
Proof.
unfold HasSuffix. rewrite length_app.
replace (List.length s + List.length p - List.length p)%nat
with (List.length s + 0)%nat by lia.
rewrite skipn_app, skipn_all2 by lia.
replace (List.length s + 0 - List.length s)%nat with 0%nat by lia.
cbn [skipn app]. rewrite HasPrefix_refl.
replace (List.length p <=? List.length s + List.length p)%nat with true
by (symmetry; apply Nat.leb_le; lia).
reflexivity.
Qed.

Lemma IndexByte_app l c more :
~ In c l -> IndexByte (l ++ c :: more) c = Some (List.length l).
Proof.
induction l as [ | x l IH]; intros Hl.
- cbn. rewrite eqb_refl. reflexivity.
- cbn [IndexByte app List.length]. rewrite eqb_neq.
+ rewrite IH; [reflexivity | ]. intros Hin. apply Hl. right. exact Hin.
+ intros ->. apply Hl. left. reflexivity.
Qed.

Lemma Index_byte_absent s c : ~ In c s -> Index s [c] = None.
Proof.
induction s as [ | x s IH]; intros Hs; [reflexivity | ].
cbn [Index HasPrefix]. rewrite eqb_neq.
- cbn [andb]. rewrite IH; [reflexivity | ].
intros Hin. apply Hs. right. exact Hin.
- intros ->. apply Hs. left. reflexivity.
Qed.

Lemma Cut_byte_absent s c : ~ In c s -> Cut s [c] = (s, [], false).
Proof. intros H. unfold Cut. rewrite Index_byte_absent by assumption. reflexivity. Qed.

Lemma TrimRight_last s c cutset :
mem c cutset = false -> TrimRight (s ++ [c]) cutset = s ++ [c].
Proof.
intros H. unfold TrimRight. rewrite rev_app_distr. cbn [rev app TrimLeft].
rewrite H. cbn [rev]. rewrite rev_involutive. reflexivity.
Qed.

Lemma HasPrefix_length s p :
HasPrefix s p = true -> (List.length p <= List.length s)%nat.
Proof.
revert s. induction p as [ | c p IH]; intros s H; [cbn; lia | ].
destruct s as [ | x s]; [discriminate H | ].
cbn [HasPrefix] in H. apply andb_prop in H as [_ H].
apply IH in H. cbn [List.length]. lia.
Qed.

Lemma Index_length s sep i :
Index s sep = Some i -> (i + List.length sep <= List.length s)%nat.
Proof.
revert i. induction s as [ | x s IH]; intros i H.
- cbn [Index] in H. destruct (HasPrefix [] sep) eqn:E; [ | discriminate H].
injection H as <-. apply HasPrefix_length in E. lia.
- cbn [Index] in H. destruct (HasPrefix (x :: s) sep) eqn:E.
+ injection H as <-. apply HasPrefix_length in E. lia.
+ destruct (Index s sep) as [j | ]; [ | discriminate H].
injection H as <-. specialize (IH j eq_refl). cbn [List.length]. lia.
Qed.

End BytesSearch.

(** ** PEM: what Encode writes, and how Decode reads it *)

Module PemFacts.
Import Bytes BytesFacts BytesSearch Base64 Base64Facts Pem.

Lemma getLine_line l more :
~ In x0a l -> keptEnd l -> getLine (l ++ x0a :: more) = (l, more).
Proof.
intros Hnl Hend. unfold getLine. rewrite IndexByte_app by assumption.
cbv zeta.
replace (skipn (S (List.length l)) (l ++ x0a :: more)) with more.
2:{ replace (S (List.length l)) with (List.length l + 1)%nat by lia.
rewrite skipn_app, skipn_all2 by lia.
replace (List.length l + 1 - List.length l)%nat with 1%nat by lia.
reflexivity. }
destruct Hend as [-> | (l' & c & -> & H1 & H2 & H3)].
- reflexivity.
- assert (Hn : nth (List.length (l' ++ [c]) - 1)
             ((l' ++ [c]) ++ x0a :: more) x00 = c).
{ rewrite length_app. cbn [List.length].
replace (List.length l' + 1 - 1)%nat with (List.length l') by lia.
rewrite <- app_assoc. cbn [app]. apply nth_middle. }
rewrite Hn, (eqb_neq c x0d H1), andb_false_r.
rewrite firstn_app, Nat.sub_diag, firstn_all. cbn [firstn].
rewrite app_nil_r.
rewrite TrimRight_last; [reflexivity | ].
cbn. rewrite (eqb_neq c x20 H2), (eqb_neq c x09 H3). reflexivity.
Qed.

Lemma getLine_snd l more :
~ In x0a l -> snd (getLine (l ++ x0a :: more)) = more.
Proof.
intros Hnl. unfold getLine. rewrite IndexByte_app by assumption.
cbv zeta. cbn [snd].
replace (S (List.length l)) with (List.length l + 1)%nat by lia.
rewrite skipn_app, skipn_all2 by lia.
replace (List.length l + 1 - List.length l)%nat with 1%nat by lia.
reflexivity.
Qed.

(** Base64 text holds none of the bytes the PEM reader looks for. *)
Lemma textb_plain c :
textb c = true ->
c <> x0a /\ c <> x0d /\ c <> x20 /\ c <> x09 /\ c <> x2d /\ c <> x3a.
Proof.
destruct c; intros H; try (vm_compute in H; discriminate H);
repeat split; discriminate.
Qed.

Lemma textb_not_newline c : textb c = true -> is_newline c = false.
Proof.
intros H. apply textb_plain in H as (H1 & H2 & _).
unfold is_newline. rewrite (eqb_neq c x0a H1), (eqb_neq c x0d H2). reflexivity.
Qed.

Lemma text_app a b : text a -> text b -> text (a ++ b).
Proof. intros Ha Hb. apply Forall_app. split; assumption. Qed.

Lemma text_no c s : text s -> textb c = false -> ~ In c s.
Proof.
intros Hs Hc Hin. unfold text in Hs. rewrite Forall_forall in Hs.
apply Hs in Hin. congruence.
Qed.

Lemma text_strip s : text s -> stripNewlines s = s.
Proof.
induction 1 as [ | c s Hc Hs IH]; [reflexivity | ].
cbn [stripNewlines filter]. rewrite (textb_not_newline c Hc). cbn [negb].
f_equal. exact IH.
Qed.

Lemma text_keptEnd l : text l -> keptEnd l.
Proof.
intros Hl. destruct l as [ | x l] using rev_ind; [left; reflexivity | ].
right. exists l, x. split; [reflexivity | ].
apply Forall_app in Hl as [_ Hx]. inversion Hx as [ | ? ? Hc _]; subst.
apply textb_plain in Hc. tauto.
Qed.

Lemma text_Encode bs : text (Base64.Encode bs).
Proof.
assert (Hs : forall v k, textb (sextet v k) = true).
{ intros v k. unfold textb, sextet.
rewrite decodeMap_encode by apply sextet_index_range.
pose proof (sextet_index_range (Z.shiftr v k)).
replace (Z.land (Z.shiftr v k) 63 =? 255) with false
by (symmetry; apply Z.eqb_neq; lia).
reflexivity. }
assert (Hp : textb padChar = true) by reflexivity.
assert (H : forall n bs, (List.length bs <= n)%nat -> text (Base64.Encode bs)).
{ induction n as [n IH] using lt_wf_ind. intros l Hn.
destruct l as [ | a [ | b [ | c rest]]]; cbn [Base64.Encode].
- constructor.
- repeat constructor; auto.
- repeat constructor; auto.
- cbn [List.length] in Hn. repeat (constructor; [apply Hs | ]).
apply (IH (List.length rest)); lia. }
apply (H (List.length bs)). lia.
Qed.

Lemma stripNewlines_app a b :
stripNewlines (a ++ b) = stripNewlines a ++ stripNewlines b.
Proof. apply filter_app. Qed.

Lemma Lines_app a b : Lines a -> Lines b -> Lines (a ++ b).
Proof.
induction 1 as [ | l s Hl Ht Hs IH]; intros Hb; [exact Hb | ].
rewrite <- app_assoc. cbn [app]. constructor; auto.
Qed.

(** What lineBreaker.Write puts out is whole lines, and with the
pending line it is the input again once the line feeds are taken
out. *)
Lemma lineBreaker_Write_lines b :
forall line,
text line -> text b ->
Lines (fst (lineBreaker_Write line b))
/\ text (snd (lineBreaker_Write line b))
/\ stripNewlines (fst (lineBreaker_Write line b))
 ++ snd (lineBreaker_Write line b) = line ++ b.
Proof.
induction b as [ | c b IH]; intros line Hline Hb.
- cbn. rewrite app_nil_r. repeat split; [constructor | assumption].
- inversion Hb as [ | ? ? Hc Hb']; subst. cbn [lineBreaker_Write].
destruct (List.length line + 1 <? pemLineLength)%nat.
+ destruct (IH (line ++ [c])) as (H1 & H2 & H3);
[apply text_app; [assumption | repeat constructor; assumption] | assumption | ].
rewrite <- app_assoc in H3. auto.
+ destruct (IH []) as (H1 & H2 & H3); [constructor | assumption | ].
destruct (lineBreaker_Write [] b) as [out line'].
cbn [fst snd] in *. repeat split.
* change (line ++ c :: x0a :: out) with (line ++ [c] ++ x0a :: out).
rewrite app_assoc. constructor; [ | | assumption].
-- destruct line; discriminate.
-- apply text_app; [assumption | repeat constructor; assumption].
* assumption.
* change (line ++ c :: x0a :: out) with (line ++ [c; x0a] ++ out).
rewrite !stripNewlines_app, (text_strip line Hline).
cbn [stripNewlines filter]. rewrite (textb_not_newline c Hc).
cbn. rewrite <- app_assoc. cbn [app]. fold (stripNewlines out).
rewrite H3. reflexivity.
Qed.

Lemma body_lines data :
Lines (body data) /\ stripNewlines (body data) = Base64.Encode data.
Proof.
unfold body.
destruct (lineBreaker_Write_lines (Base64.Encode data) [])
as (H1 & H2 & H3); [constructor | apply text_Encode | ].
destruct (lineBreaker_Write [] (Base64.Encode data)) as [out line].
cbn [fst snd app] in *. split.
- apply Lines_app; [assumption | ].
destruct line as [ | x line]; [constructor | ].
cbn [lineBreaker_Close].
change ((x :: line) ++ [x0a]) with ((x :: line) ++ x0a :: []).
constructor; [discriminate | assumption | constructor].
- rewrite stripNewlines_app, <- H3. f_equal.
destruct line as [ | x line]; [reflexivity | ].
cbn [lineBreaker_Close]. rewrite stripNewlines_app, (text_strip _ H2).
cbn. rewrite app_nil_r. reflexivity.
Qed.

Lemma body_nil data : body data = [] <-> data = [].
Proof.
split.
- intros H. destruct (body_lines data) as [_ Hs]. rewrite H in Hs.
destruct data as [ | a [ | b [ | c rest]]]; [reflexivity | discriminate ..].
- intros ->. reflexivity.
Qed.

Lemma Lines_head s :
Lines s -> s <> [] -> exists c s', s = c :: s' /\ textb c = true.
Proof.
intros H Hne. destruct H as [ | l s Hl Ht Hs]; [contradiction | ].
destruct l as [ | c l]; [contradiction | ].
inversion Ht; subst. exists c, (l ++ x0a :: s). split; [reflexivity | assumption].
Qed.

Lemma Lines_snoc s : Lines s -> s <> [] -> exists s', s = s' ++ [x0a].
Proof.
induction 1 as [ | l s Hl Ht Hs IH]; intros Hne; [contradiction | ].
destruct s as [ | x s].
- exists l. reflexivity.
- destruct IH as [s' Hs']; [discriminate | ].
exists (l ++ x0a :: s'). rewrite Hs', <- app_assoc. reflexivity.
Qed.

Lemma Lines_chars s :
Lines s -> Forall (fun c => textb c = true \/ c = x0a) s.
Proof.
induction 1 as [ | l s Hl Ht Hs IH]; [constructor | ].
apply Forall_app. split.
- eapply Forall_impl; [ | exact Ht]. intros c Hc. left. exact Hc.
- constructor; [right; reflexivity | exact IH].
Qed.

Lemma Index_text l X sep0 sep :
text l -> textb sep0 = false ->
Index (l ++ X) (sep0 :: sep)
= option_map (Nat.add (List.length l)) (Index X (sep0 :: sep)).
Proof.
intros Hl Hsep. induction Hl as [ | c l Hc Hl IH].
- cbn [app List.length]. destruct (Index X (sep0 :: sep)); reflexivity.
- cbn [app Index List.length]. rewrite HasPrefix_head by congruence.
rewrite IH. destruct (Index X (sep0 :: sep)); reflexivity.
Qed.

(** In the lines of the body followed by the END line, the first
[pemEnd] is the one that starts at the last line feed of the body. *)
Lemma Index_Lines s T :
Lines s -> s <> [] -> HasPrefix T (List.tl pemEnd) = true ->
Index (s ++ T) pemEnd = Some (List.length s - 1)%nat.
Proof.
intros Hs Hne HT. induction Hs as [ | l s Hl Ht Hs IH]; [contradiction | ].
rewrite <- app_assoc. unfold pemEnd at 1.
rewrite Index_text by (assumption || reflexivity).
fold pemEnd. cbn [app].
rewrite length_app. cbn [List.length].
destruct s as [ | x s].
- cbn [app]. unfold pemEnd at 1. cbn [Index HasPrefix].
change (HasPrefix T (lit "-----END ")) with (HasPrefix T (List.tl pemEnd)).
rewrite HT. cbn. f_equal. lia.
- destruct (Lines_head (x :: s) Hs) as (c & s' & E & Hc); [discriminate | ].
injection E as -> ->.
assert (Hx : HasPrefix (x0a :: (c :: s') ++ T) pemEnd = false).
{ cbn. apply textb_plain in Hc as (_ & _ & _ & _ & Hd & _).
rewrite (eqb_neq c x2d Hd). reflexivity. }
change (Index (x0a :: (c :: s') ++ T) pemEnd)
with (if HasPrefix (x0a :: (c :: s') ++ T) pemEnd then Some 0%nat
    else option_map S (Index ((c :: s') ++ T) pemEnd)).
rewrite Hx, IH by discriminate. cbn [option_map List.length]. f_equal. lia.
Qed.

Lemma skipn_app_length {A} (p s : list A) : skipn (List.length p) (p ++ s) = s.
Proof.
rewrite skipn_app, skipn_all, Nat.sub_diag. reflexivity.
Qed.

Lemma firstn_app_length {A} (p s : list A) : firstn (List.length p) (p ++ s) = p.
Proof.
rewrite firstn_app, firstn_all, Nat.sub_diag. cbn. apply app_nil_r.
Qed.

Lemma removeSpacesAndTabs_id s :
Forall (fun c => textb c = true \/ c = x0a) s -> removeSpacesAndTabs s = s.
Proof.
induction 1 as [ | c s Hc Hs IH]; [reflexivity | ].
cbn [removeSpacesAndTabs filter]. fold (removeSpacesAndTabs s). rewrite IH.
destruct Hc as [Hc | ->]; [ | reflexivity].
apply textb_plain in Hc as (_ & _ & H1 & H2 & _).
rewrite (eqb_neq c x20 H1), (eqb_neq c x09 H2). reflexivity.
Qed.

Lemma dashes_keptEnd t : keptEnd (t ++ pemEndOfLine).
Proof.
right. exists (t ++ lit "----"), x2d. repeat split; try discriminate.
rewrite <- app_assoc. reflexivity.
Qed.

Lemma dashes_no_newline pre t :
~ In x0a pre -> ~ In x0a t -> ~ In x0a (pre ++ t ++ pemEndOfLine).
Proof.
intros Hp Ht Hin. apply in_app_or in Hin as [Hin | Hin]; [tauto | ].
apply in_app_or in Hin as [Hin | Hin]; [tauto | ].
cbn in Hin. intuition discriminate.
Qed.

(** The header loop on an encoded block without headers reads no
header. *)
Lemma headerLoop_body t data fuel :
~ In x0a t -> (data <> [] \/ ~ In x3a t) ->
headerLoop (S fuel) (body data ++ endLine t) []
= Some ([], body data ++ endLine t).
Proof.
intros Hnl Hcolon. destruct (body_lines data) as [HL _].
remember (body data) as bd eqn:E. destruct HL as [ | l s Hl Ht Hs].
- (* empty body: the first line is the END line *)
assert (Hd : ~ In x3a t).
{ destruct Hcolon as [Hd | Hd]; [ | exact Hd].
exfalso. apply Hd. apply body_nil. symmetry. exact E. }
cbn [app]. unfold endLine.
replace (List.tl pemEnd ++ (t ++ pemEndOfLine) ++ [x0a])
with ((List.tl pemEnd ++ t ++ pemEndOfLine) ++ x0a :: [])
by (rewrite <- !app_assoc; reflexivity).
set (line := List.tl pemEnd ++ t ++ pemEndOfLine).
assert (Hline : getLine (line ++ [x0a]) = (line, [])).
{ apply getLine_line.
- apply dashes_no_newline; [ | assumption]. cbn. intuition discriminate.
- right. exists (List.tl pemEnd ++ t ++ lit "----"), x2d.
repeat split; try discriminate.
unfold line. rewrite <- !app_assoc. reflexivity. }
destruct (line ++ [x0a]) as [ | x r] eqn:Er;
[destruct line; discriminate | ].
cbn [headerLoop]. rewrite Hline. unfold colon. cbn [lit list_byte_of_string].
change (Bytes.lit ":") with [x3a].
rewrite Cut_byte_absent; [reflexivity | ].
unfold line. intros Hin. apply in_app_or in Hin as [Hin | Hin];
[cbn in Hin; intuition discriminate | ].
apply in_app_or in Hin as [Hin | Hin]; [tauto | ].
cbn in Hin. intuition discriminate.
- (* the first line is a line of base64 text *)
rewrite <- app_assoc. cbn [app].
assert (Hline : getLine (l ++ x0a :: s ++ endLine t) = (l, s ++ endLine t)).
{ apply getLine_line.
- apply text_no; [assumption | reflexivity].
- apply text_keptEnd. assumption. }
destruct (l ++ x0a :: s ++ endLine t) as [ | x r] eqn:Er;
[destruct l; discriminate | ].
cbn [headerLoop]. rewrite Hline. change colon with [x3a].
rewrite Cut_byte_absent; [reflexivity | ].
apply text_no; [assumption | reflexivity].
Qed.

Lemma endLine_checks t :
~ In x0a t ->
let endTrailer := (t ++ pemEndOfLine) ++ [x0a] in
let endTrailerLen := (List.length t + List.length pemEndOfLine)%nat in
(List.length endTrailer <? endTrailerLen)%nat = false
/\ skipn endTrailerLen endTrailer = [x0a]
/\ firstn endTrailerLen endTrailer = t ++ pemEndOfLine.
Proof.
intros Hnl endTrailer endTrailerLen. subst endTrailer endTrailerLen.
rewrite <- length_app. repeat split.
- apply Nat.ltb_ge. rewrite (length_app (t ++ pemEndOfLine)). lia.
- apply skipn_app_length.
- apply firstn_app_length.
Qed.

Lemma Decode_round_Encode t data :
~ In x0a t -> (data <> [] \/ ~ In x3a t) ->
Decode_round
(List.tl pemStart ++ (t ++ pemEndOfLine) ++ x0a :: (body data ++ endLine t))
= Found {| Type_ := string_of_list_byte t; Headers := []; Bytes := data |} [].
Proof.
intros Hnl Hcolon. unfold Decode_round.
rewrite HasPrefix_app.
change (List.length pemStart - 1)%nat with (List.length (List.tl pemStart)).
rewrite skipn_app_length.
rewrite getLine_line
by (apply dashes_keptEnd || apply (dashes_no_newline []); auto).
cbv beta iota zeta.
rewrite HasSuffix_app. cbn [negb].
replace (firstn (List.length (t ++ pemEndOfLine) - List.length pemEndOfLine)
     (t ++ pemEndOfLine)) with t
by (rewrite length_app, Nat.add_sub, firstn_app_length; reflexivity).
destruct (List.length (body data ++ endLine t)) as [ | fuel] eqn:EL.
{ rewrite length_app in EL. unfold endLine in EL.
rewrite !length_app in EL. cbn in EL. lia. }
rewrite headerLoop_body by assumption.
cbv beta iota zeta. cbn [List.length Nat.eqb andb].
destruct (endLine_checks t Hnl) as (C1 & C2 & C3).
destruct (body_lines data) as [HL HS].
remember (body data) as bd eqn:E. destruct bd as [ | c bd].
- (* no data: the END line follows the type line at once *)
assert (data = []) as -> by (apply body_nil; symmetry; exact E).
cbn [app]. unfold endLine at 1. rewrite HasPrefix_app.
cbv beta iota zeta.
change (List.length pemEnd - 1)%nat with (List.length (List.tl pemEnd)).
unfold endLine. rewrite skipn_app_length.
rewrite C1, C2, C3, HasPrefix_app, HasSuffix_app.
cbn [negb orb firstn removeSpacesAndTabs filter].
change (fst (getLine [x0a])) with (@nil byte).
cbn [List.length Nat.eqb negb].
change (Base64.Decode []) with (@nil byte, @None Base64.error).
cbv beta iota. f_equal.
cbn [Nat.add].
change (List.length pemEnd - 1)%nat with (List.length (List.tl pemEnd)).
rewrite skipn_app_length.
change ((t ++ pemEndOfLine) ++ [x0a]) with ((t ++ pemEndOfLine) ++ x0a :: []).
apply getLine_snd. apply (dashes_no_newline []); auto.
- (* lines of base64 text, then the END line *)
destruct (Lines_head (c :: bd) HL) as (c' & bd' & Ec & Hc); [discriminate | ].
injection Ec as <- <-.
replace (HasPrefix ((c :: bd) ++ endLine t) (List.tl pemEnd)) with false.
2:{ cbn. apply textb_plain in Hc as (_ & _ & _ & _ & Hd & _).
rewrite (eqb_neq c x2d Hd). reflexivity. }
rewrite Index_Lines by (assumption || discriminate || apply HasPrefix_app).
cbv beta iota zeta.
destruct (Lines_snoc (c :: bd) HL) as [b' Eb']; [discriminate | ].
rewrite Eb' in *.
replace (List.length (b' ++ [x0a]) - 1)%nat with (List.length b')
by (rewrite length_app; cbn; lia).
replace ((b' ++ [x0a]) ++ endLine t)
with ((b' ++ pemEnd) ++ (t ++ pemEndOfLine) ++ [x0a])
by (unfold endLine; rewrite <- !app_assoc; reflexivity).
rewrite <- (length_app b' pemEnd), skipn_app_length.
rewrite C1, C2, C3, HasPrefix_app, HasSuffix_app.
cbn [negb orb].
change (fst (getLine [x0a])) with (@nil byte).
cbn [List.length Nat.eqb negb].
rewrite <- app_assoc, firstn_app_length.
assert (Hchars : Forall (fun c => textb c = true \/ c = x0a) b').
{ apply Lines_chars in HL. apply Forall_app in HL. tauto. }
rewrite (removeSpacesAndTabs_id b' Hchars).
rewrite Decode_stripNewlines.
replace (stripNewlines b') with (Base64.Encode data).
2:{ rewrite <- HS, stripNewlines_app. cbn. rewrite app_nil_r. reflexivity. }
rewrite Decode_Encode. f_equal.
replace (List.length (b' ++ pemEnd) - 1)%nat
with (List.length (b' ++ lit (String "010" "-----END")))
by (rewrite !length_app; cbn; lia).
replace (b' ++ pemEnd ++ (t ++ pemEndOfLine) ++ [x0a])
with ((b' ++ lit (String "010" "-----END"))
      ++ (x20 :: t ++ pemEndOfLine) ++ x0a :: [])
by (change pemEnd with (lit (String "010" "-----END") ++ [x20]);
  rewrite <- !app_assoc; cbn [app]; rewrite <- ?app_assoc; reflexivity).
rewrite skipn_app_length. apply getLine_snd.
apply (dashes_no_newline [x20]); [ | assumption].
cbn. intuition discriminate.
Qed.

(** pem.Encode and what Decode_round reads. *)
Lemma Encode_shape ty data :
Pem.Encode ty data
= List.tl pemStart ++ (list_byte_of_string ty ++ pemEndOfLine)
++ x0a :: (body data ++ endLine (list_byte_of_string ty)).
Proof.
unfold Pem.Encode, endLine. rewrite <- !app_assoc. reflexivity.
Qed.

Lemma Decode_Encode_bytes ty data :
~ In x0a (list_byte_of_string ty) ->
(data <> [] \/ ~ In x3a (list_byte_of_string ty)) ->
Pem.Decode (Pem.Encode ty data)
= (Some {| Type_ := ty; Headers := []; Bytes := data |}, []).
Proof.
intros Hnl Hcolon. unfold Pem.Decode.
destruct (List.length (Pem.Encode ty data)); cbn [Pem.Decode_loop];
rewrite Encode_shape, Decode_round_Encode by assumption;
rewrite string_of_list_byte_of_string; reflexivity.
Qed.

Lemma getLine_rest data :
(List.length (snd (getLine data)) <= List.length data - 1)%nat.
Proof.
unfold getLine. destruct (IndexByte data x0a) as [i | ]; cbn [snd].
- rewrite length_skipn. lia.
- cbn. lia.
Qed.

Lemma headerLoop_rest fuel :
forall rest h h' rest',
headerLoop fuel rest h = Some (h', rest') ->
(List.length rest' <= List.length rest)%nat.
Proof.
induction fuel as [ | fuel IH]; intros rest h h' rest' H.
- destruct rest; discriminate H.
- destruct rest as [ | c rest]; [discriminate H | ].
cbn [headerLoop] in H.
pose proof (getLine_rest (c :: rest)) as Hl.
destruct (getLine (c :: rest)) as [line next]. cbn [snd] in Hl.
destruct (Cut line colon) as [[key val] [ | ]].
+ apply IH in H. cbn [List.length] in *. lia.
+ injection H as <- <-. lia.
Qed.

(** The rounds allowed to the header loop are enough. *)
Lemma headerLoop_fuel fuel1 :
forall fuel2 rest h,
(List.length rest <= fuel1)%nat -> (List.length rest <= fuel2)%nat ->
headerLoop fuel1 rest h = headerLoop fuel2 rest h.
Proof.
induction fuel1 as [ | fuel1 IH]; intros fuel2 rest h H1 H2.
- destruct rest; [ | cbn in H1; lia]. destruct fuel2; reflexivity.
- destruct rest as [ | c rest]; [destruct fuel2; reflexivity | ].
destruct fuel2 as [ | fuel2]; [cbn in H2; lia | ].
cbn [headerLoop].
pose proof (getLine_rest (c :: rest)) as Hl.
destruct (getLine (c :: rest)) as [line next]. cbn [snd List.length] in *.
destruct (Cut line colon) as [[key val] [ | ]]; [ | reflexivity].
apply IH; lia.
Qed.

(** A round of Decode that goes on has dropped a BEGIN mark. *)
Lemma Decode_round_rest rest rest' :
Decode_round rest = Continue rest' ->
(List.length rest' < List.length rest)%nat.
Proof.
unfold Decode_round.
set (start := if HasPrefix rest (List.tl pemStart) then _ else _).
assert (Hstart : forall r, start = Some r ->
                       (List.length r < List.length rest)%nat).
{ subst start. intros r. destruct (HasPrefix rest (List.tl pemStart)) eqn:E.
- apply HasPrefix_length in E.
change (List.length (List.tl pemStart)) with 11%nat in E.
assert (Hs : (List.length (skipn (List.length pemStart - 1) rest)
              < List.length rest)%nat).
{ rewrite length_skipn. change (List.length pemStart - 1)%nat with 11%nat. lia. }
intros H. injection H as H. rewrite <- H. exact Hs.
- unfold Cut. destruct (Index rest pemStart) as [i | ] eqn:Ei; [ | discriminate].
apply Index_length in Ei. change (List.length pemStart) with 12%nat in Ei.
assert (Hs : (List.length (skipn (i + List.length pemStart) rest)
              < List.length rest)%nat).
{ rewrite length_skipn. change (List.length pemStart) with 12%nat. lia. }
intros H. injection H as H. rewrite <- H. exact Hs. }
destruct start as [r | ]; [ | discriminate].
specialize (Hstart r eq_refl).
pose proof (getLine_rest r) as Hl.
destruct (getLine r) as [typeLine r1]. cbn [snd] in Hl.
destruct (negb (HasSuffix typeLine pemEndOfLine)); [intros [= <-]; lia | ].
destruct (headerLoop (List.length r1) r1 []) as [[headers r2] | ] eqn:Eh;
[ | discriminate].
apply headerLoop_rest in Eh.
assert (Hr2 : (List.length r2 < List.length rest)%nat) by lia.
repeat match goal with
   | |- context [match ?x with _ => _ end] =>
       destruct x; try discriminate; try (intros [= <-]; exact Hr2)
   end.
Qed.

(** The rounds allowed to Decode are enough. *)
Lemma pem_Decode_loop_fuel fuel1 :
forall fuel2 data rest,
(List.length rest <= fuel1)%nat -> (List.length rest <= fuel2)%nat ->
Pem.Decode_loop fuel1 data rest = Pem.Decode_loop fuel2 data rest.
Proof.
induction fuel1 as [ | fuel1 IH]; intros fuel2 data rest H1 H2.
- destruct fuel2; cbn [Pem.Decode_loop];
destruct (Decode_round rest) as [ | | rest'] eqn:E; try reflexivity.
apply Decode_round_rest in E. lia.
- destruct fuel2 as [ | fuel2]; cbn [Pem.Decode_loop];
destruct (Decode_round rest) as [ | | rest'] eqn:E; try reflexivity;
apply Decode_round_rest in E; [lia | ].
apply IH; lia.
Qed.

Lemma mem_false c l : Bytes.mem c l = false -> ~ In c l.
Proof.
unfold Bytes.mem. intros H Hin.
assert (E : existsb (Byte.eqb c) l = true).
{ apply existsb_exists. exists c. split; [exact Hin | apply eqb_refl]. }
congruence.
Qed.

(** C2 (as amended).  For every block type that holds no line feed and
nowhere the mark [-----BEGIN ], and no colon when there are no bytes,
and for every byte sequence, decoding the PEM text of the block gives
the block type and the bytes back, with no header and nothing left
over.  (A type that holds the mark is set aside: the forms of
pem.Decode do not read its text alike.) *)
Theorem pem_round_trip (blockType : string) (derBytes : list byte) :
Bytes.mem x0a (Bytes.lit blockType) = false ->
Bytes.Index (Bytes.lit blockType) (Bytes.lit "-----BEGIN ") = None ->
derBytes <> [] \/ Bytes.mem x3a (Bytes.lit blockType) = false ->
Pem.Decode (Pem.Encode blockType derBytes)
= (Some {| Type_ := blockType; Headers := []; Bytes := derBytes |}, []).
Proof.
intros Hnl _ Hcolon. apply Decode_Encode_bytes.
- apply mem_false. exact Hnl.
- destruct Hcolon as [H | H]; [left; exact H | right; apply mem_false; exact H].
Qed.

Lemma pem_round_trip_witness :
Bytes.mem x0a (Bytes.lit "CERTIFICATE") = false
/\ Bytes.Index (Bytes.lit "CERTIFICATE") (Bytes.lit "-----BEGIN ") = None
/\ Pem.Decode (Pem.Encode "CERTIFICATE" [])
= (Some {| Type_ := "CERTIFICATE"; Headers := []; Bytes := [] |}, []).
Proof.
split; [reflexivity | ]. split; [reflexivity | ].
apply (pem_round_trip "CERTIFICATE" []);
  [reflexivity | reflexivity | right; reflexivity].
Defined.

(** C2, the claim as it stands fails: a block type that holds a line
feed is written, and the text is then no PEM block at all. *)
Lemma pem_type_with_line_feed_is_lost :
Pem.Encode (String "A" (String "010" "B")) (Bytes.lit "foob")
= Bytes.lit "-----BEGIN A
B-----
Zm9vYg==
-----END A
B-----
"
/\ Pem.Decode (Pem.Encode (String "A" (String "010" "B")) (Bytes.lit "foob"))
= (None, Pem.Encode (String "A" (String "010" "B")) (Bytes.lit "foob")).
Proof. vm_compute. split; reflexivity. Qed.

(** An empty block whose type holds a colon is lost too: its END line
is read as a header. *)
Example pem_empty_block_with_colon_is_lost :
fst (Pem.Decode (Pem.Encode "A:B" [])) = None
/\ fst (Pem.Decode (Pem.Encode "A:B" [x00]))
= Some {| Type_ := "A:B"; Headers := []; Bytes := [x00] |}.
Proof. vm_compute. split; reflexivity. Qed.

(** The two block types of the program, with any bytes. *)
Corollary program_blocks_round_trip (derBytes : list byte) :
Pem.Decode (Pem.Encode "CERTIFICATE" derBytes)
= (Some {| Type_ := "CERTIFICATE"; Headers := []; Bytes := derBytes |}, [])
/\ Pem.Decode (Pem.Encode "EC PRIVATE KEY" derBytes)
= (Some {| Type_ := "EC PRIVATE KEY"; Headers := []; Bytes := derBytes |}, []).
Proof.
split; apply Decode_Encode_bytes;
solve [ apply mem_false; reflexivity | right; apply mem_false; reflexivity ].
Qed.

End PemFacts.

(** ** Programs and their runs *)

Module GoFacts.
Import Go.

(** What holds whatever the environment answers holds of every run. *)
Lemma run_always {A St} (handle : forall X, Eff X -> St -> X * St)
(p : Prog A) :
forall (Q : A -> trace -> Prop) s,
always p Q -> Q (result handle p s) (events handle p s).
Proof.
induction p as [a | X e k IH]; intros Q s H.
- exact H.
- unfold result, events in *. cbn [run always] in *.
destruct (handle X e s) as [x s1] eqn:E.
specialize (IH x (fun a tr => Q a (Ev e x :: tr)) s1 (H x)).
destruct (run handle (k x) s1) as [[a tr] s2]. exact IH.
Qed.

End GoFacts.

(** ** The functions of package etcd *)

Module EtcdFacts.
Import Go Trace Props Etcd GoFacts.
Local Open Scope string_scope.

(** One answer of the environment, in each of its cases. *)
Ltac unfold_program :=
cbn [always bind call defer writePEMFile copyFileFromContainer].

Ltac answer :=
unfold_program;
lazymatch goal with
| |- forall x : unit, _ => intros []
| |- forall x : _, _ =>
let y := fresh x in
intros y;
first
[ lazymatch goal with
  | |- context [IsNotExist y] =>
      destruct y as [[[ | ] ?] | ]; cbn [IsNotExist]
  end
| match goal with
  | |- context [match ?z with _ => _ end] => constr_eq z y; destruct y
  end
| idtac ]
end.

(** Every run to its end. *)
Ltac answers := repeat answer; unfold_program.

Ltac equal_lists :=
repeat lazymatch goal with
 | |- _ :: _ = _ :: _ => f_equal
 | |- @eq Z _ _ => lia
 | |- _ => reflexivity
 end.

Lemma kubeconfigTemplate_parses :
Template.Parse kubeconfigTemplate
= Some [Template.TextNode (nl ++ "apiVersion: v1" ++ nl ++ "kind: Config" ++ nl
                       ++ "clusters:" ++ nl ++ "- cluster:" ++ nl
                       ++ "    server: ");
  Template.FieldNode "ServerURL";
  Template.TextNode (nl ++ "    certificate-authority-data: ");
  Template.FieldNode "CACertData";
  Template.TextNode (nl ++ "  name: kubernetes" ++ nl ++ "contexts:" ++ nl
                       ++ "- context:" ++ nl ++ "    cluster: kubernetes" ++ nl
                       ++ "    user: admin" ++ nl ++ "  name: kubernetes" ++ nl
                       ++ "current-context: kubernetes" ++ nl ++ "users:" ++ nl
                       ++ "- name: admin" ++ nl ++ "  user:" ++ nl
                       ++ "    client-certificate-data: ");
  Template.FieldNode "ClientCertData";
  Template.TextNode (nl ++ "    client-key-data: ");
  Template.FieldNode "ClientKeyData";
  Template.TextNode nl].
Proof. vm_compute. reflexivity. Qed.

(** The template, executed, is the kubeconfig document. *)
Lemma kubeconfig_rendering (data : kubeconfigData) :
option_map (fun t => Template.Execute t (field data))
     (Template.Parse kubeconfigTemplate)
= Some (Some (kubeconfigDocument (ServerURL data) (CACertData data)
          (ClientCertData data) (ClientKeyData data))).
Proof.
rewrite kubeconfigTemplate_parses. cbn [option_map]. do 2 f_equal.
Qed.


Lemma kubeconfig_execute (data : kubeconfigData) tmpl :
Template.Parse kubeconfigTemplate = Some tmpl ->
Template.Execute tmpl (field data)
= Some (kubeconfigDocument (ServerURL data) (CACertData data)
    (ClientCertData data) (ClientKeyData data)).
Proof.
intros H. pose proof (kubeconfig_rendering data) as R.
rewrite H in R. cbn [option_map] in R. injection R as R. exact R.
Qed.

Lemma GenerateKubeconfig_always kubeconfigPath serverURL containerName :
always (GenerateKubeconfig kubeconfigPath serverURL containerName)
(fun r tr =>
(existsb retrievalFailed tr = true ->
(exists e, r = Some e /\ artifactUnavailable e)
/\ created tr = [] /\ written tr = [])
/\ (r = None ->
   exists tempDir file ca cert key closed removed,
     tr = materialized kubeconfigPath serverURL containerName tempDir file
            ca cert key (Base64.EncodeToString ca)
            (Base64.EncodeToString cert) (Base64.EncodeToString key)
            closed removed)
/\ (allSucceeded tr = true -> r = None)).
Proof.
unfold GenerateKubeconfig.
destruct (Template.Parse kubeconfigTemplate) as [tmpl | ] eqn:P;
[ | rewrite kubeconfigTemplate_parses in P; discriminate P].
repeat answer.
all: try (rewrite (kubeconfig_execute _ tmpl P);
    cbn [ServerURL CACertData ClientCertData ClientKeyData];
    repeat answer).
all: cbn [always]; split; [ | split].
all: lazymatch goal with
| |- existsb _ _ = true -> _ =>
   cbn -[Pem.Encode artifactUnavailable nl]; intros H;
   first [ discriminate H
         | split; [ | split; reflexivity];
           eexists; (split; [reflexivity | ]);
           first [ exists "CA certificate"; eexists;
                   split; [cbn; tauto | (left + right); reflexivity]
                 | exists "client certificate"; eexists;
                   split; [cbn; tauto | (left + right); reflexivity]
                 | exists "client key"; eexists;
                   split; [cbn; tauto | (left + right); reflexivity] ] ]
| |- _ = None -> _ =>
   intros H; first [ discriminate H | do 7 eexists; reflexivity ]
| |- allSucceeded _ = true -> _ =>
   cbn -[Pem.Encode nl]; rewrite ?andb_false_r; intros H;
   first [ discriminate H | reflexivity ]
end.
Qed.


(** C4.  If one of the three artifacts cannot be had from the container
(a [docker cp] fails, or the reading of the copy), GenerateKubeconfig
returns the error that names the artifact, and it creates no file and
writes none: the kubeconfig file is not made. *)
Theorem missing_artifact_writes_no_document {St}
(handle : forall X, Eff X -> St -> X * St) (s : St)
(kubeconfigPath serverURL containerName : string) :
let p := GenerateKubeconfig kubeconfigPath serverURL containerName in
existsb retrievalFailed (events handle p s) = true ->
(exists e, result handle p s = Some e /\ artifactUnavailable e)
/\ created (events handle p s) = []
/\ written (events handle p s) = [].
Proof.
intros p H.
exact (proj1 (run_always handle p _ s
          (GenerateKubeconfig_always kubeconfigPath serverURL containerName))
       H).
Qed.

Lemma missing_artifact_witness :
let p := GenerateKubeconfig "/home/op/kubeconfig" "https://10.0.0.5:6443"
     "kube-apiserver" in
existsb retrievalFailed (events Sim.handle p Sim.apiServerWithoutKey) = true
/\ (exists e, result Sim.handle p Sim.apiServerWithoutKey = Some e
        /\ artifactUnavailable e)
/\ created (events Sim.handle p Sim.apiServerWithoutKey) = []
/\ written (events Sim.handle p Sim.apiServerWithoutKey) = [].
Proof.
intros p.
assert (H : existsb retrievalFailed (events Sim.handle p Sim.apiServerWithoutKey)
      = true) by (vm_compute; reflexivity).
split; [exact H | ].
exact (missing_artifact_writes_no_document Sim.handle Sim.apiServerWithoutKey
   "/home/op/kubeconfig" "https://10.0.0.5:6443" "kube-apiserver" H).
Defined.

(** C5.  When no step fails, GenerateKubeconfig succeeds, and what it
writes to the kubeconfig path is the document whose server field is
the given address and whose three data fields are base64 texts that
decode to the bytes read from the three artifact files. *)
Theorem materialization_completeness {St}
(handle : forall X, Eff X -> St -> X * St) (s : St)
(kubeconfigPath serverURL containerName : string) :
let p := GenerateKubeconfig kubeconfigPath serverURL containerName in
allSucceeded (events handle p s) = true ->
result handle p s = None
/\ exists tempDir file ca cert key caData certData keyData,
events handle p s
= materialized kubeconfigPath serverURL containerName tempDir file
   ca cert key caData certData keyData None None
/\ Base64.DecodeString caData = (ca, None)
/\ Base64.DecodeString certData = (cert, None)
/\ Base64.DecodeString keyData = (key, None).
Proof.
intros p H.
destruct (run_always handle p _ s
      (GenerateKubeconfig_always kubeconfigPath serverURL containerName))
as (_ & Hshape & Hok).
specialize (Hok H). split; [exact Hok | ].
destruct (Hshape Hok) as (tempDir & file & ca & cert & key & closed & removed & E).
rewrite E in H. exists tempDir, file, ca, cert, key.
exists (Base64.EncodeToString ca), (Base64.EncodeToString cert),
(Base64.EncodeToString key).
split.
- rewrite E. destruct closed, removed; try discriminate H. reflexivity.
- repeat split; apply Base64Facts.DecodeString_EncodeToString.
Qed.

Lemma materialization_witness :
let p := GenerateKubeconfig "/home/op/kubeconfig" "https://10.0.0.5:6443"
     "kube-apiserver" in
allSucceeded (events Sim.handle p Sim.apiServer) = true
/\ result Sim.handle p Sim.apiServer = None
/\ exists tempDir file ca cert key caData certData keyData,
events Sim.handle p Sim.apiServer
= materialized "/home/op/kubeconfig" "https://10.0.0.5:6443"
   "kube-apiserver" tempDir file ca cert key caData certData keyData
   None None
/\ Base64.DecodeString caData = (ca, None)
/\ Base64.DecodeString certData = (cert, None)
/\ Base64.DecodeString keyData = (key, None).
Proof.
intros p.
assert (H : allSucceeded (events Sim.handle p Sim.apiServer) = true)
by (vm_compute; reflexivity).
split; [exact H | ].
exact (materialization_completeness Sim.handle Sim.apiServer
   "/home/op/kubeconfig" "https://10.0.0.5:6443" "kube-apiserver" H).
Defined.


(** *** Issuance *)

Section Issuance.
Variable ParseIP : string -> IP.
Variables caCertPath caKeyPath clientCertPath clientKeyPath hostIP : string.

Let issue : Prog (option error) :=
GenerateSelfSignedCAWithSAN ParseIP caCertPath caKeyPath clientCertPath
clientKeyPath hostIP.

(** What every run of the issuance does, as far as it gets, and what a
run that returns no error has done. *)
Lemma issuance_always :
always issue
(fun r tr =>
chain (certificateCalls tr)
/\ startOf (serials tr) [1; 2]
/\ startOf (commonNames tr) ["Kubernetes CA"; "Kubernetes Client"]
/\ Forall (fun ips => ips = [ParseIP hostIP]) (sans tr)
/\ windowExcess tr = pairGaps (clockReadings tr)
/\ startOf (created tr)
[caCertPath; caKeyPath; clientCertPath; clientKeyPath]
/\ (r = None ->
List.length (certificateCalls tr) = 2%nat
/\ created tr = [caCertPath; caKeyPath; clientCertPath; clientKeyPath]
/\ keysGenerated tr = 2%nat)
/\ (allSucceeded tr = true -> r = None)).
Proof.
unfold issue, GenerateSelfSignedCAWithSAN.
answers.
all: repeat lazymatch goal with
| |- _ /\ _ => split
end.
all: lazymatch goal with
| |- chain _ => cbn; unfold selfSignedCA, signedBy; cbn; tauto
| |- startOf _ _ => reflexivity
| |- Forall _ _ => cbn; repeat constructor
| |- windowExcess _ = _ =>
cbn -[Pem.Encode year]; unfold Add, year, Hour; equal_lists
| |- _ = None -> _ =>
intros H; first [ discriminate H | repeat split ]
| |- allSucceeded _ = true -> _ =>
cbn -[Pem.Encode nl]; rewrite ?andb_false_r; intros H;
first [ discriminate H | reflexivity ]
| |- _ => idtac
end.
Qed.


(** What every run of GenerateClientCert does: the serial of the
certificate it asks for is the Unix time of the first reading of the
clock, its validity starts at the second reading and ends 365 days
after the third, and the CA certificate it parses is the block of the
PEM file it read. *)
Lemma GenerateClientCert_always :
always (GenerateClientCert ParseIP caCertPath caKeyPath clientCertPath
clientKeyPath hostIP)
(fun r tr =>
serials tr
= map Unix (firstn (List.length (certificateCalls tr)) (clockReadings tr))
/\ windowExcess tr = pairGaps (List.tl (clockReadings tr))
/\ Forall (fun ips => ips = [ParseIP hostIP]) (sans tr)
/\ (List.length (certificateCalls tr) <= 1)%nat).
Proof.
unfold GenerateClientCert.
repeat first
[ answer
| lazymatch goal with
| |- context [pemDecode ?x] => destruct (pemDecode x) as [? | ]
end ].
all: unfold_program.
all: repeat lazymatch goal with
| |- _ /\ _ => split
end.
all: lazymatch goal with
| |- serials _ = _ => reflexivity
| |- windowExcess _ = _ =>
cbn -[Pem.Encode year]; unfold Add, year, Hour; equal_lists
| |- Forall _ _ => cbn; repeat constructor
| |- (_ <= _)%nat => cbn; lia
end.
Qed.

End Issuance.

(** C1 (as amended).  In every run of the issuance the CA certificate
is asked for with serial 1 and the client certificate with serial 2: two
fixed constants, different from each other and the same in every
run.  The client certificate of GenerateClientCert is the one whose
serial is the Unix time, in seconds, of its generation. *)
Theorem serial_numbers {St}
(handle : forall X, Eff X -> St -> X * St) (s : St) (ParseIP : string -> IP)
(caCertPath caKeyPath clientCertPath clientKeyPath hostIP : string) :
let issue := GenerateSelfSignedCAWithSAN ParseIP caCertPath caKeyPath
         clientCertPath clientKeyPath hostIP in
let renew := GenerateClientCert ParseIP caCertPath caKeyPath
         clientCertPath clientKeyPath hostIP in
startOf (serials (events handle issue s)) [1; 2]
/\ (result handle issue s = None -> serials (events handle issue s) = [1; 2])
/\ serials (events handle renew s)
= map Unix (firstn (List.length (certificateCalls (events handle renew s)))
           (clockReadings (events handle renew s)))
/\ (List.length (certificateCalls (events handle renew s)) <= 1)%nat.
Proof.
intros issue renew.
destruct (run_always handle issue _ s
      (issuance_always ParseIP caCertPath caKeyPath clientCertPath
         clientKeyPath hostIP))
as (_ & Hserials & _ & _ & _ & _ & Hdone & _).
destruct (run_always handle renew _ s
      (GenerateClientCert_always ParseIP caCertPath caKeyPath
         clientCertPath clientKeyPath hostIP))
as (Hunix & _ & _ & Hone).
repeat split; try assumption.
intros Hr. destruct (Hdone Hr) as (Hlen & _).
unfold startOf in Hserials. rewrite Hserials.
unfold serials. rewrite length_map, Hlen. reflexivity.
Qed.

(** C1, the claim as it stands fails: two successive issuances, an hour
apart, ask for client certificates with the same serial, 2, which is
not the time of either. *)
Lemma successive_issuances_share_the_serial :
let issue := GenerateSelfSignedCAWithSAN Sim.ParseIP "/tmp/certs/ca.crt"
         "/tmp/certs/ca.key" "/tmp/certs/client.crt"
         "/tmp/certs/client.key" "10.0.0.5" in
let first := Sim.boot 1700000000000000000 1000 in
let second := Sim.later (snd (run Sim.handle issue first)) (1 * Hour) in
result Sim.handle issue first = None
/\ result Sim.handle issue second = None
/\ nth 1 (serials (events Sim.handle issue first)) 0 = 2
/\ nth 1 (serials (events Sim.handle issue second)) 0 = 2
/\ map Unix (clockReadings (events Sim.handle issue first))
= [1700000000; 1700000000; 1700000000; 1700000000]
/\ map Unix (clockReadings (events Sim.handle issue second))
= [1700003600; 1700003600; 1700003600; 1700003600].
Proof. vm_compute. repeat split. Qed.

(** The serial of GenerateClientCert on a concrete machine: the time. *)
Example renewal_serial_is_the_time :
let renew := GenerateClientCert Sim.ParseIP "/tmp/certs/ca.crt"
         "/tmp/certs/ca.key" "/tmp/certs/client.crt"
         "/tmp/certs/client.key" "10.0.0.5" in
let w := Sim.withCA (Sim.boot 1700000000123456789 1000)
     "/tmp/certs/ca.crt" "/tmp/certs/ca.key" in
result Sim.handle renew w = None
/\ serials (events Sim.handle renew w) = [1700000000]
/\ commonNames (events Sim.handle renew w) = ["Kubernetes Client"]
/\ map (fun c => CommonName (issuer c)) (certificateCalls (events Sim.handle renew w))
= ["Kubernetes CA"].
Proof. vm_compute. repeat split. Qed.

(** C6.  The CA certificate is asked for with the CA template as its
own parent (so that issuer and subject are the same name), with IsCA
set, and signed with the private key whose public half it holds; the
client certificate is asked for with the CA template as parent (its
issuer is the CA's subject) and signed with the CA's private key.  A
run that returns no error has made both calls, the CA's and then the
client's; and a run in which no step fails returns no error. *)
Theorem certificate_chain {St}
(handle : forall X, Eff X -> St -> X * St) (s : St) (ParseIP : string -> IP)
(caCertPath caKeyPath clientCertPath clientKeyPath hostIP : string) :
let issue := GenerateSelfSignedCAWithSAN ParseIP caCertPath caKeyPath
         clientCertPath clientKeyPath hostIP in
chain (certificateCalls (events handle issue s))
/\ (result handle issue s = None ->
   exists ca leaf,
     certificateCalls (events handle issue s) = [ca; leaf]
     /\ selfSignedCA ca /\ signedBy ca leaf)
/\ (allSucceeded (events handle issue s) = true ->
   result handle issue s = None).
Proof.
intros issue.
destruct (run_always handle issue _ s
      (issuance_always ParseIP caCertPath caKeyPath clientCertPath
         clientKeyPath hostIP))
as (Hchain & _ & _ & _ & _ & _ & Hdone & Hok).
split; [exact Hchain | split; [ | exact Hok]].
intros Hr. destruct (Hdone Hr) as (Hlen & _).
destruct (certificateCalls (events handle issue s)) as [ | ca [ | leaf [ | c l]]];
  try discriminate Hlen.
exists ca, leaf. cbn [chain] in Hchain. destruct Hchain as [Hca Hleaf].
split; [reflexivity | split; assumption].
Qed.

Lemma certificate_chain_witness :
let issue := GenerateSelfSignedCAWithSAN Sim.ParseIP "/tmp/certs/ca.crt"
         "/tmp/certs/ca.key" "/tmp/certs/client.crt"
         "/tmp/certs/client.key" "10.0.0.5" in
let w := Sim.boot 1700000000000000000 1000 in
allSucceeded (events Sim.handle issue w) = true
/\ result Sim.handle issue w = None
/\ commonNames (events Sim.handle issue w) = ["Kubernetes CA"; "Kubernetes Client"]
/\ exists ca leaf,
   certificateCalls (events Sim.handle issue w) = [ca; leaf]
   /\ selfSignedCA ca /\ signedBy ca leaf.
Proof.
intros issue w.
destruct (certificate_chain Sim.handle w Sim.ParseIP "/tmp/certs/ca.crt"
        "/tmp/certs/ca.key" "/tmp/certs/client.crt"
        "/tmp/certs/client.key" "10.0.0.5") as (_ & Hdone & Hok).
assert (Hall : allSucceeded (events Sim.handle issue w) = true)
  by (vm_compute; reflexivity).
split; [exact Hall | ].
split; [exact (Hok Hall) | ].
split; [vm_compute; reflexivity | exact (Hdone (Hok Hall))].
Defined.

(** C7.  For a host address that net.ParseIP reads, every certificate
an issuance asks for carries exactly that address as its list of IP
addresses, however far the issuance gets; and an issuance that returns
no error has asked for two certificates, the CA's and the client's,
each with that list. *)
Theorem san_of_valid_address {St}
(handle : forall X, Eff X -> St -> X * St) (s : St) (ParseIP : string -> IP)
(caCertPath caKeyPath clientCertPath clientKeyPath hostIP : string) :
let issue := GenerateSelfSignedCAWithSAN ParseIP caCertPath caKeyPath
         clientCertPath clientKeyPath hostIP in
ParseIP hostIP <> [] ->
Forall (fun ips => ips = [ParseIP hostIP] /\ ~ In [] ips)
(sans (events handle issue s))
/\ (result handle issue s = None ->
commonNames (events handle issue s) = ["Kubernetes CA"; "Kubernetes Client"]
/\ sans (events handle issue s) = [[ParseIP hostIP]; [ParseIP hostIP]]).
Proof.
intros issue Hvalid.
destruct (run_always handle issue _ s
      (issuance_always ParseIP caCertPath caKeyPath clientCertPath
         clientKeyPath hostIP))
as (_ & _ & Hnames & Hsans & _ & _ & Hdone & _).
split.
- eapply Forall_impl; [ | exact Hsans].
cbv beta. intros ips ->. split; [reflexivity | ].
intros [H | []]. apply Hvalid. exact H.
- intros Hr. destruct (Hdone Hr) as (Hlen & _). split.
+ unfold startOf in Hnames. rewrite Hnames.
unfold commonNames. rewrite length_map, Hlen. reflexivity.
+ unfold sans in *.
rewrite <- (length_map (fun c => IPAddresses (template c))) in Hlen.
destruct (map _ _) as [ | a [ | b [ | c l]]]; try discriminate Hlen.
inversion Hsans as [ | ? ? Ha Hrest]; subst.
inversion Hrest as [ | ? ? Hb _]; subst. reflexivity.
Qed.

Lemma san_of_valid_address_witness :
let issue := GenerateSelfSignedCAWithSAN Sim.ParseIP "/tmp/certs/ca.crt"
         "/tmp/certs/ca.key" "/tmp/certs/client.crt"
         "/tmp/certs/client.key" "10.0.0.5" in
let w := Sim.boot 1700000000000000000 1000 in
Sim.ParseIP "10.0.0.5"
= [x00; x00; x00; x00; x00; x00; x00; x00; x00; x00; xff; xff; x0a; x00; x00; x05]
/\ result Sim.handle issue w = None
/\ commonNames (events Sim.handle issue w) = ["Kubernetes CA"; "Kubernetes Client"]
/\ sans (events Sim.handle issue w)
= [[Sim.ParseIP "10.0.0.5"]; [Sim.ParseIP "10.0.0.5"]]
/\ Forall (fun ips => ips = [Sim.ParseIP "10.0.0.5"] /\ ~ In [] ips)
(sans (events Sim.handle issue w)).
Proof.
intros issue w.
assert (Hr : result Sim.handle issue w = None) by (vm_compute; reflexivity).
destruct (san_of_valid_address Sim.handle w Sim.ParseIP "/tmp/certs/ca.crt"
      "/tmp/certs/ca.key" "/tmp/certs/client.crt"
      "/tmp/certs/client.key" "10.0.0.5") as [Hall Hdone].
- vm_compute. discriminate.
- destruct (Hdone Hr) as [Hn Hs].
split; [vm_compute; reflexivity | ].
split; [exact Hr | ]. split; [exact Hn | ]. split; [exact Hs | exact Hall].
Defined.


Lemma pairGaps_in_gaps (l : list Time) : incl (pairGaps l) (gaps l).
Proof.
assert (H : forall n l, (List.length l <= n)%nat -> incl (pairGaps l) (gaps l)).
{ induction n as [n IH] using lt_wf_ind. intros l0 Hn.
destruct l0 as [ | a [ | b l']].
- intros y Hy. destruct Hy.
- intros y Hy. destruct Hy.
- cbn [pairGaps gaps]. intros y Hy. destruct Hy as [Hy | Hy];
[left; exact Hy | ].
right. cbn [List.length] in Hn.
apply (IH (List.length l') ltac:(lia) l' ltac:(lia)) in Hy.
destruct l' as [ | c l'']; [destruct Hy | ].
cbn [gaps]. right. exact Hy. }
apply (H (List.length l)). lia.
Qed.

(** C8.  In every run of the issuance, NotAfter - NotBefore of each
template is 365 days and the time between the two readings of the
clock it was built from; when successive readings are at most [tol]
apart, the validity window is 365 days to within [tol].  A run that
returns no error has built both templates. *)
Theorem validity_window {St}
(handle : forall X, Eff X -> St -> X * St) (s : St) (ParseIP : string -> IP)
(caCertPath caKeyPath clientCertPath clientKeyPath hostIP : string) (tol : Z) :
let issue := GenerateSelfSignedCAWithSAN ParseIP caCertPath caKeyPath
         clientCertPath clientKeyPath hostIP in
Forall (fun g => 0 <= g <= tol) (gaps (clockReadings (events handle issue s))) ->
windowExcess (events handle issue s)
= pairGaps (clockReadings (events handle issue s))
/\ Forall (fun c => year <= NotAfter (template c) - NotBefore (template c)
              <= year + tol)
(certificateCalls (events handle issue s))
/\ (result handle issue s = None ->
List.length (certificateCalls (events handle issue s)) = 2%nat).
Proof.
intros issue Hclock.
destruct (run_always handle issue _ s
      (issuance_always ParseIP caCertPath caKeyPath clientCertPath
         clientKeyPath hostIP))
as (_ & _ & _ & _ & Hwin & _ & Hdone & _).
split; [exact Hwin | ]. split; [ | intros Hr; apply Hdone; exact Hr].
apply Forall_forall. intros c Hc.
assert (Hin : In (NotAfter (template c) - NotBefore (template c) - year)
           (windowExcess (events handle issue s))).
{ unfold windowExcess.
apply (in_map (fun c => NotAfter (template c) - NotBefore (template c) - year)).
exact Hc. }
rewrite Hwin in Hin. apply pairGaps_in_gaps in Hin.
rewrite Forall_forall in Hclock. specialize (Hclock _ Hin). lia.
Qed.

Lemma validity_window_witness :
let issue := GenerateSelfSignedCAWithSAN Sim.ParseIP "/tmp/certs/ca.crt"
         "/tmp/certs/ca.key" "/tmp/certs/client.crt"
         "/tmp/certs/client.key" "10.0.0.5" in
let w := Sim.boot 1700000000000000000 250000000 in
gaps (clockReadings (events Sim.handle issue w))
= [250000000; 250000000; 250000000]
/\ windowExcess (events Sim.handle issue w)
= pairGaps (clockReadings (events Sim.handle issue w))
/\ Forall (fun c => year <= NotAfter (template c) - NotBefore (template c)
              <= year + 3000000000)
(certificateCalls (events Sim.handle issue w))
/\ (result Sim.handle issue w = None ->
List.length (certificateCalls (events Sim.handle issue w)) = 2%nat).
Proof.
intros issue w.
assert (G : gaps (clockReadings (events Sim.handle issue w))
      = [250000000; 250000000; 250000000]) by (vm_compute; reflexivity).
split; [exact G | ].
apply (validity_window Sim.handle w Sim.ParseIP).
fold issue. rewrite G. repeat constructor; lia.
Defined.

(** C9.  A host address that net.ParseIP does not read is not turned
down: when no step fails the issuance returns no error, and the two
certificates were asked for with the nil address as their only IP
address. *)
Theorem invalid_address_is_not_rejected {St}
(handle : forall X, Eff X -> St -> X * St) (s : St) (ParseIP : string -> IP)
(caCertPath caKeyPath clientCertPath clientKeyPath hostIP : string) :
let issue := GenerateSelfSignedCAWithSAN ParseIP caCertPath caKeyPath
         clientCertPath clientKeyPath hostIP in
ParseIP hostIP = [] ->
allSucceeded (events handle issue s) = true ->
result handle issue s = None
/\ commonNames (events handle issue s) = ["Kubernetes CA"; "Kubernetes Client"]
/\ sans (events handle issue s) = [[[]]; [[]]].
Proof.
intros issue Hnil Hok.
destruct (run_always handle issue _ s
      (issuance_always ParseIP caCertPath caKeyPath clientCertPath
         clientKeyPath hostIP))
as (_ & _ & Hnames & Hsans & _ & _ & Hdone & Hsucc).
specialize (Hsucc Hok). destruct (Hdone Hsucc) as (Hlen & _).
split; [exact Hsucc | ]. split.
- unfold startOf in Hnames. rewrite Hnames.
unfold commonNames. rewrite length_map, Hlen. reflexivity.
- unfold sans in *.
rewrite <- (length_map (fun c => IPAddresses (template c))) in Hlen.
destruct (map _ _) as [ | a [ | b [ | c l]]]; try discriminate Hlen.
inversion Hsans as [ | ? ? Ha Hrest]; subst.
inversion Hrest as [ | ? ? Hb _]; subst. rewrite Hnil. reflexivity.
Qed.

Lemma invalid_address_witness :
let issue := GenerateSelfSignedCAWithSAN Sim.ParseIP "/tmp/certs/ca.crt"
         "/tmp/certs/ca.key" "/tmp/certs/client.crt"
         "/tmp/certs/client.key" "10.0.0.256" in
let w := Sim.boot 1700000000000000000 1000 in
Sim.ParseIP "10.0.0.256" = []
/\ allSucceeded (events Sim.handle issue w) = true
/\ result Sim.handle issue w = None
/\ commonNames (events Sim.handle issue w) = ["Kubernetes CA"; "Kubernetes Client"]
/\ sans (events Sim.handle issue w) = [[[]]; [[]]].
Proof.
intros issue w.
assert (Hnil : Sim.ParseIP "10.0.0.256" = []) by (vm_compute; reflexivity).
assert (Hok : allSucceeded (events Sim.handle issue w) = true)
by (vm_compute; reflexivity).
split; [exact Hnil | ]. split; [exact Hok | ].
exact (invalid_address_is_not_rejected Sim.handle w Sim.ParseIP
   "/tmp/certs/ca.crt" "/tmp/certs/ca.key" "/tmp/certs/client.crt"
   "/tmp/certs/client.key" "10.0.0.256" Hnil Hok).
Defined.


(** *** Restore and start *)

(** RestoreEtcdSnapshot looks for the snapshot before anything else, and
does nothing more when it is not there. *)
Lemma RestoreEtcdSnapshot_always snapshotPath containerName volumeName :
always (RestoreEtcdSnapshot snapshotPath containerName volumeName)
(fun r tr =>
exists err rest,
 tr = Ev (Stat snapshotPath) err :: rest
 /\ (IsNotExist err = true ->
     rest = [] /\ r = Some (snapshotNotFound snapshotPath))).
Proof.
unfold RestoreEtcdSnapshot. answers.
all: eexists; eexists; (split; [reflexivity | ]).
all: cbn [IsNotExist]; intros H; first [ discriminate H | split; reflexivity ].
Qed.

Lemma StartKubeAPIServer_always ParseIP
etcdEndpoint containerName volumeName hostIP outputDir :
always (StartKubeAPIServer ParseIP etcdEndpoint containerName volumeName
    hostIP outputDir)
(fun r tr =>
startOf (commonNames tr) ["Kubernetes CA"; "Kubernetes Client"]
/\ (keysGenerated tr <= 2)%nat
/\ (exists tempDir, startOf (created tr) (issuedFiles tempDir))
/\ (forall argv, In argv (commands tr) -> startsServer argv = true ->
                servesWithCA argv)
/\ (r = None ->
   commonNames tr = ["Kubernetes CA"; "Kubernetes Client"]
   /\ keysGenerated tr = 2%nat
   /\ (exists tempDir, created tr = issuedFiles tempDir)
   /\ startsServer (last (commands tr) []) = true)
/\ (r = Some configNotFound ->
   exists tempDir,
     commands (beforeStat encryptionConfigPath tr)
     = [["docker"; "rm"; "-f"; containerName];
        ["docker"; "volume"; "create"; volumeName];
        copyCommand volumeName tempDir]
     /\ commonNames (beforeStat encryptionConfigPath tr)
        = ["Kubernetes CA"; "Kubernetes Client"]
     /\ keysGenerated (beforeStat encryptionConfigPath tr) = 2%nat
     /\ created (beforeStat encryptionConfigPath tr) = issuedFiles tempDir)).
Proof.
unfold StartKubeAPIServer, GenerateSelfSignedCAInVolume,
GenerateSelfSignedCAWithSAN.
destruct (etcdEndpoint =? "")%string.
all: answers.
all: repeat lazymatch goal with
| |- _ /\ _ => split
end.
all: lazymatch goal with
| |- startOf _ _ => reflexivity
| |- (_ <= _)%nat => cbv [keysGenerated filter List.length]; lia
| |- exists tempDir, startOf _ _ =>
   first [ exists EmptyString; reflexivity | eexists; reflexivity ]
| |- _ = None -> _ =>
   intros H; first [ discriminate H
                   | repeat split; eexists; reflexivity ]
| |- _ = Some configNotFound -> _ =>
   intros H;
   first [ exfalso; unfold configNotFound, New, Errorf in H;
           cbn [append] in H; discriminate H
         | eexists; repeat split ]
| |- forall argv, _ =>
   cbv [commands flat_map app In];
   intros argv Hin Hs;
   repeat (destruct Hin as [<- | Hin]; [try discriminate Hs | ]);
   [ unfold servesWithCA; cbn; tauto .. | destruct Hin ]
end.
Qed.


(** C3, the part that holds: RestoreEtcdSnapshot asks for the snapshot
first, and when it is not there it returns the error and has done
nothing else. *)
Theorem restore_checks_the_snapshot_first {St}
(handle : forall X, Eff X -> St -> X * St) (s : St)
(snapshotPath containerName volumeName : string) :
let restore := RestoreEtcdSnapshot snapshotPath containerName volumeName in
exists err rest,
events handle restore s = Ev (Stat snapshotPath) err :: rest
/\ (IsNotExist err = true ->
rest = [] /\ result handle restore s = Some (snapshotNotFound snapshotPath)).
Proof.
intros restore.
exact (run_always handle restore _ s
   (RestoreEtcdSnapshot_always snapshotPath containerName volumeName)).
Qed.

(** C3, the part that fails, in every environment: when StartKubeAPIServer
reports the missing encryption configuration it has already removed
the container, created the volume, generated both keys and both
certificates, written the four files and run the helper container. *)
Theorem start_reports_the_missing_configuration_late {St}
(handle : forall X, Eff X -> St -> X * St) (s : St) (ParseIP : string -> IP)
(etcdEndpoint containerName volumeName hostIP outputDir : string) :
let start := StartKubeAPIServer ParseIP etcdEndpoint containerName volumeName
         hostIP outputDir in
result handle start s = Some configNotFound ->
exists tempDir,
commands (beforeStat encryptionConfigPath (events handle start s))
= [["docker"; "rm"; "-f"; containerName];
["docker"; "volume"; "create"; volumeName];
copyCommand volumeName tempDir]
/\ commonNames (beforeStat encryptionConfigPath (events handle start s))
= ["Kubernetes CA"; "Kubernetes Client"]
/\ keysGenerated (beforeStat encryptionConfigPath (events handle start s)) = 2%nat
/\ created (beforeStat encryptionConfigPath (events handle start s))
= issuedFiles tempDir.
Proof.
intros start Hr.
destruct (run_always handle start _ s
      (StartKubeAPIServer_always ParseIP etcdEndpoint containerName
         volumeName hostIP outputDir))
as (_ & _ & _ & _ & _ & Hlate).
exact (Hlate Hr).
Qed.

(** C3 at a concrete input: on a machine without the encryption
configuration, where every command succeeds, StartKubeAPIServer
returns the not-found error after seventeen side effects. *)
Theorem start_checks_the_configuration_after_side_effects :
let start := StartKubeAPIServer Sim.ParseIP "http://127.0.0.1:2379"
         "kube-apiserver" "kube-apiserver-certs" "10.0.0.5" "/tmp/out" in
let w := Sim.boot 1700000000000000000 1000 in
let before := beforeStat encryptionConfigPath (events Sim.handle start w) in
Sim.lookup encryptionConfigPath (Sim.files w) = None
/\ result Sim.handle start w = Some configNotFound
/\ commands before
= [["docker"; "rm"; "-f"; "kube-apiserver"];
["docker"; "volume"; "create"; "kube-apiserver-certs"];
copyCommand "kube-apiserver-certs" "/tmp/kube-apiserver-certs0001"]
/\ commonNames before = ["Kubernetes CA"; "Kubernetes Client"]
/\ created before = issuedFiles "/tmp/kube-apiserver-certs0001"
/\ List.length (filter sideEffect before) = 17%nat.
Proof. vm_compute. repeat split. Qed.

Lemma StartKubeAPIServer_succeeds ParseIP
etcdEndpoint containerName volumeName hostIP outputDir :
always (StartKubeAPIServer ParseIP etcdEndpoint containerName volumeName
      hostIP outputDir)
(fun r tr => etcdEndpoint = "" \/ allSucceeded tr = false \/ r = None).
Proof.
unfold StartKubeAPIServer, GenerateSelfSignedCAInVolume,
GenerateSelfSignedCAWithSAN.
destruct (String.eqb_spec etcdEndpoint "") as [Hempty | Hendpoint].
all: answers.
all: first
  [ left; assumption
  | right; right; reflexivity
  | right; left;
    cbn [allSucceeded forallb failed isError isLeft negb andb];
    rewrite ?andb_false_r; reflexivity ].
Qed.

Lemma last_is_member {A} (l : list A) (d : A) : l <> [] -> In (last l d) l.
Proof.
induction l as [ | a l IH]; intros H; [contradiction | ].
destruct l as [ | b l]; [left; reflexivity | ].
right. apply IH. discriminate.
Qed.

(** C10.  StartKubeAPIServer never asks for a certificate other than
the CA's and the client's, in this order, nor for more than two keys,
and it creates no file other than the four of the issuance; every
command that starts the API server hands it the CA certificate as TLS
certificate, client CA and service-account key, and the CA key as
TLS key and service-account signing key.  A run that returns no
error has made exactly the two certificates and the four files and
has started the server last, with the CA certificate and the CA key;
and with an endpoint, a run in which no step fails returns no
error. *)
Theorem no_server_certificate {St}
(handle : forall X, Eff X -> St -> X * St) (s : St) (ParseIP : string -> IP)
(etcdEndpoint containerName volumeName hostIP outputDir : string) :
let start := StartKubeAPIServer ParseIP etcdEndpoint containerName volumeName
         hostIP outputDir in
startOf (commonNames (events handle start s))
["Kubernetes CA"; "Kubernetes Client"]
/\ (keysGenerated (events handle start s) <= 2)%nat
/\ (exists tempDir, startOf (created (events handle start s)) (issuedFiles tempDir))
/\ (forall argv, In argv (commands (events handle start s)) ->
           startsServer argv = true -> servesWithCA argv)
/\ (result handle start s = None ->
commonNames (events handle start s) = ["Kubernetes CA"; "Kubernetes Client"]
/\ keysGenerated (events handle start s) = 2%nat
/\ (exists tempDir, created (events handle start s) = issuedFiles tempDir)
/\ startsServer (last (commands (events handle start s)) []) = true
/\ servesWithCA (last (commands (events handle start s)) []))
/\ (etcdEndpoint <> "" -> allSucceeded (events handle start s) = true ->
   result handle start s = None).
Proof.
intros start.
destruct (run_always handle start _ s
      (StartKubeAPIServer_always ParseIP etcdEndpoint containerName
         volumeName hostIP outputDir))
as (H1 & H2 & H3 & H4 & H5 & _).
pose proof (run_always handle start _ s
      (StartKubeAPIServer_succeeds ParseIP etcdEndpoint containerName
         volumeName hostIP outputDir)) as H6.
split; [exact H1 | ]. split; [exact H2 | ]. split; [exact H3 | ].
split; [exact H4 | ]. split.
2:{ intros Hne Hall. destruct H6 as [H6 | [H6 | H6]];
    [contradiction | congruence | exact H6]. }
intros Hr. destruct (H5 Hr) as (Hn & Hk & Hc & Hs).
split; [exact Hn | ]. split; [exact Hk | ]. split; [exact Hc | ].
split; [exact Hs | ].
apply H4; [ | exact Hs]. apply last_is_member.
intros E. rewrite E in Hs. discriminate Hs.
Qed.

Lemma no_server_certificate_witness :
let start := StartKubeAPIServer Sim.ParseIP "http://127.0.0.1:2379"
         "kube-apiserver" "kube-apiserver-certs" "10.0.0.5" "/tmp/out" in
let w := Sim.withConfig (Sim.boot 1700000000000000000 1000) in
allSucceeded (events Sim.handle start w) = true
/\ result Sim.handle start w = None
/\ commonNames (events Sim.handle start w) = ["Kubernetes CA"; "Kubernetes Client"]
/\ keysGenerated (events Sim.handle start w) = 2%nat
/\ (exists tempDir, created (events Sim.handle start w) = issuedFiles tempDir)
/\ startsServer (last (commands (events Sim.handle start w)) []) = true
/\ servesWithCA (last (commands (events Sim.handle start w)) []).
Proof.
intros start w.
destruct (no_server_certificate Sim.handle w Sim.ParseIP "http://127.0.0.1:2379"
        "kube-apiserver" "kube-apiserver-certs" "10.0.0.5" "/tmp/out")
as (_ & _ & _ & _ & Hdone & Hok).
assert (Hall : allSucceeded (events Sim.handle start w) = true)
  by (vm_compute; reflexivity).
assert (Hr : result Sim.handle start w = None)
  by (apply Hok; [discriminate | exact Hall]).
split; [exact Hall | ]. split; [exact Hr | ]. exact (Hdone Hr).
Defined.

Lemma start_reports_the_missing_configuration_late_witness :
let start := StartKubeAPIServer Sim.ParseIP "http://127.0.0.1:2379"
         "kube-apiserver" "kube-apiserver-certs" "10.0.0.5" "/tmp/out" in
let w := Sim.boot 1700000000000000000 1000 in
result Sim.handle start w = Some configNotFound
/\ exists tempDir,
commands (beforeStat encryptionConfigPath (events Sim.handle start w))
= [["docker"; "rm"; "-f"; "kube-apiserver"];
   ["docker"; "volume"; "create"; "kube-apiserver-certs"];
   copyCommand "kube-apiserver-certs" tempDir]
/\ commonNames (beforeStat encryptionConfigPath (events Sim.handle start w))
   = ["Kubernetes CA"; "Kubernetes Client"]
/\ keysGenerated (beforeStat encryptionConfigPath (events Sim.handle start w))
   = 2%nat
/\ created (beforeStat encryptionConfigPath (events Sim.handle start w))
   = issuedFiles tempDir.
Proof.
intros start w.
assert (Hr : result Sim.handle start w = Some configNotFound)
by (vm_compute; reflexivity).
split; [exact Hr | ].
exact (start_reports_the_missing_configuration_late Sim.handle w Sim.ParseIP
       "http://127.0.0.1:2379" "kube-apiserver" "kube-apiserver-certs"
       "10.0.0.5" "/tmp/out" Hr).
Defined.

(** GenerateClientCert, whatever the environment answers: it asks for
at most one certificate; the certificate's serial number is the first
reading of the clock in seconds, its window is 365 days and the time
between the second and the third reading, and its list of IP addresses
is the one address net.ParseIP gave for the host. *)
Theorem renewed_client_certificate {St}
(handle : forall X, Eff X -> St -> X * St) (s : St) (ParseIP : string -> IP)
(caCertPath caKeyPath clientCertPath clientKeyPath hostIP : string) :
let renew := GenerateClientCert ParseIP caCertPath caKeyPath
         clientCertPath clientKeyPath hostIP in
(List.length (certificateCalls (events handle renew s)) <= 1)%nat
/\ serials (events handle renew s)
 = map Unix (firstn (List.length (certificateCalls (events handle renew s)))
              (clockReadings (events handle renew s)))
/\ windowExcess (events handle renew s)
 = pairGaps (List.tl (clockReadings (events handle renew s)))
/\ Forall (fun ips => ips = [ParseIP hostIP]) (sans (events handle renew s)).
Proof.
intros renew.
destruct (run_always handle renew _ s
      (GenerateClientCert_always ParseIP caCertPath caKeyPath
         clientCertPath clientKeyPath hostIP))
as (Hunix & Hwindow & Hsans & Hone).
exact (conj Hone (conj Hunix (conj Hwindow Hsans))).
Qed.

(** A start that succeeds, on a machine that has the configuration. *)
Example start_on_a_prepared_machine :
let start := StartKubeAPIServer Sim.ParseIP "http://127.0.0.1:2379"
         "kube-apiserver" "kube-apiserver-certs" "10.0.0.5" "/tmp/out" in
let w := Sim.withConfig (Sim.boot 1700000000000000000 1000) in
result Sim.handle start w = None
/\ commonNames (events Sim.handle start w) = ["Kubernetes CA"; "Kubernetes Client"]
/\ last (commands (events Sim.handle start w)) []
= kubeAPIServerCommand "http://127.0.0.1:2379" "kube-apiserver"
 "kube-apiserver-certs" "/certs" "./encryption-config.json"
 "/certs/ca.crt" "/certs/ca.key".
Proof. vm_compute. repeat split. Qed.

(** What writePEMFile writes for a certificate or a key is what
GenerateClientCert decodes. *)
Lemma pemDecode_of_written (der : list byte) :
pemDecode (Pem.Encode "CERTIFICATE" der)
= Some {| Pem.Type_ := "CERTIFICATE"; Pem.Headers := []; Pem.Bytes := der |}
/\ pemDecode (Pem.Encode "EC PRIVATE KEY" der)
= Some {| Pem.Type_ := "EC PRIVATE KEY"; Pem.Headers := []; Pem.Bytes := der |}.
Proof.
unfold pemDecode.
destruct (PemFacts.program_blocks_round_trip der) as [-> ->].
split; reflexivity.
Qed.

End EtcdFacts.

(** ** strings.Fields: what a field is *)

Module StringsFacts.
Import Strings.
Local Open Scope string_scope.
Local Open Scope Z_scope.

Lemma asciiSpace_small c : asciiSpace c = true -> code c <= 32.
Proof.
  unfold asciiSpace. destruct (code c) as [ | p | p]; try discriminate.
  repeat match goal with
         | p : positive |- _ => destruct p; cbn; try discriminate
         end.
  all: intros _; lia.
Qed.

Lemma asciiSpace_IsSpace c : asciiSpace c = true -> IsSpace (code c) = true.
Proof.
  unfold asciiSpace. destruct (code c) as [ | p | p]; try discriminate.
  repeat match goal with
         | p : positive |- _ => destruct p; cbn; try discriminate
         end.
  all: intros _; reflexivity.
Qed.

Lemma cont_not_space c : cont c = true -> asciiSpace c = false.
Proof.
  unfold cont, locb. intros H. apply andb_prop in H as [H _].
  destruct (asciiSpace c) eqn:E; [ | reflexivity].
  apply asciiSpace_small in E. lia.
Qed.

(** The bytes a rune takes after its first are no white space of ASCII;
    and a rune that is no white space does not start with one. *)
Lemma rangeRune_bytes c rest rune width :
  rangeRune (String c rest) = (rune, width) ->
  (forall i c', (i < width - 1)%nat -> get i rest = Some c' -> asciiSpace c' = false)
  /\ (IsSpace rune = false -> asciiSpace c = false).
Proof.
  unfold rangeRune. destruct (code c <? RuneSelf) eqn:Ec.
  - intros [= <- <-]. split; [intros i c' Hi; cbn in Hi; lia | ].
    intros H. destruct (asciiSpace c) eqn:E; [ | reflexivity].
    rewrite (asciiSpace_IsSpace c E) in H. discriminate.
  - intros H.
    assert (Hc : asciiSpace c = false).
    { destruct (asciiSpace c) eqn:E; [ | reflexivity].
      apply asciiSpace_small in E. unfold RuneSelf in Ec.
      apply Z.ltb_ge in Ec. lia. }
    split; [ | intros _; exact Hc].
    unfold decoderune in H.
    repeat match type of H with
           | (if ?b then _ else _) = _ => destruct b eqn:?
           | match ?x with _ => _ end = _ => destruct x eqn:?
           | _ = _ => injection H as <- <-
           end.
    all: intros i c' Hi Hg; cbn in Hi; try lia.
    all: repeat match goal with
                | H : (_ && _)%bool = true |- _ => apply andb_prop in H as [? ?]
                end.
    all: repeat (destruct i as [ | i]; [cbn in Hg; injection Hg as <-;
                                        apply cont_not_space; assumption | ]).
    all: lia.
Qed.

Lemma get_tail c (rest : string) i : get (S i) (String c rest) = get i rest.
Proof. reflexivity. Qed.

(** The loop of FieldsFunc keeps its fields non-empty, inside the
    string and free of ASCII white space. *)
Lemma rangeLoop_good s :
  forall rest skip end_ start spans,
    0 <= end_ ->
    (forall i, get i rest = get (Z.to_nat end_ + i) s) ->
    Z.of_nat (String.length s) = end_ + Z.of_nat (String.length rest) ->
    (forall i c, (i < skip)%nat -> get i rest = Some c -> asciiSpace c = false) ->
    (0 <= start -> start < end_ /\ clean s start end_) ->
    Forall (good s) spans ->
    let '(start', spans') := rangeLoop IsSpace rest skip end_ start spans in
    Forall (good s) spans'
    /\ (0 <= start' ->
        start' < Z.of_nat (String.length s)
        /\ clean s start' (Z.of_nat (String.length s))).
Proof.
  induction rest as [ | c rest IH]; intros skip end_ start spans He Hget Hlen Hskip Hstart Hspans.
  - cbn [rangeLoop]. split; [exact Hspans | ].
    cbn [String.length] in Hlen. intros H0.
    destruct (Hstart H0) as [H1 H2].
    replace (Z.of_nat (String.length s)) with end_ by lia. split; assumption.
  - cbn [String.length] in Hlen.
    assert (Hget' : forall i, get i rest = get (Z.to_nat (end_ + 1) + i) s).
    { intros i. rewrite <- get_tail with (c := c). rewrite Hget.
      f_equal. lia. }
    assert (Hlen' : Z.of_nat (String.length s)
                    = end_ + 1 + Z.of_nat (String.length rest)) by lia.
    assert (Hhere : get (Z.to_nat end_) s = Some c).
    { rewrite <- (Nat.add_0_r (Z.to_nat end_)), <- Hget. reflexivity. }
    assert (Hext : forall a, a <= end_ -> clean s a end_ -> asciiSpace c = false ->
                             clean s a (end_ + 1)).
    { intros a Ha Hc Hn k c' Hk Hg.
      destruct (Z.eq_dec k end_) as [-> | Hne].
      - rewrite Hhere in Hg. injection Hg as <-. exact Hn.
      - apply (Hc k c'); [lia | exact Hg]. }
    assert (Hone : clean s end_ end_) by (intros k c' Hk; lia).
    cbn [rangeLoop]. destruct skip as [ | skip].
    + destruct (rangeRune (String c rest)) as [rune width] eqn:Er.
      destruct (rangeRune_bytes c rest rune width Er) as [Hcont Hc].
      destruct (IsSpace rune) eqn:Es.
      * destruct (0 <=? start) eqn:E0.
        -- apply Z.leb_le in E0. destruct (Hstart E0) as [H1 H2].
           apply IH; try assumption; try lia.
           ++ intros H. rewrite Z.lnot_nonneg in H. lia.
           ++ apply Forall_app. split; [exact Hspans | ].
              constructor; [ | constructor].
              unfold good. cbn [fst snd]. repeat split; try lia. exact H2.
        -- apply Z.leb_gt in E0.
           apply IH; try assumption; try lia.
      * specialize (Hc eq_refl).
        destruct (start <? 0) eqn:E0.
        -- apply IH; try assumption; try lia.
           intros _. split; [lia | ]. apply Hext; [lia | exact Hone | exact Hc].
        -- apply Z.ltb_ge in E0. destruct (Hstart E0) as [H1 H2].
           apply IH; try assumption; try lia.
           intros _. split; [lia | ]. apply Hext; [lia | exact H2 | exact Hc].
    + assert (Hc : asciiSpace c = false).
      { apply (Hskip 0%nat c); [lia | reflexivity]. }
      apply IH; try assumption; try lia.
      * intros i c' Hi Hg. apply (Hskip (S i) c'); [lia | exact Hg].
      * intros H0. destruct (Hstart H0) as [H1 H2].
        split; [lia | ]. apply Hext; [lia | exact H2 | exact Hc].
Qed.

Lemma get_list_ascii (f : string) :
  forall c, In c (list_ascii_of_string f) -> exists i, get i f = Some c.
Proof.
  induction f as [ | a f IH]; intros c H; [destruct H | ].
  cbn in H. destruct H as [-> | H].
  - exists 0%nat. reflexivity.
  - destruct (IH c H) as [i Hi]. exists (S i). exact Hi.
Qed.

Lemma get_some (s : string) : forall i, (i < String.length s)%nat -> get i s <> None.
Proof.
  induction s as [ | a s IH]; intros i H; [cbn in H; lia | ].
  destruct i as [ | i]; [discriminate | ].
  cbn [get]. apply IH. cbn [String.length] in H. lia.
Qed.

Lemma slice_field s span : good s span -> field (slice s (fst span) (snd span)).
Proof.
  destruct span as [a b]. unfold good. cbn [fst snd]. intros (Hab & Hb & Hc).
  unfold slice, field. split.
  - intros E.
    assert (H : get 0 (substring (Z.to_nat a) (Z.to_nat (b - a)) s) = None)
      by (rewrite E; reflexivity).
    rewrite substring_correct1 in H by lia.
    apply (get_some s (0 + Z.to_nat a)); [lia | exact H].
  - apply Forall_forall. intros c Hin.
    apply get_list_ascii in Hin as [i Hi].
    destruct (Nat.lt_ge_cases i (Z.to_nat (b - a))) as [Hlt | Hge].
    + rewrite substring_correct1 in Hi by exact Hlt.
      apply (Hc (Z.of_nat (i + Z.to_nat a)) c); [lia | ].
      rewrite Nat2Z.id. exact Hi.
    + rewrite substring_correct2 in Hi by exact Hge. discriminate Hi.
Qed.

(** strings.Fields gives fields. *)
Lemma Fields_fields s : Forall field (Fields s).
Proof.
  unfold Fields, FieldsFunc.
  assert (H := rangeLoop_good s s 0%nat 0 (-1) [] (Z.le_refl 0)
                 (fun i => eq_refl) ltac:(lia) ltac:(intros; lia) ltac:(lia)
                 (Forall_nil _)).
  destruct (rangeLoop IsSpace s 0 0 (-1) []) as [start spans].
  destruct H as [Hspans Hlast].
  assert (Hall : Forall (good s)
                     (if 0 <=? start
                      then (spans ++ [(start, Z.of_nat (String.length s))])%list
                      else spans)).
    { destruct (0 <=? start) eqn:E; [ | exact Hspans].
      apply Z.leb_le in E. destruct (Hlast E) as [H1 H2].
      apply Forall_app. split; [exact Hspans | ].
      constructor; [ | constructor].
      unfold good. cbn [fst snd]. repeat split; try lia. exact H2. }
  apply Forall_map. eapply Forall_impl; [ | exact Hall].
  intros span. apply slice_field.
Qed.

Lemma ascii_not_space c :
  (code c <? RuneSelf) = true -> asciiSpace c = false -> IsSpace (code c) = false.
Proof.
  unfold asciiSpace, RuneSelf. destruct (code c) as [ | p | p]; try reflexivity.
  repeat match goal with
         | p : positive |- _ => destruct p; cbn; try discriminate; try reflexivity
         end.
Qed.

(** The fields found stay. *)
Lemma rangeLoop_spans f :
  forall rest skip end_ start spans,
    exists more, snd (rangeLoop f rest skip end_ start spans) = (spans ++ more)%list.
Proof.
  induction rest as [ | c rest IH]; intros skip end_ start spans.
  - exists []. cbn. rewrite app_nil_r. reflexivity.
  - cbn [rangeLoop]. destruct skip as [ | skip]; [ | apply IH].
    destruct (rangeRune (String c rest)) as [rune width].
    destruct (f rune); [destruct (0 <=? start) | destruct (start <? 0)];
      try apply IH.
    destruct (IH (width - 1)%nat (end_ + 1) (Z.lnot start)
                (spans ++ [(start, end_)])%list) as [more H].
    exists ((start, end_) :: more). rewrite H, <- app_assoc. reflexivity.
Qed.

Lemma rangeLoop_blank :
  forall rest end_ start spans,
    blank rest = true -> start < 0 ->
    rangeLoop IsSpace rest 0 end_ start spans = (start, spans).
Proof.
  induction rest as [ | c rest IH]; intros end_ start spans Hb Hs; [reflexivity | ].
  unfold blank in Hb. cbn [list_ascii_of_string forallb] in Hb.
  apply andb_prop in Hb as [Hc Hb].
  cbn [rangeLoop rangeRune].
  replace (code c <? RuneSelf) with true
    by (symmetry; apply Z.ltb_lt; apply asciiSpace_small in Hc; unfold RuneSelf; lia).
  rewrite (asciiSpace_IsSpace c Hc).
  replace (0 <=? start) with false by (symmetry; apply Z.leb_gt; exact Hs).
  cbn [Nat.sub]. apply IH; assumption.
Qed.

(** Of white space alone strings.Fields makes no field. *)
Lemma Fields_blank s : blank s = true -> Fields s = [].
Proof.
  intros H. unfold Fields, FieldsFunc.
  rewrite rangeLoop_blank by (assumption || lia). reflexivity.
Qed.

Lemma rangeLoop_word :
  forall f tail end_ start spans,
    word f = true -> 0 <= end_ ->
    rangeLoop IsSpace (f ++ tail) 0 end_ start spans
    = rangeLoop IsSpace tail 0 (end_ + Z.of_nat (String.length f))
        (match f with
         | EmptyString => start
         | String _ _ => if start <? 0 then end_ else start
         end) spans.
Proof.
  induction f as [ | c f IH]; intros tail end_ start spans Hw He.
  - cbn [append String.length]. rewrite Z.add_0_r. reflexivity.
  - unfold word in Hw. cbn [list_ascii_of_string forallb] in Hw.
    apply andb_prop in Hw as [Hc Hw]. apply andb_prop in Hc as [Hc1 Hc2].
    apply negb_true_iff in Hc2.
    cbn [append rangeLoop rangeRune]. rewrite Hc1.
    rewrite (ascii_not_space c Hc1 Hc2). cbn [Nat.sub].
    replace (end_ + Z.of_nat (String.length (String c f)))
      with (end_ + 1 + Z.of_nat (String.length f))
      by (cbn [String.length]; lia).
    destruct (start <? 0) eqn:Es.
    + rewrite IH by (assumption || lia).
      destruct f; [reflexivity | ].
      replace (end_ <? 0) with false by (symmetry; apply Z.ltb_ge; lia).
      reflexivity.
    + rewrite IH by (assumption || lia).
      destruct f; [reflexivity | ]. rewrite Es. reflexivity.
Qed.

Lemma substring_prefix (f tail : string) :
  substring 0 (String.length f) (f ++ tail) = f.
Proof.
  induction f as [ | c f IH]; [destruct tail; reflexivity | ].
  cbn [String.length append substring]. rewrite IH. reflexivity.
Qed.

(** The first field of a string that starts with a word and white
    space is the word. *)
Lemma Fields_first f sp tail :
  f <> "" -> word f = true -> asciiSpace sp = true ->
  exists more, Fields (f ++ String sp tail) = f :: more.
Proof.
  intros Hf Hw Hsp. unfold Fields, FieldsFunc.
  rewrite rangeLoop_word by (assumption || lia).
  destruct f as [ | c f]; [contradiction | ].
  cbn [Z.ltb Z.compare]. cbn [rangeLoop rangeRune].
  replace (code sp <? RuneSelf) with true
    by (symmetry; apply Z.ltb_lt; apply asciiSpace_small in Hsp; unfold RuneSelf; lia).
  rewrite (asciiSpace_IsSpace sp Hsp). cbn [Z.leb Z.compare Nat.sub app].
  set (n := Z.of_nat (String.length (String c f))).
  destruct (rangeLoop_spans IsSpace tail 0%nat (0 + n + 1) (Z.lnot 0) [(0, 0 + n)])
    as [more H].
  destruct (rangeLoop IsSpace tail 0 (0 + n + 1) (Z.lnot 0) [(0, 0 + n)])
    as [start spans].
  cbn [snd] in H. subst spans.
  exists (map (fun span => slice (String c f ++ String sp tail) (fst span) (snd span))
            (if 0 <=? start
             then (more ++ [(start, Z.of_nat (String.length
                                               (String c f ++ String sp tail)))])%list
             else more)).
  assert (Hs : slice (String c f ++ String sp tail) 0 (0 + n) = String c f).
  { unfold slice. subst n. rewrite Z.add_0_l, Z.sub_0_r, Nat2Z.id.
    apply substring_prefix. }
  destruct (0 <=? start); cbn [app map fst snd]; rewrite ?Hs; try reflexivity.
Qed.

End StringsFacts.

(** ** Restore, start and cleanup: what is run, and what is passed over *)

Module CommandFacts.
Import Go Trace Props Etcd GoFacts EtcdFacts Outcome Docker Cleanup.
Local Open Scope string_scope.

(** The cases of a command's membership in a short list. *)
Ltac members H :=
  repeat (destruct H as [H | H]; [try discriminate H | ]); try contradiction.

Lemma RestoreEtcdSnapshot_commands snapshotPath containerName volumeName :
  always (RestoreEtcdSnapshot snapshotPath containerName volumeName)
    (fun r tr =>
       (forall cause, In (pullCommand, Some cause) (ran tr) ->
                      r = Some (Errorf "failed to pull etcd Docker image: " cause)
                      /\ commands tr = [pullCommand])
       /\ (r = None <->
           foundMissing tr = false
           /\ incl (failedCommands tr)
                [removeContainer containerName; removeVolume volumeName])
       /\ (r = None ->
           commands tr = restoreCommands snapshotPath containerName volumeName)).
Proof.
  unfold RestoreEtcdSnapshot. answers.
  all: split; [ | split].
  all: lazymatch goal with
       | |- forall cause, In _ _ -> _ =>
           intros cause H; cbn [ran flat_map app In] in H; members H;
           try (injection H as <-; split; reflexivity)
       | |- _ <-> _ => idtac
       | |- _ = None -> _ => intros H; first [discriminate H | reflexivity]
       end.
  all: unfold foundMissing, failedCommands;
    cbn [stats ran flat_map app existsb snd fst IsNotExist orb].
  all: split;
    [ intros H; first [discriminate H | idtac]
    | intros [Hm Hf]; first [discriminate Hm | idtac] ].
  all: try reflexivity.
  all: repeat match goal with
              | x : option error |- _ => destruct x
              end; cbn [flat_map app snd fst] in *.
  all: try (split; [reflexivity | ]; intros c Hc; cbn in Hc |- *; tauto).
  all: exfalso; repeat match goal with
                       | H : incl (_ :: _) _ |- _ =>
                           apply incl_cons_inv in H; destruct H as [?Hin H]
                       end;
    repeat match goal with
           | Hin : In _ [_; _] |- _ => members Hin
           end.
Qed.

(** X4.  When the image cannot be pulled, RestoreEtcdSnapshot returns the
    error of the pull and has run nothing but the pull: the container
    and the volume that exist are left as they are. *)
Theorem restore_stops_at_a_failed_pull {St}
  (handle : forall X, Eff X -> St -> X * St) (s : St)
  (snapshotPath containerName volumeName : string) (cause : error) :
  let restore := RestoreEtcdSnapshot snapshotPath containerName volumeName in
  In (pullCommand, Some cause) (ran (events handle restore s)) ->
  result handle restore s
  = Some (Errorf "failed to pull etcd Docker image: " cause)
  /\ commands (events handle restore s) = [pullCommand].
Proof.
  intros restore H.
  destruct (run_always handle restore _ s
              (RestoreEtcdSnapshot_commands snapshotPath containerName volumeName))
    as (Hpull & _).
  exact (Hpull cause H).
Qed.

Lemma restore_stops_at_a_failed_pull_witness :
  let restore := RestoreEtcdSnapshot "/backup/snapshot.db" "etcd-restore" "etcd-data" in
  let w := Machines.breaking
             (Machines.holding (Sim.boot 1700000000000000000 1000)
                "/backup/snapshot.db" [x00])
             [pullCommand] in
  In (pullCommand, Some Sim.exitStatus1) (ran (events Sim.handle restore w))
  /\ result Sim.handle restore w
     = Some (Errorf "failed to pull etcd Docker image: " Sim.exitStatus1)
  /\ commands (events Sim.handle restore w) = [pullCommand].
Proof.
  intros restore w.
  assert (H : In (pullCommand, Some Sim.exitStatus1)
                (ran (events Sim.handle restore w)))
    by (vm_compute; left; reflexivity).
  split; [exact H | ].
  exact (restore_stops_at_a_failed_pull Sim.handle w "/backup/snapshot.db"
           "etcd-restore" "etcd-data" Sim.exitStatus1 H).
Defined.

(** X5.  RestoreEtcdSnapshot returns no error exactly when os.Stat did not
    answer that the snapshot is missing and no command failed but, at
    most, the removal of the old container and of the old volume: these
    two failures are passed over, and so is an os.Stat that fails for
    another reason.  It has then run the five commands of a restore,
    in order. *)
Theorem restore_passes_over_failed_removals {St}
  (handle : forall X, Eff X -> St -> X * St) (s : St)
  (snapshotPath containerName volumeName : string) :
  let restore := RestoreEtcdSnapshot snapshotPath containerName volumeName in
  (result handle restore s = None <->
   foundMissing (events handle restore s) = false
   /\ incl (failedCommands (events handle restore s))
        [removeContainer containerName; removeVolume volumeName])
  /\ (result handle restore s = None ->
      commands (events handle restore s)
      = restoreCommands snapshotPath containerName volumeName).
Proof.
  intros restore.
  destruct (run_always handle restore _ s
              (RestoreEtcdSnapshot_commands snapshotPath containerName volumeName))
    as (_ & Hiff & Hcommands).
  split; assumption.
Qed.

Lemma StartKubeAPIServer_commands ParseIP
  etcdEndpoint containerName volumeName hostIP outputDir :
  always (StartKubeAPIServer ParseIP etcdEndpoint containerName volumeName
            hostIP outputDir)
    (fun r tr =>
       (etcdEndpoint = "" ->
        r = Some endpointRequired
        /\ commands tr = [removeContainer containerName]
        /\ List.length (filter sideEffect tr) = 1%nat)
       /\ (r = Some endpointRequired -> etcdEndpoint = "")
       /\ (r = None ->
           exists tempDir statErr,
             commands tr
             = [removeContainer containerName; createVolume volumeName;
                copyCommand volumeName tempDir;
                kubeAPIServerCommand etcdEndpoint containerName volumeName
                  "/certs" encryptionConfigPath "/certs/ca.crt" "/certs/ca.key"]
             /\ stats tr = [(encryptionConfigPath, statErr)]
             /\ IsNotExist statErr = false
             /\ created tr = issuedFiles tempDir
             /\ removed tr = [tempDir])).
Proof.
  unfold StartKubeAPIServer, GenerateSelfSignedCAInVolume,
    GenerateSelfSignedCAWithSAN.
  destruct (String.eqb_spec etcdEndpoint "") as [Hempty | Hendpoint].
  all: answers.
  all: split; [ | split].
  all: lazymatch goal with
       | |- _ = EmptyString -> _ =>
           intros H; first [ contradiction
                           | split; [reflexivity | split; reflexivity] ]
       | |- _ = Some endpointRequired -> _ =>
           intros H;
           first [ assumption
                 | exfalso; unfold endpointRequired, configNotFound, New, Errorf in H;
                   cbn [append] in H; discriminate H ]
       | |- _ = None -> _ =>
           intros H;
           first [ discriminate H
                 | do 2 eexists;
                   split; [reflexivity | ];
                   split; [reflexivity | ];
                   split; [reflexivity | ];
                   split; reflexivity ]
       end.
Qed.

(** X6.  With an empty endpoint StartKubeAPIServer returns the error that
    asks for one, and it returns that error in no other case; but it
    has then removed the container of the given name, its one side
    effect. *)
Theorem start_without_endpoint_removes_the_container {St}
  (handle : forall X, Eff X -> St -> X * St) (s : St) (ParseIP : string -> IP)
  (etcdEndpoint containerName volumeName hostIP outputDir : string) :
  let start := StartKubeAPIServer ParseIP etcdEndpoint containerName volumeName
                 hostIP outputDir in
  (etcdEndpoint = "" ->
   result handle start s = Some endpointRequired
   /\ commands (events handle start s) = [removeContainer containerName]
   /\ List.length (filter sideEffect (events handle start s)) = 1%nat)
  /\ (result handle start s = Some endpointRequired -> etcdEndpoint = "").
Proof.
  intros start.
  destruct (run_always handle start _ s
              (StartKubeAPIServer_commands ParseIP etcdEndpoint containerName
                 volumeName hostIP outputDir))
    as (Hempty & Honly & _).
  split; assumption.
Qed.

(** X7.  A start that returns no error has run four commands, in order:
    the removal of the container, the creation of the volume, the
    copy of the certificates into the volume and the API server with
    the given endpoint.  It has made the four files of the issuance
    in one temporary directory and removed that directory; and os.Stat
    of the encryption configuration did not answer that the file is
    missing. *)
Theorem start_runs_four_commands {St}
  (handle : forall X, Eff X -> St -> X * St) (s : St) (ParseIP : string -> IP)
  (etcdEndpoint containerName volumeName hostIP outputDir : string) :
  let start := StartKubeAPIServer ParseIP etcdEndpoint containerName volumeName
                 hostIP outputDir in
  result handle start s = None ->
  exists tempDir statErr,
    commands (events handle start s)
    = [removeContainer containerName; createVolume volumeName;
       copyCommand volumeName tempDir;
       kubeAPIServerCommand etcdEndpoint containerName volumeName
         "/certs" encryptionConfigPath "/certs/ca.crt" "/certs/ca.key"]
    /\ stats (events handle start s) = [(encryptionConfigPath, statErr)]
    /\ IsNotExist statErr = false
    /\ created (events handle start s) = issuedFiles tempDir
    /\ removed (events handle start s) = [tempDir].
Proof.
  intros start Hr.
  destruct (run_always handle start _ s
              (StartKubeAPIServer_commands ParseIP etcdEndpoint containerName
                 volumeName hostIP outputDir))
    as (_ & _ & Hdone).
  exact (Hdone Hr).
Qed.

Lemma start_runs_four_commands_witness :
  let start := StartKubeAPIServer Sim.ParseIP "http://127.0.0.1:2379"
                 "kube-apiserver" "kube-apiserver-certs" "10.0.0.5" "/tmp/out" in
  let w := Sim.withConfig (Sim.boot 1700000000000000000 1000) in
  result Sim.handle start w = None
  /\ exists tempDir statErr,
      commands (events Sim.handle start w)
      = [removeContainer "kube-apiserver"; createVolume "kube-apiserver-certs";
         copyCommand "kube-apiserver-certs" tempDir;
         kubeAPIServerCommand "http://127.0.0.1:2379" "kube-apiserver"
           "kube-apiserver-certs" "/certs" encryptionConfigPath
           "/certs/ca.crt" "/certs/ca.key"]
      /\ stats (events Sim.handle start w) = [(encryptionConfigPath, statErr)]
      /\ IsNotExist statErr = false
      /\ created (events Sim.handle start w) = issuedFiles tempDir
      /\ removed (events Sim.handle start w) = [tempDir].
Proof.
  intros start w.
  assert (Hr : result Sim.handle start w = None) by (vm_compute; reflexivity).
  split; [exact Hr | ].
  exact (start_runs_four_commands Sim.handle w Sim.ParseIP "http://127.0.0.1:2379"
           "kube-apiserver" "kube-apiserver-certs" "10.0.0.5" "/tmp/out" Hr).
Defined.

Lemma Cleanup_always (name : string) :
  always (CleanupEtcd name)
    (fun r tr =>
       exists answer,
         ran tr = [(removeContainer name, answer)]
         /\ match answer with
            | None => r = None
            | Some e =>
                r = Some (Errorf ("failed to clean up etcd container " ++ name ++ ": ") e)
            end
         /\ List.length (filter sideEffect tr) = 1%nat)
  /\ always (CleanupKubeAPIServer name)
       (fun r tr =>
          exists answer,
            ran tr = [(removeContainer name, answer)]
            /\ match answer with
               | None => r = None
               | Some e =>
                   r = Some (Errorf ("failed to clean up kube-apiserver container "
                                     ++ name ++ ": ") e)
               end
            /\ List.length (filter sideEffect tr) = 1%nat)
  /\ always (CleanupVolume name)
       (fun r tr =>
          exists answer,
            ran tr = [(removeVolume name, answer)]
            /\ match answer with
               | None => r = None
               | Some e =>
                   r = Some (Errorf ("failed to clean up Docker volume " ++ name ++ ": ") e)
               end
            /\ List.length (filter sideEffect tr) = 1%nat).
Proof.
  unfold CleanupEtcd, CleanupKubeAPIServer, CleanupVolume.
  split; [ | split]; answers.
  all: eexists; split; [reflexivity | split; reflexivity].
Qed.

(** X8.  Each of the three cleanup functions runs one command and has no
    other side effect: [docker rm -f] on the container for the etcd
    and for the API server alike, [docker volume rm] for the volume.
    It returns no error when the command succeeds, and otherwise the
    error of the command after the name of what it was to remove: the
    failure that RestoreEtcdSnapshot passes over is reported here. *)
Theorem cleanup_runs_one_command {St}
  (handle : forall X, Eff X -> St -> X * St) (s : St) (name : string) :
  (exists answer,
     ran (events handle (CleanupEtcd name) s) = [(removeContainer name, answer)]
     /\ match answer with
        | None => result handle (CleanupEtcd name) s = None
        | Some e =>
            result handle (CleanupEtcd name) s
            = Some (Errorf ("failed to clean up etcd container " ++ name ++ ": ") e)
        end
     /\ List.length (filter sideEffect (events handle (CleanupEtcd name) s)) = 1%nat)
  /\ (exists answer,
        ran (events handle (CleanupKubeAPIServer name) s)
        = [(removeContainer name, answer)]
        /\ match answer with
           | None => result handle (CleanupKubeAPIServer name) s = None
           | Some e =>
               result handle (CleanupKubeAPIServer name) s
               = Some (Errorf ("failed to clean up kube-apiserver container "
                               ++ name ++ ": ") e)
           end
        /\ List.length (filter sideEffect (events handle (CleanupKubeAPIServer name) s))
           = 1%nat)
  /\ (exists answer,
        ran (events handle (CleanupVolume name) s) = [(removeVolume name, answer)]
        /\ match answer with
           | None => result handle (CleanupVolume name) s = None
           | Some e =>
               result handle (CleanupVolume name) s
               = Some (Errorf ("failed to clean up Docker volume " ++ name ++ ": ") e)
           end
        /\ List.length (filter sideEffect (events handle (CleanupVolume name) s))
           = 1%nat).
Proof.
  destruct (Cleanup_always name) as (H1 & H2 & H3).
  split; [ | split].
  - exact (run_always handle _ _ s H1).
  - exact (run_always handle _ _ s H2).
  - exact (run_always handle _ _ s H3).
Qed.

Lemma StartKubeAPIServer_issuance ParseIP
  etcdEndpoint containerName volumeName hostIP outputDir :
  always (StartKubeAPIServer ParseIP etcdEndpoint containerName volumeName
            hostIP outputDir)
    (fun r tr =>
       chain (certificateCalls tr)
       /\ startOf (serials tr) [1; 2]
       /\ Forall (fun ips => ips = [ParseIP hostIP]) (sans tr)
       /\ (r = None -> List.length (certificateCalls tr) = 2%nat)).
Proof.
  unfold StartKubeAPIServer, GenerateSelfSignedCAInVolume,
    GenerateSelfSignedCAWithSAN.
  destruct (etcdEndpoint =? "")%string.
  all: answers.
  all: split; [ | split; [ | split]].
  all: lazymatch goal with
       | |- chain _ => cbn; unfold selfSignedCA, signedBy; cbn; tauto
       | |- startOf _ _ => reflexivity
       | |- Forall _ _ => cbn; repeat constructor
       | |- _ = None -> _ => intros H; first [discriminate H | reflexivity]
       end.
Qed.

(** X22.  The host address handed to StartKubeAPIServer is the one the
    certificates are issued for: every certificate a start asks for
    carries the parsed address as its list of IP addresses; the
    certificates are a self-signed CA with serial number 1 and a client
    certificate under it with serial number 2, and a start that returns
    no error has asked for both. *)
Theorem start_issues_for_the_given_host {St}
  (handle : forall X, Eff X -> St -> X * St) (s : St) (ParseIP : string -> IP)
  (etcdEndpoint containerName volumeName hostIP outputDir : string) :
  let start := StartKubeAPIServer ParseIP etcdEndpoint containerName volumeName
                 hostIP outputDir in
  chain (certificateCalls (events handle start s))
  /\ startOf (serials (events handle start s)) [1; 2]
  /\ Forall (fun ips => ips = [ParseIP hostIP]) (sans (events handle start s))
  /\ (result handle start s = None ->
      List.length (certificateCalls (events handle start s)) = 2%nat).
Proof.
  intros start.
  exact (run_always handle start _ s
           (StartKubeAPIServer_issuance ParseIP etcdEndpoint containerName
              volumeName hostIP outputDir)).
Qed.

End CommandFacts.

(** ** Files, directories and certificates: what is made, and what is
    cleared away *)

Module FileFacts.
Import Go Trace Props Etcd GoFacts EtcdFacts Outcome Docker.
Local Open Scope string_scope.

Lemma pemDecode_readable ty der :
  readable ty der ->
  pemDecode (Pem.Encode ty der)
  = Some {| Pem.Type_ := ty; Pem.Headers := []; Pem.Bytes := der |}.
Proof.
  intros (Hnl & _ & Hcolon). unfold pemDecode.
  rewrite PemFacts.Decode_Encode_bytes; [reflexivity | | ].
  - apply PemFacts.mem_false. exact Hnl.
  - destruct Hcolon as [H | H]; [left; exact H | right].
    apply PemFacts.mem_false. exact H.
Qed.

(** The outcome and the failures of a run to its end. *)
Ltac outcome :=
  unfold succeededButCleanup;
  cbn [forallb failed isClose isRemoveAll isError isLeft negb orb andb];
  rewrite ?orb_true_r, ?orb_false_r, ?andb_false_r, ?andb_true_r;
  cbn [andb];
  split; intros H; first [discriminate H | reflexivity].

Section Issuance.
Variable ParseIP : string -> IP.
Variables caCertPath caKeyPath clientCertPath clientKeyPath hostIP : string.

Let issue := GenerateSelfSignedCAWithSAN ParseIP caCertPath caKeyPath
               clientCertPath clientKeyPath hostIP.

Let renew := GenerateClientCert ParseIP caCertPath caKeyPath
               clientCertPath clientKeyPath hostIP.

Lemma issuance_files :
  always issue
    (fun r tr =>
       (map fst (written tr) = opened tr /\ closed tr = opened tr)
       /\ (r = None <-> succeededButCleanup tr = true)
       /\ roles (certificateCalls tr)).
Proof.
  unfold issue, GenerateSelfSignedCAWithSAN.
  answers.
  all: split; [split; reflexivity | split].
  all: lazymatch goal with
       | |- _ <-> _ =>
           outcome
       | |- roles _ =>
           cbn [certificateCalls flat_map app roles template];
           unfold authority, clientLeaf; cbn; tauto
       end.
Qed.

Lemma renewal_files :
  always renew
    (fun r tr =>
       (map fst (written tr) = opened tr /\ closed tr = rev (opened tr))
       /\ (certificateCalls tr = []
           \/ exists c caPEM keyPEM caBlock keyBlock clientKey,
               certificateCalls tr = [c]
               /\ filesRead tr = [(caCertPath, caPEM); (caKeyPath, keyPEM)]
               /\ pemDecode caPEM = Some caBlock
               /\ pemDecode keyPEM = Some keyBlock
               /\ certificatesToParse tr = [Pem.Bytes caBlock]
               /\ keysToParse tr = [Pem.Bytes keyBlock]
               /\ certificatesParsed tr = [parent c]
               /\ keysParsed tr = [priv c]
               /\ keysMade tr = [clientKey]
               /\ pub c = PublicKey_ clientKey
               /\ clientLeaf (template c))
       /\ (forall ty1 der1 ty2 der2,
             readable ty1 der1 -> readable ty2 der2 ->
             filesRead tr = [(caCertPath, Pem.Encode ty1 der1);
                             (caKeyPath, Pem.Encode ty2 der2)] ->
             certificatesToParse tr = [der1] /\ keysToParse tr = [der2])
       /\ (issued tr = [] -> created tr = [] /\ written tr = [] /\ r <> None)
       /\ (r = None <->
           succeededButCleanup tr = true /\ certificateCalls tr <> [])).
Proof.
  unfold renew, GenerateClientCert.
  repeat first
    [ answer
    | lazymatch goal with
      | |- context [pemDecode ?x] => destruct (pemDecode x) as [? | ] eqn:?
      end ].
  all: unfold_program.
  all: split; [split; reflexivity | split; [ | split; [ | split]]].
  all: lazymatch goal with
       | |- _ <-> _ =>
           unfold succeededButCleanup;
           cbn [forallb failed isClose isRemoveAll isError isLeft negb orb andb
                certificateCalls flat_map app];
           rewrite ?orb_true_r, ?orb_false_r, ?andb_false_r, ?andb_true_r;
           cbn [andb];
           split;
           [ intros H; first [ discriminate H | split; [reflexivity | discriminate] ]
           | intros (H & Hc);
             first [ discriminate H
                   | exfalso; apply Hc; reflexivity
                   | reflexivity ] ]
       | |- _ \/ _ =>
           first [ left; reflexivity
                 | right; do 6 eexists;
                   split; [reflexivity | ];
                   split; [reflexivity | ];
                   split; [eassumption | ];
                   split; [eassumption | ];
                   split; [reflexivity | ];
                   split; [reflexivity | ];
                   split; [reflexivity | ];
                   split; [reflexivity | ];
                   split; [reflexivity | ];
                   split; [reflexivity | ];
                   unfold clientLeaf; cbn; tauto ]
       | |- forall ty1 der1 ty2 der2, _ =>
           intros ty1 der1 ty2 der2 H1 H2 H;
           cbn [filesRead flat_map app] in H;
           first [ discriminate H
                 | injection H as -> ->;
                   repeat match goal with
                          | E : pemDecode (Pem.Encode _ _) = _ |- _ =>
                              rewrite pemDecode_readable in E by assumption;
                              first [discriminate E | injection E as <-]
                          end;
                   split; reflexivity ]
       | |- issued _ = [] -> _ =>
           intros H; first [ discriminate H
                           | split; [reflexivity | split; [reflexivity | discriminate]] ]
       end.
Qed.

End Issuance.

Lemma inVolume_directory ParseIP volumeName volumeCertDir hostIP :
  always (GenerateSelfSignedCAInVolume ParseIP volumeName volumeCertDir hostIP)
    (fun r tr =>
       inTemporaryDirectory "kube-apiserver-certs" r tr
         (fun tempDir body =>
            startOf (created body) (issuedFiles tempDir)
            /\ startOf (commands body) [copyInto volumeName volumeCertDir tempDir]
            /\ (r = None ->
                created body = issuedFiles tempDir
                /\ commands body = [copyInto volumeName volumeCertDir tempDir]))
       /\ (r = None <-> succeededButCleanup tr = true)).
Proof.
  unfold GenerateSelfSignedCAInVolume, GenerateSelfSignedCAWithSAN.
  answers.
  all: split; [ | outcome].
  all: lazymatch goal with
       | |- inTemporaryDirectory _ _ [_] _ =>
           left; eexists; split; reflexivity
       | |- inTemporaryDirectory _ _ (_ :: ?rest) _ =>
           right; eexists; exists (removelast rest); eexists;
           split; [cbn [removelast]; reflexivity | ];
           cbn [removelast];
           split; [reflexivity | ];
           split; [reflexivity | ];
           split; [reflexivity | ];
           intros H; first [discriminate H | split; reflexivity]
       end.
Qed.

Lemma kubeconfig_directory kubeconfigPath serverURL containerName :
  always (GenerateKubeconfig kubeconfigPath serverURL containerName)
    (fun r tr =>
       (map fst (written tr) = opened tr /\ closed tr = opened tr)
       /\ inTemporaryDirectory "kubeconfig-certs" r tr
            (fun tempDir body =>
               startOf (commands body) (copies containerName tempDir)
               /\ startOf (map fst (filesRead body))
                    (map (fun argv => last argv "") (copies containerName tempDir))
               /\ startOf (created body) [kubeconfigPath])
       /\ (r = None <-> succeededButCleanup tr = true)).
Proof.
  unfold GenerateKubeconfig.
  destruct (Template.Parse kubeconfigTemplate) as [tmpl | ] eqn:P;
    [ | rewrite kubeconfigTemplate_parses in P; discriminate P].
  repeat answer.
  all: try (rewrite (kubeconfig_execute _ tmpl P);
            cbn [ServerURL CACertData ClientCertData ClientKeyData];
            repeat answer).
  all: cbn [always]; split; [split; reflexivity | split; [ | outcome]].
  all: lazymatch goal with
       | |- inTemporaryDirectory _ _ [_] _ =>
           left; eexists; split; reflexivity
       | |- inTemporaryDirectory _ _ (_ :: ?rest) _ =>
           right; eexists; exists (removelast rest); eexists;
           split; [cbn [removelast]; reflexivity | ];
           cbn [removelast];
           split; [reflexivity | ];
           split; [reflexivity | ];
           split; reflexivity
       end.
Qed.

(** X9.  Every file that GenerateSelfSignedCAWithSAN (through writePEMFile),
    GenerateClientCert or GenerateKubeconfig has os.Create give is
    written once and closed before the function returns, whatever
    fails: in the order of opening by the issuance and the kubeconfig,
    last opened first by GenerateClientCert. *)
Theorem created_files_are_written_and_closed {St}
  (handle : forall X, Eff X -> St -> X * St) (s : St) (ParseIP : string -> IP)
  (caCertPath caKeyPath clientCertPath clientKeyPath hostIP : string)
  (kubeconfigPath serverURL containerName : string) :
  let issue := events handle
                 (GenerateSelfSignedCAWithSAN ParseIP caCertPath caKeyPath
                    clientCertPath clientKeyPath hostIP) s in
  let renew := events handle
                 (GenerateClientCert ParseIP caCertPath caKeyPath
                    clientCertPath clientKeyPath hostIP) s in
  let config := events handle
                  (GenerateKubeconfig kubeconfigPath serverURL containerName) s in
  (map fst (written issue) = opened issue /\ closed issue = opened issue)
  /\ (map fst (written renew) = opened renew /\ closed renew = rev (opened renew))
  /\ (map fst (written config) = opened config /\ closed config = opened config).
Proof.
  intros issue renew config. subst issue renew config.
  split; [ | split].
  - exact (proj1 (run_always handle _ _ s
                    (issuance_files ParseIP caCertPath caKeyPath clientCertPath
                       clientKeyPath hostIP))).
  - exact (proj1 (run_always handle _ _ s
                    (renewal_files ParseIP caCertPath caKeyPath clientCertPath
                       clientKeyPath hostIP))).
  - exact (proj1 (run_always handle _ _ s
                    (kubeconfig_directory kubeconfigPath serverURL containerName))).
Qed.

(** X10.  GenerateSelfSignedCAWithSAN, GenerateSelfSignedCAInVolume and
    GenerateKubeconfig return no error exactly when no step failed
    but, at most, the closing of a file or the removal of the temporary
    directory: the failures of the deferred calls are not reported. *)
Theorem deferred_failures_are_passed_over {St}
  (handle : forall X, Eff X -> St -> X * St) (s : St) (ParseIP : string -> IP)
  (caCertPath caKeyPath clientCertPath clientKeyPath hostIP : string)
  (volumeName volumeCertDir kubeconfigPath serverURL containerName : string) :
  let issue := GenerateSelfSignedCAWithSAN ParseIP caCertPath caKeyPath
                 clientCertPath clientKeyPath hostIP in
  let inVolume := GenerateSelfSignedCAInVolume ParseIP volumeName volumeCertDir
                    hostIP in
  let config := GenerateKubeconfig kubeconfigPath serverURL containerName in
  (result handle issue s = None <->
   succeededButCleanup (events handle issue s) = true)
  /\ (result handle inVolume s = None <->
      succeededButCleanup (events handle inVolume s) = true)
  /\ (result handle config s = None <->
      succeededButCleanup (events handle config s) = true).
Proof.
  intros issue inVolume config. split; [ | split].
  - exact (proj1 (proj2 (run_always handle _ _ s
                           (issuance_files ParseIP caCertPath caKeyPath clientCertPath
                              clientKeyPath hostIP)))).
  - exact (proj2 (run_always handle inVolume _ s
                    (inVolume_directory ParseIP volumeName volumeCertDir hostIP))).
  - exact (proj2 (proj2 (run_always handle config _ s
                           (kubeconfig_directory kubeconfigPath serverURL
                              containerName)))).
Qed.

(** X11.  Of the certificates an issuance asks for, the first is a CA with
    valid basic constraints and the right to sign certificates, and the
    second is none: it is no CA, may not sign certificates, and has
    client authentication as its one extended use.  There is no
    third. *)
Theorem only_the_first_certificate_is_a_ca {St}
  (handle : forall X, Eff X -> St -> X * St) (s : St) (ParseIP : string -> IP)
  (caCertPath caKeyPath clientCertPath clientKeyPath hostIP : string) :
  let issue := GenerateSelfSignedCAWithSAN ParseIP caCertPath caKeyPath
                 clientCertPath clientKeyPath hostIP in
  roles (certificateCalls (events handle issue s)).
Proof.
  intros issue.
  exact (proj2 (proj2 (run_always handle _ _ s
                         (issuance_files ParseIP caCertPath caKeyPath clientCertPath
                            clientKeyPath hostIP)))).
Qed.

(** X12.  GenerateClientCert asks for at most one certificate.  Its parent
    is the certificate x509.ParseCertificate gave for the bytes of the
    first PEM block of the file at [caCertPath], its signing key the
    key x509.ParseECPrivateKey gave for the first block of the file at
    [caKeyPath], its public key the public half of the one key
    generated; and its template is that of a client certificate. *)
Theorem renewal_is_signed_by_the_ca_on_disk {St}
  (handle : forall X, Eff X -> St -> X * St) (s : St) (ParseIP : string -> IP)
  (caCertPath caKeyPath clientCertPath clientKeyPath hostIP : string) :
  let tr := events handle
              (GenerateClientCert ParseIP caCertPath caKeyPath
                 clientCertPath clientKeyPath hostIP) s in
  certificateCalls tr = []
  \/ exists c caPEM keyPEM caBlock keyBlock clientKey,
      certificateCalls tr = [c]
      /\ filesRead tr = [(caCertPath, caPEM); (caKeyPath, keyPEM)]
      /\ pemDecode caPEM = Some caBlock
      /\ pemDecode keyPEM = Some keyBlock
      /\ certificatesToParse tr = [Pem.Bytes caBlock]
      /\ keysToParse tr = [Pem.Bytes keyBlock]
      /\ certificatesParsed tr = [parent c]
      /\ keysParsed tr = [priv c]
      /\ keysMade tr = [clientKey]
      /\ pub c = PublicKey_ clientKey
      /\ clientLeaf (template c).
Proof.
  intros tr. subst tr.
  exact (proj1 (proj2 (run_always handle _ _ s
                         (renewal_files ParseIP caCertPath caKeyPath clientCertPath
                            clientKeyPath hostIP)))).
Qed.



(** X14.  Unless x509.CreateCertificate has given a certificate,
    GenerateClientCert creates no file and writes nothing, and it
    returns an error: client files that exist are left as they are
    when the CA cannot be read, decoded or parsed. *)
Theorem renewal_without_certificate_creates_nothing {St}
  (handle : forall X, Eff X -> St -> X * St) (s : St) (ParseIP : string -> IP)
  (caCertPath caKeyPath clientCertPath clientKeyPath hostIP : string) :
  let renew := GenerateClientCert ParseIP caCertPath caKeyPath
                 clientCertPath clientKeyPath hostIP in
  issued (events handle renew s) = [] ->
  created (events handle renew s) = []
  /\ written (events handle renew s) = []
  /\ result handle renew s <> None.
Proof.
  intros renew H.
  destruct (run_always handle renew _ s
              (renewal_files ParseIP caCertPath caKeyPath clientCertPath
                 clientKeyPath hostIP))
    as (_ & _ & _ & Hnone & _).
  exact (Hnone H).
Qed.

Lemma renewal_without_certificate_creates_nothing_witness :
  let renew := GenerateClientCert Sim.ParseIP "/tmp/certs/ca.crt" "/tmp/certs/ca.key"
                 "/tmp/certs/client.crt" "/tmp/certs/client.key" "10.0.0.5" in
  let w := Machines.holding (Sim.boot 1700000000000000000 1000)
             "/tmp/certs/ca.crt" (Bytes.lit "not a certificate") in
  issued (events Sim.handle renew w) = []
  /\ result Sim.handle renew w
     = Some (New "failed to decode CA certificate PEM")
  /\ created (events Sim.handle renew w) = []
  /\ written (events Sim.handle renew w) = [].
Proof.
  intros renew w.
  assert (H : issued (events Sim.handle renew w) = []) by (vm_compute; reflexivity).
  destruct (renewal_without_certificate_creates_nothing Sim.handle w Sim.ParseIP
              "/tmp/certs/ca.crt" "/tmp/certs/ca.key" "/tmp/certs/client.crt"
              "/tmp/certs/client.key" "10.0.0.5" H) as (Hc & Hw & _).
  split; [exact H | ]. split; [vm_compute; reflexivity | ].
  split; [exact Hc | exact Hw].
Defined.

(** X15.  GenerateSelfSignedCAInVolume and GenerateKubeconfig work in a
    temporary directory of their own and remove it as their last act,
    whatever fails.  The issuance makes its four files in the
    directory and nothing elsewhere, and copies them with one helper
    container, which mounts the volume at [volumeCertDir] but copies to
    [/certs/] whatever [volumeCertDir] is.  The kubeconfig copies the
    three artifacts into the directory, reads them from there, and
    creates no file but the kubeconfig. *)
Theorem temporary_directories_are_removed {St}
  (handle : forall X, Eff X -> St -> X * St) (s : St) (ParseIP : string -> IP)
  (volumeName volumeCertDir hostIP kubeconfigPath serverURL containerName : string) :
  let issue := GenerateSelfSignedCAInVolume ParseIP volumeName volumeCertDir hostIP in
  let config := GenerateKubeconfig kubeconfigPath serverURL containerName in
  inTemporaryDirectory "kube-apiserver-certs"
    (result handle issue s) (events handle issue s)
    (fun tempDir body =>
       startOf (created body) (issuedFiles tempDir)
       /\ startOf (commands body) [copyInto volumeName volumeCertDir tempDir]
       /\ (result handle issue s = None ->
           created body = issuedFiles tempDir
           /\ commands body = [copyInto volumeName volumeCertDir tempDir]))
  /\ inTemporaryDirectory "kubeconfig-certs"
       (result handle config s) (events handle config s)
       (fun tempDir body =>
          startOf (commands body) (copies containerName tempDir)
          /\ startOf (map fst (filesRead body))
               (map (fun argv => last argv "") (copies containerName tempDir))
          /\ startOf (created body) [kubeconfigPath]).
Proof.
  intros issue config. split.
  - exact (proj1 (run_always handle issue _ s
                    (inVolume_directory ParseIP volumeName volumeCertDir hostIP))).
  - exact (proj1 (proj2 (run_always handle config _ s
                           (kubeconfig_directory kubeconfigPath serverURL
                              containerName)))).
Qed.

(** Where the temporary directory is named by a path that is not
    clean, the files are created under the cleaned path, as
    filepath.Join gives it, while the helper container and
    os.RemoveAll get the directory as os.MkdirTemp named it. *)
Example issuance_under_an_unclean_directory :
  let issue := GenerateSelfSignedCAInVolume Sim.ParseIP "kube-apiserver-certs"
                 "/certs" "10.0.0.5" in
  let tr := events Machines.uncleanHandle issue
              (Sim.boot 1700000000000000000 1000) in
  result Machines.uncleanHandle issue (Sim.boot 1700000000000000000 1000) = None
  /\ created tr = ["/tmp/kube-apiserver-certs0001/ca.crt";
                   "/tmp/kube-apiserver-certs0001/ca.key";
                   "/tmp/kube-apiserver-certs0001/client.crt";
                   "/tmp/kube-apiserver-certs0001/client.key"]
  /\ created tr = issuedFiles "/tmp/./kube-apiserver-certs0001"
  /\ commands tr = [copyInto "kube-apiserver-certs" "/certs"
                      "/tmp/./kube-apiserver-certs0001"]
  /\ removed tr = ["/tmp/./kube-apiserver-certs0001"].
Proof. vm_compute. repeat split. Qed.


(** X21.  In the kubeconfig that GenerateKubeconfig writes, the three data
    fields are base64 text on one line: letters, digits, [+], [/] and
    [=], without a line feed or a blank, although the files they come
    from are PEM text of many lines. *)
Theorem kubeconfig_fields_are_base64_text {St}
  (handle : forall X, Eff X -> St -> X * St) (s : St)
  (kubeconfigPath serverURL containerName : string) :
  let p := GenerateKubeconfig kubeconfigPath serverURL containerName in
  result handle p s = None ->
  exists file caData certData keyData,
    written (events handle p s)
    = [(file, list_byte_of_string
                (kubeconfigDocument serverURL caData certData keyData))]
    /\ Pem.text (list_byte_of_string caData)
    /\ Pem.text (list_byte_of_string certData)
    /\ Pem.text (list_byte_of_string keyData).
Proof.
  intros p Hr.
  destruct (run_always handle p _ s
              (GenerateKubeconfig_always kubeconfigPath serverURL containerName))
    as (_ & Hdone & _).
  destruct (Hdone Hr) as (tempDir & file & ca & cert & key & c & rm & Htr).
  exists file, (Base64.EncodeToString ca), (Base64.EncodeToString cert),
    (Base64.EncodeToString key).
  split; [rewrite Htr; reflexivity | ].
  unfold Base64.EncodeToString.
  rewrite !list_byte_of_string_of_list_byte.
  split; [ | split]; apply PemFacts.text_Encode.
Qed.

Lemma kubeconfig_fields_are_base64_text_witness :
  let p := GenerateKubeconfig "/home/op/kubeconfig" "https://10.0.0.5:6443"
             "kube-apiserver" in
  result Sim.handle p Sim.apiServer = None
  /\ exists file caData certData keyData,
      written (events Sim.handle p Sim.apiServer)
      = [(file, list_byte_of_string
                  (kubeconfigDocument "https://10.0.0.5:6443" caData certData keyData))]
      /\ Pem.text (list_byte_of_string caData)
      /\ Pem.text (list_byte_of_string certData)
      /\ Pem.text (list_byte_of_string keyData).
Proof.
  intros p.
  assert (H : result Sim.handle p Sim.apiServer = None) by (vm_compute; reflexivity).
  split; [exact H | ].
  exact (kubeconfig_fields_are_base64_text Sim.handle Sim.apiServer
           "/home/op/kubeconfig" "https://10.0.0.5:6443" "kube-apiserver" H).
Defined.

End FileFacts.

(** ** The etcd server *)

Module EtcdServerFacts.
Import Go Strings StringsFacts EtcdServer.
Local Open Scope string_scope.

(** What holds whatever the environment answers holds of every run. *)
Lemma exec_run_always {A St} (handle : forall X, Exec.Eff X -> St -> X * St)
  (p : Exec.Prog A) :
  forall (Q : A -> Exec.trace -> Prop) s,
    Exec.always p Q -> Q (Exec.result handle p s) (Exec.events handle p s).
Proof.
  induction p as [a | X e k IH]; intros Q s H.
  - exact H.
  - unfold Exec.result, Exec.events in *. cbn [Exec.run Exec.always] in *.
    destruct (handle X e s) as [x s1] eqn:E.
    specialize (IH x (fun a tr => Q a (Exec.Ev e x :: tr)) s1 (H x)).
    destruct (Exec.run handle (k x) s1) as [[a tr] s2]. exact IH.
Qed.

Lemma Fields_head out ip more : Fields out = ip :: more -> field ip.
Proof.
  intros E. pose proof (Fields_fields out) as H. rewrite E in H.
  inversion H. assumption.
Qed.

Lemma getHostIPAddress_always :
  Exec.always getHostIPAddress
    (fun r tr =>
       exists out err,
         tr = [Exec.Ev (Exec.RunStdout hostname) (out, err)]
         /\ match err with
            | Some e =>
                r = ("", Some (Errorf "failed to execute hostname -I: " e))
            | None =>
                match Fields out with
                | [] => r = ("", Some (New "no IP addresses found in hostname -I output"))
                | ip :: _ => r = (ip, None)
                end
            end).
Proof.
  unfold getHostIPAddress. cbn [Exec.always Exec.bind Exec.call].
  intros [out [e | ]].
  - cbn [Exec.always]. exists out, (Some e). split; reflexivity.
  - destruct (Fields out) as [ | ip more] eqn:E; cbn [Exec.always];
      exists out, None; rewrite E; split; reflexivity.
Qed.

(** X16.  getHostIPAddress runs [hostname -I] once and nothing else.  When
    it returns no error, the address is the first field strings.Fields
    finds in what the command printed: it is not empty and holds no
    white space of ASCII.  When the command fails, or prints white
    space alone, it returns an error; and with an error the address is
    the empty string. *)
Theorem host_address_is_the_first_field {St}
  (handle : forall X, Exec.Eff X -> St -> X * St) (s : St) :
  let r := Exec.result handle getHostIPAddress s in
  let tr := Exec.events handle getHostIPAddress s in
  Exec.commands tr = []
  /\ (exists out err,
        Exec.queries tr = [(hostname, (out, err))]
        /\ (snd r = None -> err = None /\ exists more, Fields out = fst r :: more)
        /\ (err <> None -> snd r <> None)
        /\ (blank out = true -> snd r <> None))
  /\ (snd r = None -> field (fst r))
  /\ (snd r <> None -> fst r = "").
Proof.
  intros r tr. subst r tr.
  destruct (exec_run_always handle getHostIPAddress _ s getHostIPAddress_always)
    as (out & err & -> & H).
  split; [reflexivity | ].
  destruct err as [e | ].
  - rewrite H. cbn [fst snd]. split; [ | split; [discriminate | reflexivity]].
    exists out, (Some e). split; [reflexivity | ].
    split; [discriminate | ]. split; discriminate.
  - destruct (Fields out) as [ | ip more] eqn:E; rewrite H; cbn [fst snd].
    + split; [ | split; [discriminate | reflexivity]].
      exists out, None. split; [reflexivity | ].
      split; [discriminate | ]. split; [congruence | discriminate].
    + split; [ | split; [intros _; exact (Fields_head out ip more E) | congruence]].
      exists out, None. split; [reflexivity | ].
      split; [intros _; split; [reflexivity | exists more; exact E] | ].
      split; [congruence | ].
      intros Hb. rewrite (Fields_blank out Hb) in E. discriminate E.
Qed.

(** X17.  When [hostname -I] succeeds and prints a word of ASCII followed by
    white space, getHostIPAddress returns that word, whatever
    follows. *)
Theorem host_address_is_the_first_word {St}
  (handle : forall X, Exec.Eff X -> St -> X * St) (s : St)
  (w : string) (sp : ascii) (tail : string) :
  fst (handle _ (Exec.RunStdout hostname) s) = (w ++ String sp tail, None) ->
  w <> "" -> word w = true -> asciiSpace sp = true ->
  Exec.result handle getHostIPAddress s = (w, None).
Proof.
  intros Hh Hw Hword Hsp.
  destruct (Fields_first w sp tail Hw Hword Hsp) as [more E].
  unfold Exec.result, getHostIPAddress.
  cbn [Exec.run Exec.bind Exec.call].
  destruct (handle _ (Exec.RunStdout hostname) s) as [[out err] s1].
  cbn [fst] in Hh. injection Hh as -> ->.
  rewrite E. reflexivity.
Qed.

Lemma host_address_is_the_first_word_witness :
  Exec.result Machines.handle getHostIPAddress
    (Machines.host ("10.0.0.5 172.17.0.1 " ++ nl))
  = ("10.0.0.5", None).
Proof.
  apply (host_address_is_the_first_word Machines.handle
           (Machines.host ("10.0.0.5 172.17.0.1 " ++ nl))
           "10.0.0.5" " "%char ("172.17.0.1 " ++ nl)).
  - reflexivity.
  - discriminate.
  - reflexivity.
  - reflexivity.
Defined.

Lemma StartEtcdServer_always volumeName containerName :
  Exec.always (StartEtcdServer volumeName containerName)
    (fun r tr =>
       (exists out err,
          Exec.queries tr = [(hostname, (out, err))]
          /\ (err <> None \/ Fields out = [] ->
              Exec.commands tr = []
              /\ exists e,
                  r = ("", Some (Errorf "failed to resolve host IP address: " e)))
          /\ (snd r = None <->
              Fields out <> []
              /\ incl (Exec.failures tr) [etcdRemove containerName]))
       /\ (snd r = None ->
           field (fst r)
           /\ Exec.commands tr
              = [etcdRemove containerName;
                 etcdCommand volumeName containerName (advertise (fst r))])
       /\ (snd r <> None -> fst r = "")).
Proof.
  unfold StartEtcdServer, getHostIPAddress.
  cbn [Exec.always Exec.bind Exec.call].
  intros [out [e | ]].
  - cbn [Exec.always]. split; [ | split; [discriminate | reflexivity]].
    exists out, (Some e). split; [reflexivity | ].
    split; [intros _; split; [reflexivity | eexists; reflexivity] | ].
    cbn [snd Exec.failures flat_map app]. split; [discriminate | ].
    intros [_ H]. exfalso. specialize (H hostname (or_introl eq_refl)).
    destruct H as [H | []]. discriminate H.
  - destruct (Fields out) as [ | ip more] eqn:E;
      cbn [Exec.always Exec.bind Exec.call].
    + split; [ | split; [discriminate | reflexivity]].
      exists out, None. split; [reflexivity | ].
      split; [intros _; split; [reflexivity | eexists; reflexivity] | ].
      rewrite E. cbn [snd]. split; [discriminate | intros [H _]; congruence].
    + intros [] removed [] [] [output [e | ]] []; [ | intros []]; cbn [Exec.always].
      * split; [ | split; [discriminate | reflexivity]].
        exists out, None. split; [reflexivity | ].
        split; [intros [H | H]; congruence | ].
        cbn [snd]. split; [discriminate | ].
        intros [_ H]. exfalso.
        assert (Hin : In (etcdCommand volumeName containerName (advertise ip))
                        (Exec.failures
                           [Exec.Ev (Exec.RunStdout hostname) (out, None);
                            Exec.Ev (Exec.Basic (Print ("Removing existing etcd container: "
                                       ++ containerName ++ " (if running)..." ++ nl))) tt;
                            Exec.Ev (Exec.Basic (Run ["docker"; "rm"; "-f"; containerName]))
                              removed;
                            Exec.Ev (Exec.Basic (Print ("Starting etcd server using Docker volume: "
                                       ++ volumeName ++ "..." ++ nl))) tt;
                            Exec.Ev (Exec.Basic (Print ("Executing command: "
                                       ++ Strings.Join (etcdCommand volumeName containerName
                                                          (advertise ip)) " " ++ nl))) tt;
                            Exec.Ev (Exec.CombinedOutput
                                       (etcdCommand volumeName containerName (advertise ip)))
                              (output, Some e);
                            Exec.Ev (Exec.Basic (Print ("Command output:" ++ nl
                                                        ++ output ++ nl))) tt])).
        { cbn [Exec.failures flat_map app snd]. destruct removed; cbn; tauto. }
        specialize (H _ Hin). destruct H as [H | []]. discriminate H.
      * split; [ | split; [ | intros H; exfalso; apply H; reflexivity]].
        -- exists out, None. split; [reflexivity | ].
           split; [intros [H | H]; congruence | ].
           cbn [snd]. split; [ | reflexivity]. intros _.
           split; [rewrite E; discriminate | ].
           cbn [Exec.failures flat_map app snd].
           destruct removed; cbn [app]; intros x Hx; [exact Hx | destruct Hx].
        -- intros _. cbn [fst]. split; [exact (Fields_head out ip more E) | reflexivity].
Qed.

(** X18.  StartEtcdServer returns no error exactly when [hostname -I] printed
    a field and no command failed but, at most, [docker rm -f]: the
    failure to remove an old container is passed over.  The address
    it then returns is not empty and holds no white space of ASCII,
    and it has run [docker rm -f] on the container and then the etcd
    container, whose flag [--advertise-client-urls] names that
    address.  With an error the address is the empty string. *)
Theorem etcd_server_is_started_at_the_host_address {St}
  (handle : forall X, Exec.Eff X -> St -> X * St) (s : St)
  (volumeName containerName : string) :
  let r := Exec.result handle (StartEtcdServer volumeName containerName) s in
  let tr := Exec.events handle (StartEtcdServer volumeName containerName) s in
  (exists out err,
     Exec.queries tr = [(hostname, (out, err))]
     /\ (snd r = None <->
         Fields out <> [] /\ incl (Exec.failures tr) [etcdRemove containerName]))
  /\ (snd r = None ->
      field (fst r)
      /\ Exec.commands tr
         = [etcdRemove containerName;
            etcdCommand volumeName containerName (advertise (fst r))])
  /\ (snd r <> None -> fst r = "").
Proof.
  intros r tr. subst r tr.
  destruct (exec_run_always handle _ _ s
              (StartEtcdServer_always volumeName containerName))
    as ((out & err & Hq & _ & Hiff) & Hok & Herr).
  split; [ | split; assumption].
  exists out, err. split; assumption.
Qed.

(** X19.  When [hostname -I] fails or prints no field, StartEtcdServer runs
    no docker command, so that a running container is left as it is,
    and returns the error of the address. *)
Theorem no_host_address_no_container {St}
  (handle : forall X, Exec.Eff X -> St -> X * St) (s : St)
  (volumeName containerName : string) :
  let r := Exec.result handle (StartEtcdServer volumeName containerName) s in
  let tr := Exec.events handle (StartEtcdServer volumeName containerName) s in
  forall out err,
    Exec.queries tr = [(hostname, (out, err))] ->
    err <> None \/ Fields out = [] ->
    Exec.commands tr = []
    /\ exists e, r = ("", Some (Errorf "failed to resolve host IP address: " e)).
Proof.
  intros r tr out err Hq Hno. subst r tr.
  destruct (exec_run_always handle _ _ s
              (StartEtcdServer_always volumeName containerName))
    as ((out' & err' & Hq' & Hnone & _) & _).
  rewrite Hq in Hq'. injection Hq' as <- <-. exact (Hnone Hno).
Qed.

Lemma no_host_address_no_container_witness :
  let p := StartEtcdServer "etcd-data" "etcd-restored" in
  let h := Machines.host (" " ++ nl) in
  Exec.queries (Exec.events Machines.handle p h) = [(hostname, (" " ++ nl, None))]
  /\ Exec.commands (Exec.events Machines.handle p h) = []
  /\ exists e, Exec.result Machines.handle p h
               = ("", Some (Errorf "failed to resolve host IP address: " e)).
Proof.
  intros p h.
  assert (Hq : Exec.queries (Exec.events Machines.handle p h)
               = [(hostname, (" " ++ nl, None))]) by (vm_compute; reflexivity).
  split; [exact Hq | ].
  apply (no_host_address_no_container Machines.handle h "etcd-data" "etcd-restored"
           (" " ++ nl) None Hq).
  right. vm_compute. reflexivity.
Defined.

End EtcdServerFacts.

(** ** The codecs on small inputs *)

Module Samples.
Example base64_foobar :
Base64.EncodeToString (Bytes.lit "foobar") = "Zm9vYmFy"%string
/\ Base64.EncodeToString (Bytes.lit "fooba") = "Zm9vYmE="%string
/\ Base64.EncodeToString (Bytes.lit "foob") = "Zm9vYg=="%string
/\ Base64.DecodeString "Zm9v
YmE=" = (Bytes.lit "fooba", None)
/\ Base64.DecodeString "Zm9vYg=
=" = (Bytes.lit "foob", None)
/\ snd (Base64.DecodeString "Zm9vYg=") = Some Base64.CorruptInputError
/\ snd (Base64.DecodeString "Zm9vYg==Z") = Some Base64.CorruptInputError
/\ snd (Base64.DecodeString "Zm9-") = Some Base64.CorruptInputError.
Proof. vm_compute. repeat split. Qed.

Example pem_small :
Pem.Encode "CERTIFICATE" (Bytes.lit "foob")
= Bytes.lit "-----BEGIN CERTIFICATE-----
Zm9vYg==
-----END CERTIFICATE-----
"
/\ Pem.Decode (Pem.Encode "EC PRIVATE KEY" (Bytes.lit "fooba"))
= (Some {| Pem.Type_ := "EC PRIVATE KEY"; Pem.Headers := [];
        Pem.Bytes := Bytes.lit "fooba" |}, [])
/\ Pem.Decode (Pem.Encode "CERTIFICATE" (repeat x41 100))
= (Some {| Pem.Type_ := "CERTIFICATE"; Pem.Headers := [];
        Pem.Bytes := repeat x41 100 |}, [])
/\ Pem.Decode (Pem.Encode "CERTIFICATE" [])
= (Some {| Pem.Type_ := "CERTIFICATE"; Pem.Headers := [];
        Pem.Bytes := [] |}, [])
/\ fst (Pem.Decode (Pem.Encode "A:B" [])) = None
/\ fst (Pem.Decode (Pem.Encode "A
B" (Bytes.lit "foob"))) = None.
Proof. vm_compute. repeat split. Qed.

End Samples.
